(** * Single-instance gateway lock: acquire, release, probe and stop

    A shallow embedding of the gateway lock of [src/agents/identity-file.ts]
    (the block that starts at [import { createHash } from "node:crypto"]):
    [readLinuxStartTime], [readLinuxCmdline], [isGatewayArgv],
    [resolveGatewayOwnerStatus], [readLockPayload], [resolveGatewayLockPath],
    [acquireGatewayLock] with its [release] closure, and
    [tryStopForegroundGateway].

    The code is asynchronous but strictly sequential ([await] after every
    call), so it is written here in a state-and-exception monad over a
    [World]: the file system, the process table, the clock, the open file
    handles, a script of what the other processes of the host do between two
    system calls, and the log of the system calls the program itself issued. *)

From Stdlib Require Import ZArith Lia Ascii.
From stdpp Require Import base gmap strings list pretty.

Set Warnings "-register-all".
Local Open Scope Z_scope.
Local Open Scope string_scope.

(** ** JavaScript values *)

(** A JavaScript number.  The numbers this code handles (process ids, clock
    ticks, millisecond timestamps) are integral; the two infinities and NaN
    are kept because the code tests for them with [Number.isFinite].
    Fractions and the rounding of integers beyond 2^53 are not modelled. *)
Inductive number :=
| Num (z : Z)
| Infinity (negative : bool)
| NaN.

Definition number_eqb (a b : number) : bool :=
  match a, b with
  | Num x, Num y => (x =? y)%Z
  | Infinity s, Infinity t => Bool.eqb s t
  | _, _ => false
  end.

Definition Number_isFinite (n : number) : bool :=
  match n with Num _ => true | _ => false end.

(** Truthiness of a number: [0] and [NaN] are falsy. *)
Definition number_truthy (n : number) : bool :=
  match n with Num 0 => false | NaN => false | _ => true end.

(** Truthiness of a string: only the empty string is falsy. *)
Definition string_truthy (s : string) : bool :=
  match s with EmptyString => false | _ => true end.

(** [`${n}`] *)
Definition number_toString (n : number) : string :=
  match n with
  | Num z => pretty z
  | Infinity false => "Infinity"
  | Infinity true => "-Infinity"
  | NaN => "NaN"
  end.

(** What [JSON.parse] returns. *)
Inductive json :=
| JNull
| JBool (b : bool)
| JNum (n : number)
| JStr (s : string)
| JArr (items : list json)
| JObj (props : list (string * json)).

(** The text of a file, seen through [JSON.parse]: either it is not JSON
    (the parse throws a SyntaxError), or it is the serialisation of a value. *)
Inductive FileText :=
| NotJson (raw : string)
| JsonText (v : json).

Inductive JsError :=
| SystemError (code : string)
| SyntaxError
| TypeError
| GatewayLockError (message : string) (cause : option JsError).

(** [(err as { code?: unknown }).code] *)
Definition error_code (e : JsError) : option string :=
  match e with SystemError c => Some c | _ => None end.



Fixpoint assoc (k : string) (props : list (string * json)) : option json :=
  match props with
  | [] => None
  | (k', v) :: rest => if String.eqb k k' then Some v else assoc k rest
  end.

(** Property read [v.k]: throws a TypeError on [null], is [undefined]
    ([None]) on a value that has no such property. *)
Definition get_prop (v : json) (k : string) : JsError + option json :=
  match v with
  | JNull => inl TypeError
  | JObj props => inr (assoc k props)
  | _ => inr None
  end.

(** ** String primitives used on the /proc files *)

(** White space within ASCII: tab, line feed, vertical tab, form feed,
    carriage return and space.  JavaScript also counts code points beyond
    ASCII as white space (U+00A0, U+FEFF, U+2028, U+2029, the Zs class);
    these are not modelled. *)
Definition is_ws (a : ascii) : bool :=
  let n := nat_of_ascii a in
  ((9 <=? n) && (n <=? 13))%nat || (n =? 32)%nat.

Fixpoint trimStart (s : string) : string :=
  match s with
  | String a rest => if is_ws a then trimStart rest else s
  | EmptyString => EmptyString
  end.

Fixpoint string_rev_onto (s acc : string) : string :=
  match s with
  | EmptyString => acc
  | String a rest => string_rev_onto rest (String a acc)
  end.

Definition string_rev (s : string) : string := string_rev_onto s EmptyString.

Definition trim (s : string) : string :=
  string_rev (trimStart (string_rev (trimStart s))).

(** [s.lastIndexOf(c)], [-1] when [c] does not occur. *)
Fixpoint lastIndexOf_from (c : ascii) (s : string) (i : Z) (found : Z) : Z :=
  match s with
  | EmptyString => found
  | String a rest =>
      lastIndexOf_from c rest (i + 1) (if Ascii.eqb a c then i else found)
  end.

Definition lastIndexOf (c : ascii) (s : string) : Z := lastIndexOf_from c s 0 (-1).

(** [s.slice(n)] for [0 <= n]. *)
Fixpoint slice (n : nat) (s : string) : string :=
  match n, s with
  | O, _ => s
  | S n', String _ rest => slice n' rest
  | S _, EmptyString => EmptyString
  end.

(** [s.slice(0, n)] *)
Fixpoint slice_to (n : nat) (s : string) : string :=
  match n, s with
  | S n', String a rest => String a (slice_to n' rest)
  | _, _ => EmptyString
  end.

(** [s.split(/\s+/)]: the pieces between maximal runs of white space. *)
Fixpoint split_ws_go (s : string) (cur : string) (in_ws : bool) : list string :=
  match s with
  | EmptyString => [string_rev cur]
  | String a rest =>
      if is_ws a then
        if in_ws then split_ws_go rest cur true
        else string_rev cur :: split_ws_go rest EmptyString true
      else split_ws_go rest (String a cur) false
  end.

Definition split_ws (s : string) : list string := split_ws_go s EmptyString false.

(** [s.split(sep)] for a one-character separator. *)
Fixpoint split_char_go (sep : ascii) (s : string) (cur : string) : list string :=
  match s with
  | EmptyString => [string_rev cur]
  | String a rest =>
      if Ascii.eqb a sep then string_rev cur :: split_char_go sep rest EmptyString
      else split_char_go sep rest (String a cur)
  end.

Definition split_char (sep : ascii) (s : string) : list string :=
  split_char_go sep s EmptyString.

Definition digit_of (a : ascii) : option Z :=
  let n := nat_of_ascii a in
  if ((48 <=? n) && (n <=? 57))%nat then Some (Z.of_nat n - 48) else None.

Fixpoint parse_digits (s : string) (acc : option Z) : option Z :=
  match s with
  | EmptyString => acc
  | String a rest =>
      match digit_of a with
      | Some d => parse_digits rest (Some (10 * default 0 acc + d))
      | None => acc
      end
  end.

(** [Number.parseInt(s, 10)]: leading white space, an optional sign, the
    longest run of decimal digits; NaN when there is no digit.  The result
    is the exact integer, which is the code's double for every run of
    digits below 2^53; the rounding above that is not modelled. *)
Definition Number_parseInt (s : string) : number :=
  let t := trimStart s in
  let '(neg, body) :=
    match t with
    | String "-" rest => (true, rest)
    | String "+" rest => (false, rest)
    | _ => (false, t)
    end in
  match parse_digits body None with
  | Some z => Num (if neg then - z else z)
  | None => NaN
  end.

Definition lower_ascii (a : ascii) : ascii :=
  let n := nat_of_ascii a in
  if ((65 <=? n) && (n <=? 90))%nat then ascii_of_nat (n + 32) else a.

Fixpoint string_map (f : ascii -> ascii) (s : string) : string :=
  match s with
  | EmptyString => EmptyString
  | String a rest => String (f a) (string_map f rest)
  end.

(** [s.toLowerCase()] within ASCII: the letters A to Z are mapped, every
    other byte is kept; the lower case of letters beyond ASCII is not
    modelled. *)
Definition toLowerCase (s : string) : string := string_map lower_ascii s.

(** [s.endsWith(suffix)] *)
Definition endsWith (s suffix : string) : bool :=
  String.prefix (string_rev suffix) (string_rev s).

Definition includes (x : string) (l : list string) : bool :=
  existsb (String.eqb x) l.

(** ** The world the code runs in *)

(** A file: an inode number (a file that is removed and created again is a
    different file), its text and its modification time in milliseconds. *)
Record File := mkFile {
  ino : nat;
  content : FileText;
  mtimeMs : Z
}.

(** A live process, as /proc shows it: the text of /proc/<pid>/stat and of
    /proc/<pid>/cmdline, [None] when the file cannot be read. *)
Record Proc := mkProc {
  proc_stat : option string;
  proc_cmdline : option string
}.

Inductive Signal := SIGTERM | SIGKILL.

(** The system calls of the program, in the order it issued them. *)
Inductive Syscall :=
| SysMkdir (path : string)
| SysOpenWx (path : string)
| SysWriteFile (fd : nat)
| SysClose (fd : nat)
| SysReadFile (path : string)
| SysStat (path : string)
| SysRm (path : string)
| SysSleep (ms : Z)
| SysKill (target : number) (sig : Signal)
| SysPidAlive (target : number)
| SysReadProc (target : number) (file : string).

(** What the rest of the host may do between two system calls of the
    program: let time pass, create, replace or remove a file, start or end
    a process, or make the pending system call fail with an errno code. *)
Inductive EnvEvent :=
| EnvElapse (ms : Z)
| EnvPut (path : string) (text : FileText)
| EnvUnlink (path : string)
| EnvSpawn (p : positive) (info : Proc)
| EnvExit (p : positive)
| EnvFault (code : string).

Record World := mkWorld {
  files : gmap string File;
  procs : gmap positive Proc;
  fds : gmap nat (string * nat);
  fresh : nat;
  clock : Z;
  script : list (list EnvEvent);
  log : list Syscall
}.

Definition set_files (f : gmap string File) (w : World) : World :=
  mkWorld f (procs w) (fds w) (fresh w) (clock w) (script w) (log w).
Definition set_procs (p : gmap positive Proc) (w : World) : World :=
  mkWorld (files w) p (fds w) (fresh w) (clock w) (script w) (log w).
Definition set_fds (d : gmap nat (string * nat)) (w : World) : World :=
  mkWorld (files w) (procs w) d (fresh w) (clock w) (script w) (log w).
Definition set_fresh (n : nat) (w : World) : World :=
  mkWorld (files w) (procs w) (fds w) n (clock w) (script w) (log w).
Definition set_clock (t : Z) (w : World) : World :=
  mkWorld (files w) (procs w) (fds w) (fresh w) t (script w) (log w).
Definition set_script (s : list (list EnvEvent)) (w : World) : World :=
  mkWorld (files w) (procs w) (fds w) (fresh w) (clock w) s (log w).
Definition record (c : Syscall) (w : World) : World :=
  mkWorld (files w) (procs w) (fds w) (fresh w) (clock w) (script w) (log w ++ [c]).

Definition apply_event (w : World) (e : EnvEvent) : World :=
  match e with
  | EnvElapse ms => set_clock (clock w + ms) w
  | EnvPut path text =>
      set_fresh (S (fresh w))
        (set_files (<[path := mkFile (fresh w) text (clock w)]> (files w)) w)
  | EnvUnlink path => set_files (delete path (files w)) w
  | EnvSpawn p info => set_procs (<[p := info]> (procs w)) w
  | EnvExit p => set_procs (delete p (procs w)) w
  | EnvFault _ => w
  end.

Fixpoint fault_of (batch : list EnvEvent) : option string :=
  match batch with
  | [] => None
  | EnvFault code :: _ => Some code
  | _ :: rest => fault_of rest
  end.

(** One turn of the environment: the next batch of the script happens, and
    tells whether the pending system call is made to fail. *)
Definition tick (w : World) : option string * World :=
  match script w with
  | [] => (None, w)
  | batch :: rest => (fault_of batch, fold_left apply_event batch (set_script rest w))
  end.

(** The process with id [target], if any.  Process ids are positive
    integers. *)
Definition proc_of (w : World) (target : number) : option Proc :=
  match target with
  | Num (Zpos p) => procs w !! p
  | _ => None
  end.

(** ** The monad: state, exceptions, and fuel for the retry loop *)

Inductive Res (A : Type) :=
| Ok (a : A)
| Throw (e : JsError)
| OutOfFuel.
Arguments Ok {A} a.
Arguments Throw {A} e.
Arguments OutOfFuel {A}.

Definition M (A : Type) : Type := World -> Res A * World.

Definition ret {A} (a : A) : M A := fun w => (Ok a, w).
Definition throw {A} (e : JsError) : M A := fun w => (Throw e, w).
Definition out_of_fuel {A} : M A := fun w => (OutOfFuel, w).

Definition bind {A B} (m : M A) (k : A -> M B) : M B :=
  fun w =>
    match m w with
    | (Ok a, w') => k a w'
    | (Throw e, w') => (Throw e, w')
    | (OutOfFuel, w') => (OutOfFuel, w')
    end.

Definition res_map {A B} (f : A -> B) (r : Res A) : Res B :=
  match r with
  | Ok a => Ok (f a)
  | Throw e => Throw e
  | OutOfFuel => OutOfFuel
  end.

(** [try { m } catch (e) { h e }] *)
Definition try_catch {A} (m : M A) (h : JsError -> M A) : M A :=
  fun w =>
    match m w with
    | (Throw e, w') => h e w'
    | r => r
    end.

Notation "'let*' x ':=' m 'in' k" := (bind m (fun x => k))
  (at level 10, x pattern, m at level 100, k at level 200).
Notation "m ';;' k" := (bind m (fun _ => k))
  (at level 100, k at level 200, right associativity).

(** A system call that may fail: the environment takes its turn, the call is
    logged, and it either fails with the injected errno or runs [body]. *)
Definition syscall {A} (call : Syscall) (body : M A) : M A :=
  fun w =>
    let '(fault, w1) := tick w in
    let w2 := record call w1 in
    match fault with
    | Some code => (Throw (SystemError code), w2)
    | None => body w2
    end.

(** A call that has no failure mode (a timer, an existence test). *)
Definition stepped {A} (call : Syscall) (body : M A) : M A :=
  fun w => body (record call (snd (tick w))).

(** ** System calls *)

(** [fs.mkdir(path, { recursive: true })]; directories are not modelled. *)
Definition fs_mkdir (path : string) : M unit :=
  syscall (SysMkdir path) (ret tt).

(** [fs.open(path, "wx")]: creates the file empty and fails with EEXIST when
    the path exists. *)
Definition fs_open_wx (path : string) : M nat :=
  syscall (SysOpenWx path) (fun w =>
    match files w !! path with
    | Some _ => (Throw (SystemError "EEXIST"), w)
    | None =>
        let fd := fresh w in
        (Ok fd,
         set_fresh (S fd)
           (set_fds (<[fd := (path, fd)]> (fds w))
              (set_files (<[path := mkFile fd (NotJson EmptyString) (clock w)]> (files w)) w)))
    end).

(** [handle.writeFile(text, "utf8")]: writes the file the handle was opened
    on; when that file has been unlinked meanwhile the write is not visible
    under the path. *)
Definition handle_writeFile (fd : nat) (text : FileText) : M unit :=
  syscall (SysWriteFile fd) (fun w =>
    match fds w !! fd with
    | None => (Throw (SystemError "EBADF"), w)
    | Some (path, i) =>
        match files w !! path with
        | Some f =>
            if (ino f =? i)%nat
            then (Ok tt, set_files (<[path := mkFile i text (clock w)]> (files w)) w)
            else (Ok tt, w)
        | None => (Ok tt, w)
        end
    end).

(** [handle.close()] *)
Definition handle_close (fd : nat) : M unit :=
  syscall (SysClose fd) (fun w => (Ok tt, set_fds (delete fd (fds w)) w)).

(** [fs.readFile(path, "utf8")] *)
Definition fs_readFile (path : string) : M FileText :=
  syscall (SysReadFile path) (fun w =>
    match files w !! path with
    | Some f => (Ok (content f), w)
    | None => (Throw (SystemError "ENOENT"), w)
    end).

(** [(await fs.stat(path)).mtimeMs] *)
Definition fs_stat_mtimeMs (path : string) : M Z :=
  syscall (SysStat path) (fun w =>
    match files w !! path with
    | Some f => (Ok (mtimeMs f), w)
    | None => (Throw (SystemError "ENOENT"), w)
    end).

(** [fs.rm(path, { force: true })]: an absent path is not an error. *)
Definition fs_rm_force (path : string) : M unit :=
  syscall (SysRm path) (fun w => (Ok tt, set_files (delete path (files w)) w)).

(** Node clamps a timer delay below 1 or above 2^31-1 to 1. *)
Definition timer_delay (ms : Z) : Z :=
  if (ms <? 1)%Z || (2147483647 <? ms)%Z then 1 else ms.

(** [await new Promise((r) => setTimeout(r, ms))] *)
Definition sleep (ms : Z) : M unit :=
  stepped (SysSleep ms) (fun w => (Ok tt, set_clock (clock w + timer_delay ms) w)).

(** [Date.now()] *)
Definition Date_now : M Z := fun w => (Ok (clock w), w).

(** [process.kill(pid, signal)]: throws ESRCH when there is no such process.
    What the target does with the signal is the environment's business. *)
Definition process_kill (target : number) (sig : Signal) : M unit :=
  syscall (SysKill target sig) (fun w =>
    match proc_of w target with
    | Some _ => (Ok tt, w)
    | None => (Throw (SystemError "ESRCH"), w)
    end).

(** Modelled from the spec: [isPidAlive] of [../shared/pid-alive.js], which
    is not among the sources.  Section 4.2, step 1: it tells whether a
    process with id [pid] exists in the OS process table. *)
Definition isPidAlive (target : number) : M bool :=
  stepped (SysPidAlive target) (fun w => (Ok (bool_decide (is_Some (proc_of w target))), w)).

(** [fsSync.readFileSync(`/proc/${pid}/<file>`, "utf8")] *)
Definition readFileSync_proc (target : number) (file : string) : M string :=
  syscall (SysReadProc target file) (fun w =>
    match proc_of w target with
    | None => (Throw (SystemError "ENOENT"), w)
    | Some info =>
        match (if String.eqb file "stat" then proc_stat info else proc_cmdline info) with
        | Some text => (Ok text, w)
        | None => (Throw (SystemError "EACCES"), w)
        end
    end).

(** ** The lock *)

Definition DEFAULT_TIMEOUT_MS : Z := 5000.
Definition DEFAULT_POLL_INTERVAL_MS : Z := 100.
Definition DEFAULT_STALE_MS : Z := 30000.

Record LockPayload := mkPayload {
  pid : number;
  createdAt : string;
  configPath : string;
  startTime : option number
}.

(** The handle: the two paths and what the [release] closure captured (the
    open file handle). *)
Record GatewayLockHandle := mkHandle {
  h_lockPath : string;
  h_configPath : string;
  h_fd : nat
}.

Record GatewayLockOptions := mkOptions {
  opt_env : option (gmap string string);
  opt_timeoutMs : option Z;
  opt_pollIntervalMs : option Z;
  opt_staleMs : option Z;
  opt_allowInTests : option bool;
  opt_platform : option string
}.

Inductive LockOwnerStatus := alive | dead | unknown.

Definition normalizeProcArg (arg : string) : string :=
  toLowerCase (string_map (fun a => if Ascii.eqb a "\"%char then "/"%char else a) arg).

Definition parseProcCmdline (raw : string) : list string :=
  List.filter string_truthy (map trim (split_char "000"%char raw)).

Definition entryCandidates : list string :=
  ["dist/index.js"; "dist/entry.js"; "openclaw.mjs"; "scripts/run-node.mjs"; "src/index.ts"].

Definition isGatewayArgv (args : list string) : bool :=
  let normalized := map normalizeProcArg args in
  if negb (includes "gateway" normalized) then false
  else if existsb (fun arg => existsb (fun entry => endsWith arg entry) entryCandidates) normalized
  then true
  else
    let exe := nth 0 normalized EmptyString in
    endsWith exe "/openclaw" || String.eqb exe "openclaw".

Definition readLinuxCmdline (target : number) : M (option (list string)) :=
  try_catch
    (let* raw := readFileSync_proc target "cmdline" in
     ret (Some (parseProcCmdline raw)))
    (fun _ => ret None).

Definition readLinuxStartTime (target : number) : M (option number) :=
  try_catch
    (let* raw0 := readFileSync_proc target "stat" in
     let raw := trim raw0 in
     let closeParen := lastIndexOf ")"%char raw in
     if (closeParen <? 0)%Z then ret None
     else
       let rest := trim (slice (Z.to_nat (closeParen + 1)) raw) in
       let fields := split_ws rest in
       let startTime := Number_parseInt (nth 19 fields EmptyString) in
       ret (if Number_isFinite startTime then Some startTime else None))
    (fun _ => ret None).

Definition resolveGatewayOwnerStatus
    (target : number) (payload : option LockPayload) (platform : string)
    : M LockOwnerStatus :=
  let* exists_ := isPidAlive target in
  if negb exists_ then ret dead
  else if negb (String.eqb platform "linux") then ret alive
  else
    let payloadStartTime := payload ≫= startTime in
    if from_option Number_isFinite false payloadStartTime then
      let* currentStartTime := readLinuxStartTime target in
      match currentStartTime with
      | None => ret unknown
      | Some c =>
          ret (if from_option (number_eqb c) false payloadStartTime then alive else dead)
      end
    else
      let* args := readLinuxCmdline target in
      match args with
      | None => ret unknown
      | Some a => ret (if isGatewayArgv a then alive else dead)
      end.

(** [JSON.parse(raw)] *)
Definition JSON_parse (raw : FileText) : M json :=
  match raw with
  | NotJson _ => throw SyntaxError
  | JsonText v => ret v
  end.

(** [JSON.stringify(payload)] *)
Definition JSON_stringify (payload : LockPayload) : FileText :=
  JsonText (JObj (
    [("pid", JNum (pid payload));
     ("createdAt", JStr (createdAt payload));
     ("configPath", JStr (configPath payload))]
    ++ match startTime payload with
       | Some n => [("startTime", JNum n)]
       | None => []
       end)).

Definition prop (v : json) (k : string) : M (option json) :=
  match get_prop v k with
  | inl e => throw e
  | inr r => ret r
  end.

Definition readLockPayload (lockPath : string) : M (option LockPayload) :=
  try_catch
    (let* raw := fs_readFile lockPath in
     let* parsed := JSON_parse raw in
     let* parsed_pid := prop parsed "pid" in
     match parsed_pid with
     | Some (JNum pid_) =>
         let* parsed_createdAt := prop parsed "createdAt" in
         match parsed_createdAt with
         | Some (JStr createdAt_) =>
             let* parsed_configPath := prop parsed "configPath" in
             match parsed_configPath with
             | Some (JStr configPath_) =>
                 let* parsed_startTime := prop parsed "startTime" in
                 let startTime_ :=
                   match parsed_startTime with
                   | Some (JNum n) => Some n
                   | _ => None
                   end in
                 ret (Some (mkPayload pid_ createdAt_ configPath_ startTime_))
             | _ => ret None
             end
         | _ => ret None
         end
     | _ => ret None
     end)
    (fun _ => ret None).

(** What the iteration of the acquire loop did when it met an existing lock:
    removed it and went on at once ([continue]), or slept one poll
    interval. *)
Inductive Step := Reclaimed | Waited.

Inductive Attempt :=
| Acquired (h : GatewayLockHandle)
| Retry (lastPayload : option LockPayload) (how : Step).

Inductive ForegroundStopResult := stopped | not_running | no_lock.

Record StopResult := mkStop {
  result : ForegroundStopResult;
  stop_pid : option number
}.

(** The platform and the sibling modules: functions the lock code calls and
    does not define. *)
Record Runtime := mkRuntime {
  Date_parse : string -> number;
  toISOString : Z -> string;
  sha1_hex : string -> string;
  path_join : string -> string -> string;
  path_dirname : string -> string;
  resolveStateDir : gmap string string -> string;
  resolveConfigPath : gmap string string -> string -> string;
  resolveGatewayLockDir : string
}.

(** The global [process] object. *)
Record Process := mkProcess {
  process_pid : number;
  process_platform : string;
  process_env : gmap string string
}.

Section GatewayLock.

Context (rt : Runtime) (process : Process).

Definition resolveGatewayLockPath (env : gmap string string) : string * string :=
  let stateDir := resolveStateDir rt env in
  let configPath_ := resolveConfigPath rt env stateDir in
  let hash := slice_to 8 (sha1_hex rt configPath_) in
  let lockDir := resolveGatewayLockDir rt in
  let lockPath := path_join rt lockDir ("gateway." ++ hash ++ ".lock") in
  (lockPath, configPath_).

(** [release]: close the handle, whatever comes of it, then force-remove
    the lock file. *)
Definition release (h : GatewayLockHandle) : M unit :=
  try_catch (handle_close (h_fd h)) (fun _ => ret tt) ;;
  fs_rm_force (h_lockPath h).

Section Acquire.

Variables (lockPath configPath_ platform : string).
Variables (timeoutMs pollIntervalMs staleMs : Z).

(** The [try] block of the loop: create the file, write the payload, return
    the handle. *)
Definition try_create : M GatewayLockHandle :=
  let* handle := fs_open_wx lockPath in
  let* startTime_ :=
    (if String.eqb platform "linux"
     then readLinuxStartTime (process_pid process)
     else ret None) in
  let* now := Date_now in
  let payload :=
    mkPayload (process_pid process) (toISOString rt now) configPath_
      (match startTime_ with
       | Some n => if Number_isFinite n then Some n else None
       | None => None
       end) in
  handle_writeFile handle (JSON_stringify payload) ;;
  ret (mkHandle lockPath configPath_ handle).

(** The staleness test of an existing lock: first the age of
    [payload.createdAt], then the modification time of the file. *)
Definition stale_by_createdAt (lastPayload : option LockPayload) : M bool :=
  match lastPayload with
  | Some p =>
      if string_truthy (createdAt p) then
        match Date_parse rt (createdAt p) with
        | Num created =>
            let* now := Date_now in
            ret (staleMs <? now - created)%Z
        | _ => ret false
        end
      else ret false
  | None => ret false
  end.

Definition stale_by_mtime : M bool :=
  try_catch
    (let* mtime := fs_stat_mtimeMs lockPath in
     let* now := Date_now in
     ret (staleMs <? now - mtime)%Z)
    (fun _ => ret true).

Definition is_stale (lastPayload : option LockPayload) : M bool :=
  let* stale := stale_by_createdAt lastPayload in
  if negb stale then stale_by_mtime else ret stale.

Definition is_alive (s : LockOwnerStatus) : bool :=
  match s with alive => true | _ => false end.

Definition is_dead (s : LockOwnerStatus) : bool :=
  match s with dead => true | _ => false end.

(** The [catch] block from the owner status on: what to do about the lock
    that is in the way. *)
Definition after_probe (lastPayload : option LockPayload) (ownerStatus : LockOwnerStatus)
    : M Step :=
  let ownerPid := pid <$> lastPayload in
  if is_dead ownerStatus && from_option number_truthy false ownerPid then
    fs_rm_force lockPath ;;
    ret Reclaimed
  else
    let* stale :=
      (if negb (is_alive ownerStatus) then is_stale lastPayload else ret false) in
    if stale then
      fs_rm_force lockPath ;;
      ret Reclaimed
    else
      sleep pollIntervalMs ;;
      ret Waited.

(** The owner status of the lock in the way: [unknown] without probing when
    there is no payload or its pid is falsy. *)
Definition probe_owner (lastPayload : option LockPayload) : M LockOwnerStatus :=
  match lastPayload with
  | Some p =>
      if number_truthy (pid p)
      then resolveGatewayOwnerStatus (pid p) lastPayload platform
      else ret unknown
  | None => ret unknown
  end.

(** The [catch] block after the EEXIST test. *)
Definition contention : M Attempt :=
  let* lastPayload := readLockPayload lockPath in
  let* ownerStatus := probe_owner lastPayload in
  let* how := after_probe lastPayload ownerStatus in
  ret (Retry lastPayload how).

(** One iteration of the [while] loop. *)
Definition attempt : M Attempt :=
  try_catch
    (let* h := try_create in ret (Acquired h))
    (fun err =>
       if negb (bool_decide (error_code err = Some "EEXIST")) then
         throw (GatewayLockError ("failed to acquire gateway lock at " ++ lockPath) (Some err))
       else contention).

Definition timeout_message (lastPayload : option LockPayload) : string :=
  let owner :=
    match lastPayload with
    | Some p =>
        if number_truthy (pid p) then " (pid " ++ number_toString (pid p) ++ ")"
        else EmptyString
    | None => EmptyString
    end in
  "gateway already running" ++ owner ++ "; lock timeout after "
    ++ pretty timeoutMs ++ "ms".

Fixpoint acquire_loop (fuel : nat) (startedAt : Z) (lastPayload : option LockPayload)
    : M (option GatewayLockHandle) :=
  match fuel with
  | O => out_of_fuel
  | S fuel' =>
      let* now := Date_now in
      if (now - startedAt <? timeoutMs)%Z then
        let* a := attempt in
        match a with
        | Acquired h => ret (Some h)
        | Retry lastPayload' _ => acquire_loop fuel' startedAt lastPayload'
        end
      else throw (GatewayLockError (timeout_message lastPayload) None)
  end.

End Acquire.

Definition env_is (env : gmap string string) (k v : string) : bool :=
  bool_decide (env !! k = Some v).

Definition env_truthy (env : gmap string string) (k : string) : bool :=
  from_option string_truthy false (env !! k).

(** The environment overrides that switch the lock off. *)
Definition locking_disabled (env : gmap string string) (allowInTests : bool) : bool :=
  env_is env "OPENCLAW_ALLOW_MULTI_GATEWAY" "1"
  || (negb allowInTests && (env_truthy env "VITEST" || env_is env "NODE_ENV" "test")).

Definition acquireGatewayLock (fuel : nat) (opts : GatewayLockOptions)
    : M (option GatewayLockHandle) :=
  let env := default (process_env process) (opt_env opts) in
  let allowInTests := bool_decide (opt_allowInTests opts = Some true) in
  if locking_disabled env allowInTests
  then ret None
  else
    let timeoutMs := default DEFAULT_TIMEOUT_MS (opt_timeoutMs opts) in
    let pollIntervalMs := default DEFAULT_POLL_INTERVAL_MS (opt_pollIntervalMs opts) in
    let staleMs := default DEFAULT_STALE_MS (opt_staleMs opts) in
    let platform := default (process_platform process) (opt_platform opts) in
    let '(lockPath, configPath_) := resolveGatewayLockPath env in
    fs_mkdir (path_dirname rt lockPath) ;;
    let* startedAt := Date_now in
    acquire_loop lockPath configPath_ platform timeoutMs pollIntervalMs staleMs
      fuel startedAt None.

(** ** Stopping a foreground gateway *)

Definition pollMs : Z := 100.
Definition maxWaitMs : Z := 3000.

(** The grace window: poll until the owner is gone ([Some] result) or the
    window is over ([None]). *)
Fixpoint stop_wait (fuel : nat) (lockPath : string) (payload : LockPayload) (waited : Z)
    : M (option StopResult) :=
  if (waited <? maxWaitMs)%Z then
    match fuel with
    | O => out_of_fuel
    | S fuel' =>
        sleep pollMs ;;
        let waited' := waited + pollMs in
        let* still := isPidAlive (pid payload) in
        if negb still then
          fs_rm_force lockPath ;;
          ret (Some (mkStop stopped (Some (pid payload))))
        else stop_wait fuel' lockPath payload waited'
    end
  else ret None.

(** Escalation: SIGKILL, a short wait, the lock removed. *)
Definition stop_escalate (lockPath : string) (payload : LockPayload) : M StopResult :=
  try_catch (process_kill (pid payload) SIGKILL) (fun _ => ret tt) ;;
  sleep 200 ;;
  fs_rm_force lockPath ;;
  ret (mkStop stopped (Some (pid payload))).

Definition tryStopForegroundGateway
    (env_ : option (gmap string string)) (platform_ : option string) : M StopResult :=
  let env := default (process_env process) env_ in
  let platform := default (process_platform process) platform_ in
  let lockPath := fst (resolveGatewayLockPath env) in
  let* payload_ := readLockPayload lockPath in
  match payload_ with
  | None => ret (mkStop no_lock None)
  | Some payload =>
      let* ownerStatus := resolveGatewayOwnerStatus (pid payload) (Some payload) platform in
      if is_dead ownerStatus then
        fs_rm_force lockPath ;;
        ret (mkStop not_running (Some (pid payload)))
      else
        let* sent :=
          try_catch (process_kill (pid payload) SIGTERM ;; ret true) (fun _ => ret false) in
        if negb sent then
          fs_rm_force lockPath ;;
          ret (mkStop not_running (Some (pid payload)))
        else
          let* gone := stop_wait (Z.to_nat (maxWaitMs / pollMs)) lockPath payload 0 in
          match gone with
          | Some r => ret r
          | None => stop_escalate lockPath payload
          end
  end.

End GatewayLock.

(** ** Vocabulary of the statements *)

(** What [m] returns when run from [w], and the world it leaves. *)
Definition outcome {A} (m : M A) (w : World) : Res A := fst (m w).
Definition after {A} (m : M A) (w : World) : World := snd (m w).

(** The iteration removed the lock at once: from [w] the only system call was
    the force-remove of [lockPath] (no sleep, no stat); unless the
    environment made that call fail, the path is free afterwards and the
    loop goes on ([Reclaimed]). *)
Definition reclaims (lockPath : string) (w : World) (r : Res Step) (w' : World) : Prop :=
  log w' = (log w ++ [SysRm lockPath])%list ∧
  match fst (tick w) with
  | None => r = Ok Reclaimed ∧ files w' !! lockPath = None
  | Some code => r = Throw (SystemError code)
  end.

(** The iteration waited: from [w] the only system call was one sleep of
    [ms]; the program touched no file. *)
Definition waits (ms : Z) (w : World) (r : Res Step) (w' : World) : Prop :=
  r = Ok Waited ∧
  log w' = (log w ++ [SysSleep ms])%list ∧
  files w' = files (snd (tick w)) ∧
  clock w' = clock (snd (tick w)) + timer_delay ms.

(** The lock path [stop] and [acquire] resolve for an [env] option. *)
Definition lock_path_of (rt : Runtime) (process : Process)
    (env_ : option (gmap string string)) : string :=
  fst (resolveGatewayLockPath rt (default (process_env process) env_)).

(** A lock file whose text does not yield a payload. *)
Definition malformed (t : FileText) : Prop :=
  match t with
  | NotJson _ => True
  | JsonText v =>
      (∀ n, get_prop v "pid" ≠ inr (Some (JNum n))) ∨
      (∀ s, get_prop v "createdAt" ≠ inr (Some (JStr s))) ∨
      (∀ s, get_prop v "configPath" ≠ inr (Some (JStr s)))
  end.

(** [n] rounds of the grace window of [stop]: a sleep, then an existence
    test. *)
Fixpoint polls (target : number) (n : nat) : list Syscall :=
  match n with
  | O => []
  | S n' => SysSleep pollMs :: SysPidAlive target :: polls target n'
  end.

(** ** A concrete host for the examples *)

Definition epoch : string := "1970-01-01T00:00:00.000Z".
Definition epoch_plus_100s : string := "1970-01-01T00:01:40.000Z".

(** The two instants the examples use, out of [Date.parse] and
    [toISOString]. *)
Definition example_Date_parse (s : string) : number :=
  if String.eqb s epoch then Num 0
  else if String.eqb s epoch_plus_100s then Num 100000
  else NaN.

Definition example_toISOString (t : Z) : string :=
  if (t =? 100000)%Z then epoch_plus_100s else epoch.

Definition example_runtime : Runtime :=
  mkRuntime example_Date_parse example_toISOString
    (fun _ => "3f2a9c0de1b47a55d0c1e8f9a7b6c5d4e3f2a1b0")
    (fun dir name => dir ++ "/" ++ name)
    (fun _ => "/tmp/openclaw")
    (fun _ => "/home/u/.openclaw")
    (fun _ stateDir => stateDir ++ "/openclaw.json")
    "/tmp/openclaw".

Definition example_lockPath : string := "/tmp/openclaw/gateway.3f2a9c0d.lock".
Definition example_configPath : string := "/home/u/.openclaw/openclaw.json".

(** The contender: process 300 on linux, no environment override. *)
Definition contender : Process := mkProcess (Num 300) "linux" ∅.

Definition example_options : GatewayLockOptions :=
  mkOptions None (Some 200) (Some 50) None None None.

(** /proc/<pid>/stat of a process started at clock tick [ticks]. *)
Definition stat_text (ticks : string) : string :=
  "100 (node) S 1 100 100 0 -1 0 0 0 0 0 0 0 0 0 20 0 1 0 " ++ ticks ++ " 0 0".

Definition gateway_cmdline : string :=
  "node" ++ String "000" ("/opt/openclaw/dist/index.js" ++ String "000" "gateway").

(** The lock of owner 100, taken at the epoch by a process started at tick
    5000. *)
Definition owner_payload : LockPayload :=
  mkPayload (Num 100) epoch example_configPath (Some (Num 5000)).

(** The same lock, taken just now (at clock 100000). *)
Definition fresh_payload : LockPayload :=
  mkPayload (Num 100) epoch_plus_100s example_configPath (Some (Num 5000)).

Definition host (lock : option File) (table : gmap positive Proc)
    (environment : list (list EnvEvent)) : World :=
  mkWorld
    (match lock with
     | Some f => {[ example_lockPath := f ]}
     | None => ∅
     end)
    table ∅ 3 100000 environment [].

Definition old_lock : File := mkFile 1 (JSON_stringify owner_payload) 0.

(** Owner 100 runs, with the start time the lock records; the lock is 100
    seconds old. *)
Definition world_alive_stale : World :=
  host (Some old_lock)
    {[ 100%positive := mkProc (Some (stat_text "5000")) (Some gateway_cmdline) ]} [].

(** Owner 100 runs but its /proc/100/stat cannot be read. *)
Definition world_unknown_stale : World :=
  host (Some old_lock) {[ 100%positive := mkProc None (Some gateway_cmdline) ]} [].

(** Pid 100 now belongs to a process started at tick 7777. *)
Definition world_pid_reused : World :=
  host (Some old_lock)
    {[ 100%positive := mkProc (Some (stat_text "7777")) (Some gateway_cmdline) ]} [].

(** No process 100 any more. *)
Definition world_owner_dead : World := host (Some old_lock) ∅ [].

(** A lock taken just now whose file carries an old modification time; the
    owner's stat cannot be read. *)
Definition world_fresh_old_mtime : World :=
  host (Some (mkFile 1 (JSON_stringify fresh_payload) 0))
    {[ 100%positive := mkProc None (Some gateway_cmdline) ]} [].



(** A lock file that is not JSON. *)
Definition world_garbage : World :=
  host (Some (mkFile 1 (NotJson "{ pid: ") 100000)) ∅ [].

(** The holder of the lock about to release it, and an environment that
    makes the removal fail. *)
Definition held_handle : GatewayLockHandle := mkHandle example_lockPath example_configPath 3.

Definition world_held (environment : list (list EnvEvent)) : World :=
  mkWorld {[ example_lockPath := mkFile 3 (JSON_stringify owner_payload) 0 ]}
    ∅ {[ 3%nat := (example_lockPath, 3%nat) ]} 4 100000 environment [].

(** ** More vocabulary: frames, signals and sleeps *)

(** [w'] differs from [w] at most in its log, and no environment event is
    pending: the program only observed the host. *)
Definition observed (w w' : World) : Prop :=
  script w' = [] ∧ files w' = files w ∧ procs w' = procs w ∧
  fds w' = fds w ∧ fresh w' = fresh w ∧ clock w' = clock w.

(** The signals among the system calls of a log, in order. *)
Fixpoint signals (l : list Syscall) : list (number * Signal) :=
  match l with
  | [] => []
  | SysKill target sig :: rest => (target, sig) :: signals rest
  | _ :: rest => signals rest
  end.

(** The milliseconds of sleep a log asks for. *)
Fixpoint slept (l : list Syscall) : Z :=
  match l with
  | [] => 0
  | SysSleep ms :: rest => ms + slept rest
  | _ :: rest => slept rest
  end.

(** The removals among the system calls of a log. *)
Fixpoint removals (l : list Syscall) : list string :=
  match l with
  | [] => []
  | SysRm path :: rest => path :: removals rest
  | _ :: rest => removals rest
  end.

(** ** More hosts for the examples *)

Definition owner_proc : Proc := mkProc (Some (stat_text "5000")) (Some gateway_cmdline).

(** Owner 100 runs and exits just before the SIGTERM is delivered. *)
Definition world_exits_before_signal : World :=
  host (Some old_lock) {[ 100%positive := owner_proc ]} [[]; []; []; [EnvExit 100]].

(** Owner 100 runs, takes the SIGTERM and is gone at the second test of the
    grace window. *)
Definition world_exits_in_window : World :=
  host (Some old_lock) {[ 100%positive := owner_proc ]}
    [[]; []; []; []; []; []; [EnvExit 100]].

(** ** What acquire writes *)

(** The start time acquire records in its payload on a host where nobody
    else acts: on linux what [readLinuxStartTime] gives for its own pid,
    nothing elsewhere. *)
Definition recorded_start (process : Process) (platform : string) (w : World)
    : option number :=
  if String.eqb platform "linux"
  then match outcome (readLinuxStartTime (process_pid process)) w with
       | Ok (Some n) => Some n
       | _ => None
       end
  else None.

(** The payload acquire writes when it takes the lock in world [w]. *)
Definition own_payload (rt : Runtime) (process : Process) (configPath_ platform : string)
    (w : World) : LockPayload :=
  mkPayload (process_pid process) (toISOString rt (clock w)) configPath_
    (recorded_start process platform w).

(** The configuration path and the platform acquire works with for given
    options. *)
Definition config_path_of (rt : Runtime) (process : Process)
    (env_ : option (gmap string string)) : string :=
  snd (resolveGatewayLockPath rt (default (process_env process) env_)).

Definition platform_of (process : Process) (opts : GatewayLockOptions) : string :=
  default (process_platform process) (opt_platform opts).

Definition timeout_of (opts : GatewayLockOptions) : Z :=
  default DEFAULT_TIMEOUT_MS (opt_timeoutMs opts).

(** The lock is switched on for these options. *)
Definition locking_enabled (process : Process) (opts : GatewayLockOptions) : Prop :=
  locking_disabled (default (process_env process) (opt_env opts))
    (bool_decide (opt_allowInTests opts = Some true)) = false.

(** ** More string vocabulary *)

(** [parts.join(sep)] *)
Fixpoint join (sep : string) (parts : list string) : string :=
  match parts with
  | [] => EmptyString
  | [x] => x
  | x :: rest => x ++ sep ++ join sep rest
  end.

(** Every character of [s] passes [test]. *)
Fixpoint string_forall (test : ascii -> bool) (s : string) : bool :=
  match s with
  | EmptyString => true
  | String a rest => test a && string_forall test rest
  end.


Definition NUL : string := String "000" EmptyString.
Definition LF : string := String "010" EmptyString.

(** /proc/<pid>/cmdline for an argument vector: every argument followed by a
    NUL. *)
Fixpoint cmdline_text (args : list string) : string :=
  match args with
  | [] => EmptyString
  | a :: rest => a ++ NUL ++ cmdline_text rest
  end.

(** [s] has a first and a last character and neither is white space. *)
Definition solid (s : string) : Prop :=
  (∃ c r, s = String c r ∧ is_ws c = false) ∧
  (∃ c r, string_rev s = String c r ∧ is_ws c = false).

(** ASCII text: every byte is below 128.  On such text the string primitives
    of this file are those of the code; white space and letter case beyond
    ASCII (U+00A0, U+FEFF, the Zs class, non-ASCII letters) are not
    modelled, and the statements that depend on them are about ASCII
    text. *)
Definition is_ascii (a : ascii) : bool := (nat_of_ascii a <? 128)%nat.

Definition ascii_text (s : string) : bool := string_forall is_ascii s.


(** An ASCII argument as /proc shows it back unchanged: a first and a last
    character that are not white space, and no NUL inside. *)
Definition plain_arg (a : string) : Prop :=
  ascii_text a = true ∧ solid a ∧
  string_forall (fun c => negb (Ascii.eqb c "000")) a = true.

(** A writer has created the lock file on the example host and has not
    written its payload yet. *)
Definition world_half_written : World :=
  after (fs_open_wx example_lockPath) (host None ∅ []).

(** ** The identity file

    The first block of [src/agents/identity-file.ts]: [normalizeIdentityValue],
    [isIdentityPlaceholder], [parseIdentityMarkdown], [identityHasValues],
    [syncVaultRead], [isVaultAvailable], [loadIdentityFromFile] and
    [loadAgentIdentityFromWorkspace].  Strings are byte strings, as for the
    /proc files: the en dash and the em dash are their three UTF-8 bytes, and
    white space and letter case beyond ASCII are not modelled. *)

Record AgentIdentityFile := mkIdentity {
  id_name : option string;
  id_emoji : option string;
  id_theme : option string;
  id_creature : option string;
  id_vibe : option string;
  id_avatar : option string
}.

Definition no_identity : AgentIdentityFile := mkIdentity None None None None None None.

Definition IDENTITY_PLACEHOLDER_VALUES : list string :=
  ["pick something you like";
   "ai? robot? familiar? ghost in the machine? something weirder?";
   "how do you come across? sharp? warm? chaotic? calm?";
   "your signature - pick one that feels right";
   "workspace-relative path, http(s) url, or data uri"].

(** [*] or [_], the class [[*_]]. *)
Definition is_mark (a : ascii) : bool := Ascii.eqb a "*" || Ascii.eqb a "_".

Fixpoint drop_while (test : ascii -> bool) (s : string) : string :=
  match s with
  | String a rest => if test a then drop_while test rest else s
  | EmptyString => EmptyString
  end.

(** [s.replace(/^[*_]+|[*_]+$/g, "")]: the run of marks at the start and the
    run of marks at the end. *)
Definition strip_marks (s : string) : string :=
  string_rev (drop_while is_mark (string_rev (drop_while is_mark s))).

(** [s.replace(/[*_]/g, "")] *)
Fixpoint remove_marks (s : string) : string :=
  match s with
  | EmptyString => EmptyString
  | String a rest => if is_mark a then remove_marks rest else String a (remove_marks rest)
  end.

(** [s.trimEnd()] *)
Definition trimEnd (s : string) : string := string_rev (trimStart (string_rev s)).

Definition startsWith (s pre : string) : bool := String.prefix pre s.

(** [s.slice(1, -1)] *)
Definition slice_inner (s : string) : string :=
  string_rev (slice 1 (string_rev (slice 1 s))).

(** [s.replace(/[–—]/g, "-")] on UTF-8 bytes. *)
Fixpoint replace_dashes (s : string) : string :=
  match s with
  | EmptyString => EmptyString
  | String a rest =>
      match rest with
      | String b (String c rest') =>
          if Ascii.eqb a "226" && Ascii.eqb b "128" &&
             (Ascii.eqb c "147" || Ascii.eqb c "148")
          then String "-" (replace_dashes rest')
          else String a (replace_dashes rest)
      | _ => String a (replace_dashes rest)
      end
  end.

(** [s.replace(/\s+/g, " ")]; [in_run] says that the character before was
    white space, already replaced. *)
Fixpoint collapse_ws_go (in_run : bool) (s : string) : string :=
  match s with
  | EmptyString => EmptyString
  | String a rest =>
      if is_ws a
      then if in_run then collapse_ws_go true rest
           else String " " (collapse_ws_go true rest)
      else String a (collapse_ws_go false rest)
  end.

Definition collapse_ws (s : string) : string := collapse_ws_go false s.

Definition normalizeIdentityValue (value : string) : string :=
  let normalized := trim value in
  let normalized := trim (strip_marks normalized) in
  let normalized :=
    if startsWith normalized "(" && endsWith normalized ")"
    then trim (slice_inner normalized)
    else normalized in
  let normalized := collapse_ws (replace_dashes normalized) in
  toLowerCase normalized.

Definition isIdentityPlaceholder (value : string) : bool :=
  let normalized := normalizeIdentityValue value in
  existsb (String.eqb normalized) IDENTITY_PLACEHOLDER_VALUES.

(** [content.split(/\r?\n/)]; [cur] is the line being read, reversed. *)
Fixpoint split_lines_go (s : string) (cur : string) : list string :=
  match s with
  | EmptyString => [string_rev cur]
  | String a rest =>
      if Ascii.eqb a "010" then string_rev cur :: split_lines_go rest EmptyString
      else
        match rest with
        | String b rest' =>
            if Ascii.eqb a "013" && Ascii.eqb b "010"
            then string_rev cur :: split_lines_go rest' EmptyString
            else split_lines_go rest (String a cur)
        | EmptyString => split_lines_go rest (String a cur)
        end
  end.

Definition split_lines (s : string) : list string := split_lines_go s EmptyString.

(** [s.replace(/^\s*-\s*/, "")] *)
Definition strip_bullet (s : string) : string :=
  match trimStart s with
  | String a rest => if Ascii.eqb a "-" then trimStart rest else s
  | EmptyString => s
  end.

(** [s.indexOf(":")], with the two slices the parser takes at it:
    [s.slice(0, i)] and [s.slice(i + 1)]. *)
Fixpoint cut_at_colon (s : string) : option (string * string) :=
  match s with
  | EmptyString => None
  | String a rest =>
      if Ascii.eqb a ":" then Some (EmptyString, rest)
      else match cut_at_colon rest with
           | Some (before, rest') => Some (String a before, rest')
           | None => None
           end
  end.

Definition assign (identity : AgentIdentityFile) (label value : string)
    : AgentIdentityFile :=
  let identity :=
    if String.eqb label "name"
    then mkIdentity (Some value) (id_emoji identity) (id_theme identity)
           (id_creature identity) (id_vibe identity) (id_avatar identity)
    else identity in
  let identity :=
    if String.eqb label "emoji"
    then mkIdentity (id_name identity) (Some value) (id_theme identity)
           (id_creature identity) (id_vibe identity) (id_avatar identity)
    else identity in
  let identity :=
    if String.eqb label "creature"
    then mkIdentity (id_name identity) (id_emoji identity) (id_theme identity)
           (Some value) (id_vibe identity) (id_avatar identity)
    else identity in
  let identity :=
    if String.eqb label "vibe"
    then mkIdentity (id_name identity) (id_emoji identity) (id_theme identity)
           (id_creature identity) (Some value) (id_avatar identity)
    else identity in
  let identity :=
    if String.eqb label "theme"
    then mkIdentity (id_name identity) (id_emoji identity) (Some value)
           (id_creature identity) (id_vibe identity) (id_avatar identity)
    else identity in
  if String.eqb label "avatar"
  then mkIdentity (id_name identity) (id_emoji identity) (id_theme identity)
         (id_creature identity) (id_vibe identity) (Some value)
  else identity.

(** The body of the loop of [parseIdentityMarkdown], for one line. *)
Definition parse_line (identity : AgentIdentityFile) (line : string)
    : AgentIdentityFile :=
  let cleaned := strip_bullet (trim line) in
  match cut_at_colon cleaned with
  | None => identity
  | Some (before, rest) =>
      let label := toLowerCase (trim (remove_marks before)) in
      let value := trim (strip_marks rest) in
      if String.eqb value EmptyString then identity
      else if isIdentityPlaceholder value then identity
      else assign identity label value
  end.

Definition parse_lines (lines : list string) (identity : AgentIdentityFile)
    : AgentIdentityFile :=
  fold_left parse_line lines identity.

Definition parseIdentityMarkdown (content : string) : AgentIdentityFile :=
  parse_lines (split_lines content) no_identity.

(** A string is truthy when it is not empty; an absent field is not. *)
Definition truthy_field (f : option string) : bool :=
  match f with
  | Some v => negb (String.eqb v EmptyString)
  | None => false
  end.

Definition identityHasValues (identity : AgentIdentityFile) : bool :=
  truthy_field (id_name identity) || truthy_field (id_emoji identity) ||
  truthy_field (id_theme identity) || truthy_field (id_creature identity) ||
  truthy_field (id_vibe identity) || truthy_field (id_avatar identity).

(** What the identity loader sees of its host: the two globals the gateway
    registers, [curl] run through [execFileSync] ([None] when it throws,
    otherwise its standard output), and the library functions it calls. *)
Record VaultHost := mkVaultHost {
  vault_factory : bool;
  vault_baseUrl : option string;
  vault_curl : string -> option string;
  encodeURIComponent : string -> string;
  path_basename : string -> string;
  vault_path_join : string -> string -> string;
  DEFAULT_IDENTITY_FILENAME : string
}.

Definition baseUrl_truthy (h : VaultHost) : bool := truthy_field (vault_baseUrl h).

Definition vault_url (h : VaultHost) (filename : string) : string :=
  default EmptyString (vault_baseUrl h) ++
  "/raw/_workspace/" ++ encodeURIComponent h filename.

(** [lines.pop()] on the result of a split, which is never empty: the last
    line and the lines before it. *)
Definition pop (lines : list string) : string * list string :=
  (List.last lines EmptyString, removelast lines).

(** The text [curl -w "\n%{http_code}"] printed, read as the code reads it. *)
Definition read_curl_output (out : string) : option string :=
  let lines := split_char "010" (trimEnd out) in
  let '(last_line, lines) := pop lines in
  let statusLine := if String.eqb last_line EmptyString then "0" else last_line in
  let status := Number_parseInt statusLine in
  let body := join LF lines in
  if number_eqb status (Num 200) && negb (String.eqb (trim body) EmptyString)
  then Some body
  else None.

(** [inl message] is a thrown [Error]. *)
Definition syncVaultRead (h : VaultHost) (filename : string)
    : string + option string :=
  if negb (vault_factory h) then inr None
  else if negb (baseUrl_truthy h) then inr None
  else
    match vault_curl h (vault_url h filename) with
    | Some out => inr (read_curl_output out)
    | None => inl ("Vault identity read failed for " ++ filename)
    end.

Definition isVaultAvailable (h : VaultHost) : bool :=
  vault_factory h && baseUrl_truthy h.

Definition loadIdentityFromFile (h : VaultHost) (identityPath : string)
    : option AgentIdentityFile :=
  if isVaultAvailable h then
    let filename := path_basename h identityPath in
    match syncVaultRead h filename with
    | inr (Some content) =>
        if String.eqb content EmptyString then None
        else
          let parsed := parseIdentityMarkdown content in
          if negb (identityHasValues parsed) then None else Some parsed
    | inr None => None
    | inl _ => None
    end
  else None.

Definition loadAgentIdentityFromWorkspace (h : VaultHost) (workspace : string)
    : option AgentIdentityFile :=
  loadIdentityFromFile h (vault_path_join h workspace (DEFAULT_IDENTITY_FILENAME h)).

(** ** Vocabulary for the identity file *)

Definition identity_fields (identity : AgentIdentityFile) : list (option string) :=
  [id_name identity; id_emoji identity; id_theme identity;
   id_creature identity; id_vibe identity; id_avatar identity].

(** A value worth keeping: not empty, no white space around it, and not one of
    the template's placeholders. *)
Definition real_value (v : string) : bool :=
  negb (String.eqb v EmptyString) && String.eqb (trim v) v &&
  negb (isIdentityPlaceholder v).

Definition well_formed (identity : AgentIdentityFile) : bool :=
  forallb (from_option real_value true) (identity_fields identity).

(** The first and the last character of [s] exist and fail [test]; [solid]
    is [firm is_ws]. *)
Definition firm (test : ascii -> bool) (s : string) : Prop :=
  (∃ c r, s = String c r ∧ test c = false) ∧
  (∃ c r, string_rev s = String c r ∧ test c = false).

(** [later] laid over [earlier]: the fields [later] sets, and the fields of
    [earlier] elsewhere. *)
Definition overlay (earlier later : AgentIdentityFile) : AgentIdentityFile :=
  let pick (f : AgentIdentityFile -> option string) :=
    match f later with Some v => Some v | None => f earlier end in
  mkIdentity (pick id_name) (pick id_emoji) (pick id_theme)
             (pick id_creature) (pick id_vibe) (pick id_avatar).

(** A host with the vault registered, whose [curl] answers with [out]. *)
Definition vault_host (out : option string) : VaultHost :=
  mkVaultHost true (Some "http://localhost:8181") (fun _ => out)
    (fun s => s) (fun p => slice (Z.to_nat (lastIndexOf "/" p + 1)) p)
    (fun a b => a ++ "/" ++ b) "IDENTITY.md".

(** ** Further hosts for the examples *)

(** The holder of the lock: process 100 on linux. *)
Definition holder : Process := mkProcess (Num 100) "linux" ∅.

(** Process 100 runs and nobody holds the lock. *)
Definition world_running : World := host None {[ 100%positive := owner_proc ]} [].

(** Process 100 runs and holds a lock it took just now. *)
Definition world_held_fresh : World :=
  host (Some (mkFile 1 (JSON_stringify fresh_payload) 100000))
    {[ 100%positive := owner_proc ]} [].

(** The fields of a stat line after the command name: state, parent, ...,
    and the start time 98765 in the twentieth place. *)
Definition example_stat_fields : list string :=
  ["S"; "1"; "4242"; "4242"; "0"; "-1"; "4194560"; "0"; "0"; "0"; "0"; "12";
   "7"; "0"; "0"; "20"; "0"; "11"; "0"; "98765"; "0"; "0"].

(** Process 4242, whose command name holds spaces and parentheses, started
    from an argument vector that /proc shows NUL-terminated. *)
Definition example_argv : list string :=
  ["node"; "/opt/openclaw/dist/index.js"; "gateway"; "--port"; "18789"].

Definition odd_proc : Proc :=
  mkProc (Some ("4242 (tmux: server (1)" ++ ") " ++ join " " example_stat_fields ++ LF))
         (Some (cmdline_text example_argv)).

Definition world_odd_name : World := host None {[ 4242%positive := odd_proc ]} [].


(** ** Proof automation *)

(** Case analysis on the properties a parsed object is asked for. *)
Ltac split_props :=
  repeat match goal with
         | |- context [assoc ?k ?props] =>
             let E := fresh "E" in
             destruct (assoc k props) as [[]|] eqn:E; simpl
         end.

(** ** Basic facts about the world and the system calls *)

Lemma apply_event_log w e : log (apply_event w e) = log w.
Proof. destruct e; reflexivity. Qed.

Lemma fold_apply_event_log batch : ∀ w, log (fold_left apply_event batch w) = log w.
Proof.
  induction batch as [|e batch IH]; intros w; simpl; [reflexivity|].
  rewrite IH. apply apply_event_log.
Qed.

Lemma string_app_assoc (a b c : string) : (a ++ b) ++ c = a ++ (b ++ c).
Proof.
  induction a as [|x a IH]; [reflexivity|].
  change (String x ((a ++ b) ++ c) = String x (a ++ (b ++ c))). f_equal. exact IH.
Qed.

(** The environment does not write the program's log. *)
Lemma tick_log w : log (snd (tick w)) = log w.
Proof.
  unfold tick. destruct (script w) as [|batch rest]; simpl; [reflexivity|].
  rewrite fold_apply_event_log. reflexivity.
Qed.

(** With an empty script nothing happens between two system calls. *)
Lemma tick_quiet w : script w = [] → tick w = (None, w).
Proof. unfold tick. intros ->. reflexivity. Qed.

Lemma syscall_eq {A} (call : Syscall) (body : M A) w :
  syscall call body w =
  match fst (tick w) with
  | Some code => (Throw (SystemError code), record call (snd (tick w)))
  | None => body (record call (snd (tick w)))
  end.
Proof. unfold syscall. destruct (tick w) as [[code|] w1]; reflexivity. Qed.

Lemma fs_rm_force_eq path w :
  fs_rm_force path w =
  match fst (tick w) with
  | Some code => (Throw (SystemError code), record (SysRm path) (snd (tick w)))
  | None =>
      (Ok tt, set_files (delete path (files (snd (tick w)))) (record (SysRm path) (snd (tick w))))
  end.
Proof. unfold fs_rm_force. rewrite syscall_eq. reflexivity. Qed.

Lemma sleep_eq ms w :
  sleep ms w =
  (Ok tt, set_clock (clock (snd (tick w)) + timer_delay ms) (record (SysSleep ms) (snd (tick w)))).
Proof. reflexivity. Qed.

(** Removing the lock and going on is a reclaim in the sense above. *)
Lemma rm_then_continue_reclaims path w :
  reclaims path w (fst ((fs_rm_force path ;; ret Reclaimed) w))
                  (snd ((fs_rm_force path ;; ret Reclaimed) w)).
Proof.
  unfold reclaims, bind. rewrite fs_rm_force_eq.
  destruct (fst (tick w)) as [code|]; simpl; rewrite tick_log.
  - split; reflexivity.
  - split; [reflexivity|]. split; [reflexivity|]. apply lookup_delete_eq.
Qed.

Lemma sleep_then_waited_waits ms w :
  waits ms w (fst ((sleep ms ;; ret Waited) w)) (snd ((sleep ms ;; ret Waited) w)).
Proof.
  unfold waits, bind. rewrite sleep_eq. simpl. rewrite tick_log. auto.
Qed.

(** ** The probe on the example host *)

Example readLinuxStartTime_reads_the_start_time :
  outcome (readLinuxStartTime (Num 100)) world_alive_stale = Ok (Some (Num 5000)).
Proof. reflexivity. Qed.

Example readLinuxStartTime_unreadable :
  outcome (readLinuxStartTime (Num 100)) world_unknown_stale = Ok None ∧
  outcome (readLinuxStartTime (Num 100)) world_owner_dead = Ok None.
Proof. split; reflexivity. Qed.

Example isGatewayArgv_entry_point :
  isGatewayArgv (parseProcCmdline gateway_cmdline) = true ∧
  isGatewayArgv ["C:\Tools\OpenClaw"; "Gateway"] = true ∧
  isGatewayArgv ["node"; "server.js"; "gateway"] = false ∧
  isGatewayArgv ["/usr/bin/openclaw"; "status"] = false.
Proof. repeat split; reflexivity. Qed.

Example probe_without_startTime_reads_the_cmdline :
  outcome (resolveGatewayOwnerStatus (Num 100) None "linux") world_alive_stale = Ok alive ∧
  log (after (resolveGatewayOwnerStatus (Num 100) None "linux") world_alive_stale) =
    [SysPidAlive (Num 100); SysReadProc (Num 100) "cmdline"].
Proof. split; reflexivity. Qed.

Example probe_off_linux_is_the_existence_test :
  outcome (resolveGatewayOwnerStatus (Num 100) (Some owner_payload) "darwin")
    world_pid_reused = Ok alive ∧
  outcome (resolveGatewayOwnerStatus (Num 100) (Some owner_payload) "darwin")
    world_owner_dead = Ok dead.
Proof. split; reflexivity. Qed.

(** ** The contention check of [acquireGatewayLock] *)

Section ContentionCheck.

Context (rt : Runtime).
Variables (lockPath platform : string) (pollIntervalMs staleMs : Z).

(** The check is the payload read, the probe, and the decision. *)
Lemma contention_eq lastPayload ownerStatus w w1 w2 :
  readLockPayload lockPath w = (Ok lastPayload, w1) →
  probe_owner platform lastPayload w1 = (Ok ownerStatus, w2) →
  contention rt lockPath platform pollIntervalMs staleMs w =
    (res_map (Retry lastPayload)
       (fst (after_probe rt lockPath pollIntervalMs staleMs lastPayload ownerStatus w2)),
     snd (after_probe rt lockPath pollIntervalMs staleMs lastPayload ownerStatus w2)).
Proof.
  intros Hread Hprobe. unfold contention, bind. rewrite Hread, Hprobe.
  destruct (after_probe rt lockPath pollIntervalMs staleMs lastPayload ownerStatus w2)
    as [[s|e|] w3]; reflexivity.
Qed.

(** The test on [createdAt] reads the clock and nothing else. *)
Lemma stale_by_createdAt_pure lastPayload w :
  ∃ b, stale_by_createdAt rt staleMs lastPayload w = (Ok b, w).
Proof.
  unfold stale_by_createdAt. destruct lastPayload as [p|]; [|by eexists].
  destruct (string_truthy (createdAt p)); [|by eexists].
  destruct (Date_parse rt (createdAt p)); by eexists.
Qed.

Lemma stale_by_createdAt_true lastPayload w :
  stale_by_createdAt rt staleMs lastPayload w = (Ok true, w) ↔
  ∃ p created,
    lastPayload = Some p ∧ createdAt p ≠ EmptyString ∧
    Date_parse rt (createdAt p) = Num created ∧ (staleMs < clock w - created)%Z.
Proof.
  unfold stale_by_createdAt. split.
  - destruct lastPayload as [p|]; [|discriminate].
    destruct (createdAt p) as [|a s] eqn:Hc; simpl; [discriminate|].
    destruct (Date_parse rt (String a s)) as [created| |] eqn:Hp; try discriminate.
    unfold bind, Date_now, ret. intros [= Hlt].
    exists p, created. rewrite Hc. repeat split; [done|done|]. by apply Z.ltb_lt.
  - intros (p & created & -> & Hne & Hp & Hlt).
    destruct (createdAt p) as [|a s]; [done|]. simpl. rewrite Hp.
    unfold bind, Date_now, ret. f_equal. f_equal. by apply Z.ltb_lt.
Qed.

(** The test on the modification time: one stat, and a verdict that is
    [true] when the stat fails. *)
Lemma stale_by_mtime_eq w :
  stale_by_mtime lockPath staleMs w =
  (Ok match fst (tick w), files (snd (tick w)) !! lockPath with
      | None, Some f => (staleMs <? clock (snd (tick w)) - mtimeMs f)%Z
      | _, _ => true
      end,
   record (SysStat lockPath) (snd (tick w))).
Proof.
  unfold stale_by_mtime, try_catch, bind, fs_stat_mtimeMs. rewrite syscall_eq.
  destruct (fst (tick w)) as [code|]; [reflexivity|]. simpl.
  destruct (files (snd (tick w)) !! lockPath) as [f|]; reflexivity.
Qed.


(** An owner is only ever found [dead] through a payload with a truthy
    pid, so the first branch of the decision takes every [dead] owner. *)
Lemma probe_owner_dead lastPayload w w' :
  probe_owner platform lastPayload w = (Ok dead, w') →
  from_option number_truthy false (pid <$> lastPayload) = true.
Proof.
  unfold probe_owner. destruct lastPayload as [p|]; [|discriminate]. simpl.
  destruct (number_truthy (pid p)); [reflexivity|discriminate].
Qed.

Lemma after_probe_alive lastPayload w :
  after_probe rt lockPath pollIntervalMs staleMs lastPayload alive w =
    (sleep pollIntervalMs ;; ret Waited) w.
Proof. reflexivity. Qed.

Lemma after_probe_dead lastPayload w :
  from_option number_truthy false (pid <$> lastPayload) = true →
  after_probe rt lockPath pollIntervalMs staleMs lastPayload dead w =
    (fs_rm_force lockPath ;; ret Reclaimed) w.
Proof. intros H. unfold after_probe. rewrite H. reflexivity. Qed.

Lemma after_probe_unknown lastPayload w stale w1 :
  is_stale rt lockPath staleMs lastPayload w = (Ok stale, w1) →
  after_probe rt lockPath pollIntervalMs staleMs lastPayload unknown w =
    if stale then (fs_rm_force lockPath ;; ret Reclaimed) w1
    else (sleep pollIntervalMs ;; ret Waited) w1.
Proof.
  intros H. unfold after_probe. simpl. unfold bind at 1. rewrite H.
  destruct stale; reflexivity.
Qed.

(** C1 (amended).  For every contention check of acquire in which the probe
    of the owner returns [alive], acquire does not look at the age of the
    lock and does not delete the lock file, however old [createdAt] is: its
    only system call after the probe is one sleep of [pollIntervalMs], after
    which the loop retries. *)
Theorem alive_owner_is_waited_for lastPayload w w1 w2 :
  readLockPayload lockPath w = (Ok lastPayload, w1) →
  probe_owner platform lastPayload w1 = (Ok alive, w2) →
  ∃ w3,
    contention rt lockPath platform pollIntervalMs staleMs w =
      (Ok (Retry lastPayload Waited), w3) ∧
    waits pollIntervalMs w2 (Ok Waited) w3.
Proof.
  intros Hread Hprobe. eexists. split.
  - rewrite (contention_eq _ _ _ _ _ Hread Hprobe), after_probe_alive. reflexivity.
  - apply (sleep_then_waited_waits pollIntervalMs w2).
Qed.

(** C2 (amended).  For every contention check of acquire in which the probe
    of the owner returns [unknown], acquire evaluates staleness (first the
    age of [createdAt], then the modification time of the file); when the
    lock is stale it force-removes the lock file and retries at once without
    sleeping, and only when it is not stale does it sleep one
    [pollIntervalMs] and retry without touching the file. *)
Theorem unknown_owner_is_reclaimed_when_stale lastPayload w w1 w2 stale w3 :
  readLockPayload lockPath w = (Ok lastPayload, w1) →
  probe_owner platform lastPayload w1 = (Ok unknown, w2) →
  is_stale rt lockPath staleMs lastPayload w2 = (Ok stale, w3) →
  ∃ r w4,
    contention rt lockPath platform pollIntervalMs staleMs w =
      (res_map (Retry lastPayload) r, w4) ∧
    if stale then reclaims lockPath w3 r w4
    else waits pollIntervalMs w3 r w4.
Proof.
  intros Hread Hprobe Hstale.
  rewrite (contention_eq _ _ _ _ _ Hread Hprobe), (after_probe_unknown _ _ _ _ Hstale).
  destruct stale; eexists _, _; (split; [reflexivity|]).
  - apply rm_then_continue_reclaims.
  - apply sleep_then_waited_waits.
Qed.

(** C5 (amended).  In the staleness computation of acquire the age of
    [payload.createdAt] is tested first, and the modification time of the
    lock file is consulted whenever that test does not find the lock stale:
    when [createdAt] is empty, when it does not parse, and also when it
    parses to a valid timestamp whose age does not exceed [staleMs].  Only
    when [createdAt] parses and its age exceeds [staleMs] is the lock stale
    without a stat of the file. *)
Theorem mtime_consulted_unless_createdAt_stale lastPayload w :
  ∃ b, stale_by_createdAt rt staleMs lastPayload w = (Ok b, w) ∧
    (b = true ↔
       ∃ p created,
         lastPayload = Some p ∧ createdAt p ≠ EmptyString ∧
         Date_parse rt (createdAt p) = Num created ∧ (staleMs < clock w - created)%Z) ∧
    (b = true → is_stale rt lockPath staleMs lastPayload w = (Ok true, w)) ∧
    (b = false →
       ∃ stale w',
         is_stale rt lockPath staleMs lastPayload w = (Ok stale, w') ∧
         log w' = (log w ++ [SysStat lockPath])%list ∧
         stale = match fst (tick w), files (snd (tick w)) !! lockPath with
                 | None, Some f => (staleMs <? clock (snd (tick w)) - mtimeMs f)%Z
                 | _, _ => true
                 end).
Proof.
  destruct (stale_by_createdAt_pure lastPayload w) as [b Hb]. exists b.
  split; [exact Hb|]. split; [|split].
  - rewrite <- stale_by_createdAt_true. split; [intros ->; exact Hb|].
    intros H. rewrite H in Hb. congruence.
  - intros ->. unfold is_stale, bind. rewrite Hb. reflexivity.
  - intros ->. unfold is_stale, bind. rewrite Hb. simpl. rewrite stale_by_mtime_eq.
    eexists _, _. split; [reflexivity|]. simpl. rewrite tick_log. done.
Qed.


(** A process id that passes the existence test is a positive integer, hence
    truthy. *)
Lemma isPidAlive_truthy target w w1 :
  isPidAlive target w = (Ok true, w1) → number_truthy target = true.
Proof.
  unfold isPidAlive, stepped. intros [= Hex _].
  apply bool_decide_eq_true in Hex. destruct Hex as [info Hinfo].
  destruct target as [[|p|p]| |]; simpl in Hinfo; try discriminate. reflexivity.
Qed.

(** A check in which the probe returns [dead] force-removes the lock file
    as its next system call and goes on without sleeping. *)
Lemma dead_owner_is_reclaimed lastPayload w w1 w2 :
  readLockPayload lockPath w = (Ok lastPayload, w1) →
  probe_owner platform lastPayload w1 = (Ok dead, w2) →
  ∃ r w3,
    contention rt lockPath platform pollIntervalMs staleMs w =
      (res_map (Retry lastPayload) r, w3) ∧
    reclaims lockPath w2 r w3.
Proof.
  intros Hread Hprobe.
  rewrite (contention_eq _ _ _ _ _ Hread Hprobe).
  rewrite after_probe_dead by exact (probe_owner_dead _ _ _ Hprobe).
  eexists _, _. split; [reflexivity|]. apply rm_then_continue_reclaims.
Qed.

End ContentionCheck.

(** ** Reading the payload *)

(** [readLockPayload] never throws, and its only system call is the read. *)
Lemma readLockPayload_total path w :
  ∃ r, readLockPayload path w = (Ok r, record (SysReadFile path) (snd (tick w))).
Proof.
  unfold readLockPayload, try_catch, bind, fs_readFile. rewrite syscall_eq.
  destruct (fst (tick w)) as [code|]; [by eexists|]. simpl.
  destruct (files (snd (tick w)) !! path) as [f|]; [|by eexists].
  destruct (content f) as [raw|v]; [by eexists|]. simpl.
  unfold prop, ret, throw. destruct v; simpl; try (eexists; reflexivity).
  split_props; eexists; reflexivity.
Qed.

Lemma readLockPayload_unusable path w :
  (fst (tick w) ≠ None ∨
   match files (snd (tick w)) !! path with
   | None => True
   | Some f => malformed (content f)
   end) →
  readLockPayload path w = (Ok None, record (SysReadFile path) (snd (tick w))).
Proof.
  intros Hbad.
  unfold readLockPayload, try_catch, bind, fs_readFile. rewrite syscall_eq.
  destruct (fst (tick w)) as [code|]; [reflexivity|].
  destruct Hbad as [Hbad|Hbad]; [done|]. simpl.
  destruct (files (snd (tick w)) !! path) as [f|]; [|reflexivity].
  destruct (content f) as [raw|v]; [reflexivity|]. simpl in *.
  unfold prop, ret, throw. destruct v; simpl in *; try reflexivity.
  destruct Hbad as [Hbad|[Hbad|Hbad]];
    split_props; try reflexivity; exfalso; eapply Hbad; f_equal; eassumption.
Qed.

Lemma readLockPayload_usable path w f v n c cp :
  fst (tick w) = None →
  files (snd (tick w)) !! path = Some f →
  content f = JsonText v →
  get_prop v "pid" = inr (Some (JNum n)) →
  get_prop v "createdAt" = inr (Some (JStr c)) →
  get_prop v "configPath" = inr (Some (JStr cp)) →
  readLockPayload path w =
    (Ok (Some (mkPayload n c cp
                 match get_prop v "startTime" with
                 | inr (Some (JNum t)) => Some t
                 | _ => None
                 end)),
     record (SysReadFile path) (snd (tick w))).
Proof.
  intros Hfault Hfile Htext Hpid Hcreated Hconfig.
  unfold readLockPayload, try_catch, bind, fs_readFile. rewrite syscall_eq, Hfault.
  simpl. rewrite Hfile, Htext. simpl. unfold prop, ret, throw.
  rewrite Hpid. simpl. rewrite Hcreated. simpl. rewrite Hconfig. simpl.
  destruct (get_prop v "startTime") as [e|[[]|]] eqn:Hst; simpl; try reflexivity.
  destruct v; simpl in *; discriminate.
Qed.

(** A lock file this program wrote reads back as the payload it holds. *)
Lemma readLockPayload_stringify path w f p :
  fst (tick w) = None →
  files (snd (tick w)) !! path = Some f →
  content f = JSON_stringify p →
  readLockPayload path w = (Ok (Some p), record (SysReadFile path) (snd (tick w))).
Proof.
  intros Hfault Hfile Htext.
  rewrite (readLockPayload_usable path w f _ (pid p) (createdAt p) (configPath p)
             Hfault Hfile Htext); try reflexivity.
  destruct p as [n c cp [t|]]; reflexivity.
Qed.

(** ** Release and stop *)

Lemma close_ignored_eq fd w :
  try_catch (handle_close fd) (fun _ => ret tt) w =
  (Ok tt,
   match fst (tick w) with
   | Some _ => record (SysClose fd) (snd (tick w))
   | None => set_fds (delete fd (fds (snd (tick w)))) (record (SysClose fd) (snd (tick w)))
   end).
Proof.
  unfold try_catch, handle_close. rewrite syscall_eq.
  destruct (fst (tick w)); reflexivity.
Qed.

Lemma kill_ignored_eq target sig w :
  try_catch (process_kill target sig) (fun _ => ret tt) w =
  (Ok tt, record (SysKill target sig) (snd (tick w))).
Proof.
  unfold try_catch, process_kill. rewrite syscall_eq.
  destruct (fst (tick w)); [reflexivity|].
  destruct (proc_of (record (SysKill target sig) (snd (tick w))) target); reflexivity.
Qed.

(** C8 (amended).  [release] never throws on a close error or on a lock file
    that is already absent: it closes the handle, ignores what comes of it,
    and force-removes the lock file; the only error it can end with is a
    failure of that removal other than absence, which it passes on.  When it
    returns, the lock file is absent, and with nothing else acting on the
    host a second call returns too and leaves the files and the open handles
    as the first call left them. *)
Theorem release_throws_only_when_rm_fails h w :
  ∃ r w',
    release h w = (r, w') ∧
    log w' = (log w ++ [SysClose (h_fd h); SysRm (h_lockPath h)])%list ∧
    match fst (tick (after (try_catch (handle_close (h_fd h)) (fun _ => ret tt)) w)) with
    | None => r = Ok tt ∧ files w' !! h_lockPath h = None
    | Some code => r = Throw (SystemError code)
    end ∧
    (script w = [] →
     r = Ok tt ∧
     ∃ w'', release h w' = (Ok tt, w'') ∧
            files w'' = files w' ∧ fds w'' = fds w' ∧
            clock w'' = clock w' ∧ procs w'' = procs w').
Proof.
  unfold release, after. unfold bind at 1. rewrite close_ignored_eq. simpl.
  rewrite fs_rm_force_eq.
  set (wc := match fst (tick w) with
             | Some _ => record (SysClose (h_fd h)) (snd (tick w))
             | None => set_fds (delete (h_fd h) (fds (snd (tick w))))
                         (record (SysClose (h_fd h)) (snd (tick w)))
             end).
  assert (Hlog : log wc = (log w ++ [SysClose (h_fd h)])%list).
  { subst wc. destruct (fst (tick w)); simpl; by rewrite tick_log. }
  destruct (fst (tick wc)) as [code|] eqn:Hfault; simpl;
    eexists _, _; (split; [reflexivity|]); simpl;
    rewrite tick_log, Hlog, <- app_assoc; (split; [reflexivity|]); (split; [|]).
  - reflexivity.
  - intros Hquiet. exfalso.
    assert (Hwc : script wc = []) by (subst wc; rewrite (tick_quiet w Hquiet); exact Hquiet).
    rewrite (tick_quiet wc Hwc) in Hfault. discriminate.
  - split; [reflexivity|]. apply lookup_delete_eq.
  - intros Hquiet.
    assert (Hwc : wc = set_fds (delete (h_fd h) (fds w)) (record (SysClose (h_fd h)) w)).
    { subst wc. rewrite (tick_quiet w Hquiet). reflexivity. }
    rewrite Hwc, tick_quiet by (simpl; exact Hquiet). simpl.
    split; [reflexivity|].
    unfold bind. rewrite close_ignored_eq, tick_quiet by (simpl; exact Hquiet). simpl.
    rewrite fs_rm_force_eq, tick_quiet by (simpl; exact Hquiet). simpl.
    eexists. split; [reflexivity|]. simpl.
    rewrite !delete_delete_eq. done.
Qed.

Section Stop.

Context (rt : Runtime) (process : Process).
Variables (env_ : option (gmap string string)) (platform_ : option string).

(** The grace window ends without a result only after whole rounds of
    sleep-and-test that cover it. *)
Lemma stop_wait_window lockPath p fuel :
  ∀ waited w w',
    stop_wait fuel lockPath p waited w = (Ok None, w') →
    ∃ n : nat,
      log w' = (log w ++ polls (pid p) n)%list ∧
      (maxWaitMs <= waited + Z.of_nat n * pollMs)%Z ∧
      (n ≠ O → waited + (Z.of_nat n - 1) * pollMs < maxWaitMs)%Z.
Proof.
  induction fuel as [|fuel IH]; intros waited w w'; simpl;
    destruct (waited <? maxWaitMs)%Z eqn:Hlt.
  - discriminate.
  - intros [= <-]. exists O. rewrite app_nil_r. apply Z.ltb_ge in Hlt. split; [done|].
    split; [lia|done].
  - unfold bind at 1. rewrite sleep_eq. unfold bind at 1. unfold isPidAlive, stepped.
    set (w2 := record (SysPidAlive (pid p)) _).
    destruct (bool_decide (is_Some (proc_of w2 (pid p)))); simpl.
    + intros Hrest. destruct (IH _ _ _ Hrest) as (n & Hlog & Hge & Hlast).
      exists (S n). split; [|split].
      * rewrite Hlog. subst w2. simpl. rewrite !tick_log. simpl. rewrite tick_log.
        rewrite <- !app_assoc. reflexivity.
      * unfold pollMs in *. lia.
      * intros _. apply Z.ltb_lt in Hlt. unfold pollMs, maxWaitMs in *.
        destruct n as [|n]; [lia|]. specialize (Hlast ltac:(done)). lia.
    + unfold bind. rewrite fs_rm_force_eq. destruct (fst (tick w2)); discriminate.
  - intros [= <-]. exists O. rewrite app_nil_r. apply Z.ltb_ge in Hlt. split; [done|].
    split; [lia|done].
Qed.

Lemma stop_wait_thirty_rounds lockPath p w w' :
  stop_wait 30 lockPath p 0 w = (Ok None, w') →
  log w' = (log w ++ polls (pid p) 30)%list.
Proof.
  intros H. destruct (stop_wait_window _ _ _ _ _ _ H) as (n & Hlog & Hge & Hlast).
  assert (n = 30%nat) as ->; [|exact Hlog].
  unfold maxWaitMs, pollMs in *.
  destruct n as [|n]; [lia|]. specialize (Hlast ltac:(done)). lia.
Qed.

Lemma stop_escalate_eq lockPath p w :
  stop_escalate lockPath p w =
  (fs_rm_force lockPath ;; ret (mkStop stopped (Some (pid p))))
    (after (sleep 200) (after (try_catch (process_kill (pid p) SIGKILL) (fun _ => ret tt)) w)).
Proof.
  unfold stop_escalate, after. unfold bind at 1. rewrite kill_ignored_eq.
  unfold bind at 1. rewrite sleep_eq. reflexivity.
Qed.

(** C7.  For every [stop] in which the owner is read from the lock, is not
    found dead, takes the SIGTERM, and is still there at each of the thirty
    tests of the three-second grace window: stop sends SIGKILL (whatever
    comes of the delivery), sleeps 200 ms, force-removes the lock file
    whatever the state of the owner, and returns [stopped] with the owner's
    pid; the lock file is absent afterwards.  (Were the removal itself made
    to fail, its error is what stop ends with.) *)
Theorem unresponsive_owner_is_killed w p w1 st w2 w3 w4 :
  readLockPayload (lock_path_of rt process env_) w = (Ok (Some p), w1) →
  resolveGatewayOwnerStatus (pid p) (Some p)
    (default (process_platform process) platform_) w1 = (Ok st, w2) →
  st ≠ dead →
  process_kill (pid p) SIGTERM w2 = (Ok tt, w3) →
  stop_wait 30 (lock_path_of rt process env_) p 0 w3 = (Ok None, w4) →
  ∃ r w5,
    tryStopForegroundGateway rt process env_ platform_ w = (r, w5) ∧
    log w4 = (log w3 ++ polls (pid p) 30)%list ∧
    log w5 = (log w4 ++ [SysKill (pid p) SIGKILL; SysSleep 200;
                         SysRm (lock_path_of rt process env_)])%list ∧
    match fst (tick (after (sleep 200)
                 (after (try_catch (process_kill (pid p) SIGKILL) (fun _ => ret tt)) w4))) with
    | None =>
        r = Ok (mkStop stopped (Some (pid p))) ∧
        files w5 !! lock_path_of rt process env_ = None
    | Some code => r = Throw (SystemError code)
    end.
Proof.
  intros Hread Hprobe Hst Hterm Hwait.
  unfold tryStopForegroundGateway. fold (lock_path_of rt process env_).
  unfold bind at 1. rewrite Hread. unfold bind at 1. rewrite Hprobe.
  replace (is_dead st) with false by (destruct st; done).
  change (Z.to_nat (maxWaitMs / pollMs)) with 30%nat.
  set (window := stop_wait 30 (lock_path_of rt process env_) p 0) in *.
  unfold bind at 1. unfold try_catch at 1. unfold bind at 1. rewrite Hterm. simpl.
  unfold bind at 1. rewrite Hwait. rewrite stop_escalate_eq.
  set (ws := after (sleep 200) _).
  assert (Hlog : log ws = (log w4 ++ [SysKill (pid p) SIGKILL; SysSleep 200])%list).
  { subst ws. unfold after. rewrite kill_ignored_eq, sleep_eq. simpl.
    rewrite !tick_log. simpl. rewrite tick_log, <- app_assoc. reflexivity. }
  unfold bind. rewrite fs_rm_force_eq.
  destruct (fst (tick ws)); simpl;
    eexists _, _; (split; [reflexivity|]);
    (split; [exact (stop_wait_thirty_rounds _ _ _ _ Hwait)|]); simpl;
    rewrite tick_log, Hlog, <- app_assoc; simpl.
  - split; reflexivity.
  - split; [reflexivity|]. split; [reflexivity|]. apply lookup_delete_eq.
Qed.

(** C9.  [readLockPayload] returns null when the lock file is absent or
    cannot be read, when it is not JSON, and when the parsed value lacks a
    numeric [pid], a string [createdAt] or a string [configPath]; with those
    three present, a [startTime] that is not a number is dropped and the
    payload is returned without it.  So [stop] on a lock file that exists
    but is malformed returns [no-lock] without a pid, its only system call
    is the read (no signal, no removal), and the file stays where it is. *)
Theorem malformed_lock_is_no_lock w :
  ((fst (tick w) ≠ None ∨
    match files (snd (tick w)) !! lock_path_of rt process env_ with
    | None => True
    | Some f => malformed (content f)
    end) →
   readLockPayload (lock_path_of rt process env_) w =
     (Ok None, record (SysReadFile (lock_path_of rt process env_)) (snd (tick w)))) ∧
  (∀ f v n c cp,
     fst (tick w) = None →
     files (snd (tick w)) !! lock_path_of rt process env_ = Some f →
     content f = JsonText v →
     get_prop v "pid" = inr (Some (JNum n)) →
     get_prop v "createdAt" = inr (Some (JStr c)) →
     get_prop v "configPath" = inr (Some (JStr cp)) →
     readLockPayload (lock_path_of rt process env_) w =
       (Ok (Some (mkPayload n c cp
                    match get_prop v "startTime" with
                    | inr (Some (JNum t)) => Some t
                    | _ => None
                    end)),
        record (SysReadFile (lock_path_of rt process env_)) (snd (tick w)))) ∧
  (∀ f,
     files (snd (tick w)) !! lock_path_of rt process env_ = Some f →
     malformed (content f) →
     ∃ w',
       tryStopForegroundGateway rt process env_ platform_ w = (Ok (mkStop no_lock None), w') ∧
       log w' = (log w ++ [SysReadFile (lock_path_of rt process env_)])%list ∧
       files w' !! lock_path_of rt process env_ = Some f).
Proof.
  split; [apply readLockPayload_unusable|].
  split; [intros f v n c cp; apply readLockPayload_usable|].
  intros f Hfile Hbad.
  unfold tryStopForegroundGateway. fold (lock_path_of rt process env_).
  unfold bind. rewrite readLockPayload_unusable by (right; rewrite Hfile; exact Hbad).
  eexists. split; [reflexivity|]. simpl. rewrite tick_log. split; [reflexivity|exact Hfile].
Qed.

End Stop.

(** ** The acquire loop *)

Lemma readLinuxStartTime_total target w :
  ∃ r, readLinuxStartTime target w = (Ok r, record (SysReadProc target "stat") (snd (tick w))).
Proof.
  unfold readLinuxStartTime, try_catch, bind, readFileSync_proc. rewrite syscall_eq.
  destruct (fst (tick w)); [by eexists|].
  destruct (proc_of _ target) as [info|]; [|by eexists]. simpl.
  destruct (proc_stat info) as [text|]; [|by eexists].
  destruct (lastIndexOf ")" (trim text) <? 0)%Z; by eexists.
Qed.

Lemma readLinuxCmdline_total target w :
  ∃ r, readLinuxCmdline target w =
         (Ok r, record (SysReadProc target "cmdline") (snd (tick w))).
Proof.
  unfold readLinuxCmdline, try_catch, bind, readFileSync_proc. rewrite syscall_eq.
  destruct (fst (tick w)); [by eexists|].
  destruct (proc_of _ target) as [info|]; [|by eexists]. simpl.
  destruct (proc_cmdline info) as [text|]; by eexists.
Qed.

(** The probe never throws. *)
Lemma resolveGatewayOwnerStatus_total target payload platform w :
  ∃ st w', resolveGatewayOwnerStatus target payload platform w = (Ok st, w').
Proof.
  unfold resolveGatewayOwnerStatus, bind, isPidAlive, stepped.
  destruct (bool_decide _); simpl; [|by eexists _, _].
  destruct (String.eqb platform "linux"); simpl; [|by eexists _, _].
  destruct (from_option Number_isFinite false (payload ≫= startTime)).
  - destruct (readLinuxStartTime_total target
                (record (SysPidAlive target) (snd (tick w)))) as [[c|] ->];
      by eexists _, _.
  - destruct (readLinuxCmdline_total target
                (record (SysPidAlive target) (snd (tick w)))) as [[a|] ->];
      by eexists _, _.
Qed.


Section AcquireLoop.

Context (rt : Runtime) (process : Process).
Variables (lockPath configPath_ platform : string).
Variables (timeoutMs pollIntervalMs staleMs : Z).





Lemma timeout_message_pid p :
  number_truthy (pid p) = true →
  timeout_message timeoutMs (Some p) =
    "gateway already running (pid " ++ number_toString (pid p)
      ++ "); lock timeout after " ++ pretty timeoutMs ++ "ms".
Proof.
  intros Htruthy. unfold timeout_message. rewrite Htruthy.
  rewrite !string_app_assoc. reflexivity.
Qed.


End AcquireLoop.

(** ** A host on which nobody else acts *)

Section QuietHost.
Context (rt : Runtime) (process : Process).
Variables (lockPath configPath_ platform : string).
Variables (timeoutMs pollIntervalMs staleMs : Z).

Lemma try_create_quiet w :
  script w = [] →
  files w !! lockPath = None →
  ∃ st_ w',
    try_create rt process lockPath configPath_ platform w =
      (Ok (mkHandle lockPath configPath_ (fresh w)), w') ∧
    script w' = [] ∧ clock w' = clock w ∧
    log w' = (log w ++ [SysOpenWx lockPath]
              ++ (if String.eqb platform "linux"
                  then [SysReadProc (process_pid process) "stat"] else [])
              ++ [SysWriteFile (fresh w)])%list ∧
    files w' !! lockPath =
      Some (mkFile (fresh w)
              (JSON_stringify
                 (mkPayload (process_pid process) (toISOString rt (clock w)) configPath_ st_))
              (clock w)).
Proof.
  intros Hquiet Habsent.
  unfold try_create. unfold bind at 1. unfold fs_open_wx.
  rewrite syscall_eq, tick_quiet by exact Hquiet. simpl. rewrite Habsent.
  set (wo := set_fresh _ _).
  assert (Hwo : script wo = []) by exact Hquiet.
  assert (Hstart : ∃ r w1,
    (if String.eqb platform "linux" then readLinuxStartTime (process_pid process) else ret None) wo
      = (Ok r, w1) ∧ script w1 = [] ∧ clock w1 = clock w ∧ files w1 = files wo ∧
      fds w1 = fds wo ∧
      log w1 = (log wo ++ (if String.eqb platform "linux"
                  then [SysReadProc (process_pid process) "stat"] else []))%list).
  { destruct (String.eqb platform "linux").
    - destruct (readLinuxStartTime_total (process_pid process) wo) as [r Hr].
      rewrite tick_quiet in Hr by exact Hwo. eexists _, _. split; [exact Hr|]. done.
    - eexists _, _. split; [reflexivity|]. rewrite app_nil_r. done. }
  destruct Hstart as (r & w1 & Hr & Hq1 & Hc1 & Hf1 & Hd1 & Hl1).
  unfold bind at 1. rewrite Hr. unfold bind at 1. unfold Date_now at 1.
  unfold bind at 1. unfold handle_writeFile.
  rewrite syscall_eq, tick_quiet by exact Hq1. simpl.
  rewrite Hd1, Hf1. subst wo. simpl. rewrite !lookup_insert_eq. simpl.
  rewrite Nat.eqb_refl. unfold ret.
  eexists _, _. split; [reflexivity|]. simpl.
  split; [exact Hq1|]. split; [exact Hc1|]. split.
  - rewrite Hl1. simpl. rewrite <- !app_assoc. reflexivity.
  - rewrite lookup_insert_eq. rewrite Hc1. reflexivity.
Qed.

Lemma contention_dead_quiet w f p q :
  script w = [] →
  files w !! lockPath = Some f →
  content f = JSON_stringify p →
  pid p = Num (Z.pos q) →
  procs w !! q = None →
  contention rt lockPath platform pollIntervalMs staleMs w =
    (Ok (Retry (Some p) Reclaimed),
     set_files (delete lockPath (files w))
       (record (SysRm lockPath)
          (record (SysPidAlive (pid p)) (record (SysReadFile lockPath) w)))).
Proof.
  intros Hquiet Hfile Htext Hpid Hgone.
  assert (Hread : readLockPayload lockPath w = (Ok (Some p), record (SysReadFile lockPath) w)).
  { rewrite (readLockPayload_stringify lockPath w f p); rewrite ?(tick_quiet w Hquiet); done. }
  assert (Hprobe : probe_owner platform (Some p) (record (SysReadFile lockPath) w) =
            (Ok dead, record (SysPidAlive (pid p)) (record (SysReadFile lockPath) w))).
  { unfold probe_owner. rewrite Hpid. simpl.
    unfold resolveGatewayOwnerStatus, bind, isPidAlive, stepped.
    rewrite tick_quiet by exact Hquiet. simpl. rewrite Hgone.
    rewrite bool_decide_eq_false_2 by (intros [? ?]; done). reflexivity. }
  rewrite (contention_eq rt lockPath platform pollIntervalMs staleMs _ _ _ _ _ Hread Hprobe).
  rewrite after_probe_dead by (simpl; rewrite Hpid; reflexivity).
  unfold bind. rewrite fs_rm_force_eq, tick_quiet by exact Hquiet. reflexivity.
Qed.

Lemma attempt_contended w e w1 :
  try_create rt process lockPath configPath_ platform w = (Throw e, w1) →
  error_code e = Some "EEXIST" →
  attempt rt process lockPath configPath_ platform pollIntervalMs staleMs w =
    contention rt lockPath platform pollIntervalMs staleMs w1.
Proof.
  intros Hcreate Hcode. unfold attempt, try_catch, bind. rewrite Hcreate.
  rewrite bool_decide_eq_true_2 by exact Hcode. reflexivity.
Qed.

Lemma try_create_exists_quiet w f :
  script w = [] →
  files w !! lockPath = Some f →
  try_create rt process lockPath configPath_ platform w =
    (Throw (SystemError "EEXIST"), record (SysOpenWx lockPath) w).
Proof.
  intros Hquiet Hfile. unfold try_create. unfold bind at 1. unfold fs_open_wx.
  rewrite syscall_eq, tick_quiet by exact Hquiet. simpl. rewrite Hfile. reflexivity.
Qed.

(** With nobody else acting on the host, a lock whose owner is gone is taken
    over in two iterations and without a sleep. *)
Lemma acquire_loop_dead_quiet fuel w f p q :
  script w = [] →
  files w !! lockPath = Some f →
  content f = JSON_stringify p →
  pid p = Num (Z.pos q) →
  procs w !! q = None →
  (0 < timeoutMs)%Z →
  ∃ st_ w',
    acquire_loop rt process lockPath configPath_ platform timeoutMs pollIntervalMs staleMs
      (S (S fuel)) (clock w) None w =
      (Ok (Some (mkHandle lockPath configPath_ (fresh w))), w') ∧
    clock w' = clock w ∧
    log w' = (log w ++ [SysOpenWx lockPath; SysReadFile lockPath; SysPidAlive (pid p);
                        SysRm lockPath; SysOpenWx lockPath]
              ++ (if String.eqb platform "linux"
                  then [SysReadProc (process_pid process) "stat"] else [])
              ++ [SysWriteFile (fresh w)])%list ∧
    files w' !! lockPath =
      Some (mkFile (fresh w)
              (JSON_stringify
                 (mkPayload (process_pid process) (toISOString rt (clock w)) configPath_ st_))
              (clock w)).
Proof.
  intros Hquiet Hfile Htext Hpid Hgone Htimeout.
  assert (Hintime : (clock w - clock w <? timeoutMs)%Z = true) by (apply Z.ltb_lt; lia).
  cbn [acquire_loop]. unfold bind at 1. unfold Date_now at 1. rewrite Hintime.
  unfold bind at 1.
  rewrite (attempt_contended _ _ _ (try_create_exists_quiet w f Hquiet Hfile)) by reflexivity.
  rewrite (contention_dead_quiet _ f p q) by done.
  set (w2 := set_files _ _).
  unfold bind at 1. unfold Date_now at 1. change (clock w2) with (clock w). rewrite Hintime.
  destruct (try_create_quiet w2) as (st_ & w' & Hcreate & _ & Hclock & Hlog & Hnew).
  { exact Hquiet. }
  { subst w2. simpl. apply lookup_delete_eq. }
  unfold bind at 1. unfold attempt, try_catch. unfold bind at 1. rewrite Hcreate. unfold ret.
  exists st_, w'. split; [reflexivity|]. split; [exact Hclock|]. split.
  - rewrite Hlog. subst w2. simpl. rewrite <- !app_assoc. reflexivity.
  - exact Hnew.
Qed.
End QuietHost.


(** C4.  Every contention check of acquire in which the probe returns [dead]
    force-removes the lock file as its next system call and goes on without
    sleeping; so, with nobody else acting on the host, an acquire that finds
    the lock of an owner that is no longer in the process table succeeds on
    its second iteration without a single sleep and with the clock where it
    was, well within one poll interval and far from the timeout. *)
Theorem dead_owner_is_reclaimed_at_once rt process :
  (∀ lockPath platform pollIntervalMs staleMs lastPayload w w1 w2,
     readLockPayload lockPath w = (Ok lastPayload, w1) →
     probe_owner platform lastPayload w1 = (Ok dead, w2) →
     ∃ r w3,
       contention rt lockPath platform pollIntervalMs staleMs w =
         (res_map (Retry lastPayload) r, w3) ∧
       reclaims lockPath w2 r w3) ∧
  (∀ fuel opts w f p q,
     locking_disabled (default (process_env process) (opt_env opts))
       (bool_decide (opt_allowInTests opts = Some true)) = false →
     script w = [] →
     files w !! lock_path_of rt process (opt_env opts) = Some f →
     content f = JSON_stringify p →
     pid p = Num (Z.pos q) →
     procs w !! q = None →
     (0 < default DEFAULT_TIMEOUT_MS (opt_timeoutMs opts))%Z →
     ∃ h st_ w',
       acquireGatewayLock rt process (S (S fuel)) opts w = (Ok (Some h), w') ∧
       h_lockPath h = lock_path_of rt process (opt_env opts) ∧
       clock w' = clock w ∧
       log w' =
         (log w
          ++ [SysMkdir (path_dirname rt (h_lockPath h)); SysOpenWx (h_lockPath h);
              SysReadFile (h_lockPath h); SysPidAlive (pid p); SysRm (h_lockPath h);
              SysOpenWx (h_lockPath h)]
          ++ (if String.eqb (default (process_platform process) (opt_platform opts)) "linux"
              then [SysReadProc (process_pid process) "stat"] else [])
          ++ [SysWriteFile (fresh w)])%list ∧
       files w' !! h_lockPath h =
         Some (mkFile (fresh w)
                 (JSON_stringify
                    (mkPayload (process_pid process) (toISOString rt (clock w))
                       (h_configPath h) st_))
                 (clock w))).
Proof.
  split; [intros; by eapply dead_owner_is_reclaimed|].
  intros fuel opts w f p q Henabled Hquiet Hfile Htext Hpid Hgone Htimeout.
  unfold acquireGatewayLock. rewrite Henabled.
  unfold lock_path_of in *.
  destruct (resolveGatewayLockPath rt (default (process_env process) (opt_env opts)))
    as [lockPath configPath_]. simpl in Hfile.
  unfold bind at 1. unfold fs_mkdir. rewrite syscall_eq, tick_quiet by exact Hquiet.
  cbn [fst snd ret]. unfold bind at 1. unfold Date_now at 1.
  set (wm := record (SysMkdir (path_dirname rt lockPath)) w).
  destruct (acquire_loop_dead_quiet rt process lockPath configPath_
              (default (process_platform process) (opt_platform opts))
              (default DEFAULT_TIMEOUT_MS (opt_timeoutMs opts))
              (default DEFAULT_POLL_INTERVAL_MS (opt_pollIntervalMs opts))
              (default DEFAULT_STALE_MS (opt_staleMs opts))
              fuel wm f p q Hquiet Hfile Htext Hpid Hgone Htimeout)
    as (st_ & w' & Hrun & Hclock & Hlog & Hnew).
  exists (mkHandle lockPath configPath_ (fresh w)), st_, w'.
  split; [exact Hrun|]. split; [reflexivity|]. split; [exact Hclock|]. split.
  - rewrite Hlog. subst wm. simpl. rewrite <- !app_assoc. reflexivity.
  - exact Hnew.
Qed.

(** ** The theorems at work on the example host *)

Lemma alive_owner_is_waited_for_witness :
  ∃ w3,
    contention example_runtime example_lockPath "linux" 50 DEFAULT_STALE_MS world_alive_stale =
      (Ok (Retry (Some owner_payload) Waited), w3) ∧
    waits 50
      (after (probe_owner "linux" (Some owner_payload))
         (after (readLockPayload example_lockPath) world_alive_stale))
      (Ok Waited) w3.
Proof.
  apply (alive_owner_is_waited_for example_runtime example_lockPath "linux" 50
           DEFAULT_STALE_MS (Some owner_payload) world_alive_stale
           (after (readLockPayload example_lockPath) world_alive_stale)).
  - vm_compute. reflexivity.
  - vm_compute. reflexivity.
Defined.

(** The claim C1 fails here: owner 100 is alive by its start time and the
    lock is 100 seconds old against a threshold of 30, yet the check keeps
    the file and sleeps, and the acquire ends with the timeout error. *)
Lemma alive_stale_lock_is_kept_until_timeout :
  outcome (probe_owner "linux" (Some owner_payload))
    (after (readLockPayload example_lockPath) world_alive_stale) = Ok alive ∧
  outcome (stale_by_createdAt example_runtime DEFAULT_STALE_MS (Some owner_payload))
    world_alive_stale = Ok true ∧
  outcome (contention example_runtime example_lockPath "linux" 50 DEFAULT_STALE_MS)
    world_alive_stale = Ok (Retry (Some owner_payload) Waited) ∧
  log (after (contention example_runtime example_lockPath "linux" 50 DEFAULT_STALE_MS)
         world_alive_stale) =
    [SysReadFile example_lockPath; SysPidAlive (Num 100); SysReadProc (Num 100) "stat";
     SysSleep 50] ∧
  files (after (contention example_runtime example_lockPath "linux" 50 DEFAULT_STALE_MS)
           world_alive_stale) !! example_lockPath = Some old_lock ∧
  outcome (acquireGatewayLock example_runtime contender 10 example_options) world_alive_stale =
    Throw (GatewayLockError "gateway already running (pid 100); lock timeout after 200ms" None).
Proof. vm_compute. repeat split. Qed.

Lemma unknown_owner_is_reclaimed_when_stale_witness :
  ∃ r w4,
    contention example_runtime example_lockPath "linux" 50 DEFAULT_STALE_MS world_unknown_stale =
      (res_map (Retry (Some owner_payload)) r, w4) ∧
    reclaims example_lockPath
      (after (is_stale example_runtime example_lockPath DEFAULT_STALE_MS (Some owner_payload))
         (after (probe_owner "linux" (Some owner_payload))
            (after (readLockPayload example_lockPath) world_unknown_stale)))
      r w4.
Proof.
  apply (unknown_owner_is_reclaimed_when_stale example_runtime example_lockPath "linux" 50
           DEFAULT_STALE_MS (Some owner_payload) world_unknown_stale
           (after (readLockPayload example_lockPath) world_unknown_stale)
           (after (probe_owner "linux" (Some owner_payload))
              (after (readLockPayload example_lockPath) world_unknown_stale))
           true).
  - vm_compute. reflexivity.
  - vm_compute. reflexivity.
  - vm_compute. reflexivity.
Defined.

(** The claim C2 fails here: the stat of owner 100 cannot be read, the probe
    says [unknown], and the check removes the lock file at once, without a
    sleep. *)
Lemma unknown_owner_stale_lock_is_removed :
  outcome (probe_owner "linux" (Some owner_payload))
    (after (readLockPayload example_lockPath) world_unknown_stale) = Ok unknown ∧
  outcome (contention example_runtime example_lockPath "linux" 50 DEFAULT_STALE_MS)
    world_unknown_stale = Ok (Retry (Some owner_payload) Reclaimed) ∧
  log (after (contention example_runtime example_lockPath "linux" 50 DEFAULT_STALE_MS)
         world_unknown_stale) =
    [SysReadFile example_lockPath; SysPidAlive (Num 100); SysReadProc (Num 100) "stat";
     SysRm example_lockPath] ∧
  files (after (contention example_runtime example_lockPath "linux" 50 DEFAULT_STALE_MS)
           world_unknown_stale) !! example_lockPath = None.
Proof. vm_compute. repeat split. Qed.

Lemma dead_owner_is_reclaimed_at_once_witness :
  ∃ h w',
    acquireGatewayLock example_runtime contender 2 example_options world_owner_dead =
      (Ok (Some h), w') ∧
    h_lockPath h = example_lockPath ∧
    clock w' = clock world_owner_dead.
Proof.
  destruct (proj2 (dead_owner_is_reclaimed_at_once example_runtime contender)
              O example_options world_owner_dead old_lock owner_payload 100%positive)
    as (h & st_ & w' & Hrun & Hpath & Hclock & _).
  - vm_compute. reflexivity.
  - reflexivity.
  - vm_compute. reflexivity.
  - reflexivity.
  - reflexivity.
  - vm_compute. reflexivity.
  - vm_compute. reflexivity.
  - exists h, w'. split; [exact Hrun|]. split; [exact Hpath|exact Hclock].
Defined.

Lemma mtime_consulted_unless_createdAt_stale_witness :
  ∃ stale w',
    is_stale example_runtime example_lockPath DEFAULT_STALE_MS (Some fresh_payload)
      world_fresh_old_mtime = (Ok stale, w') ∧
    log w' = [SysStat example_lockPath].
Proof.
  destruct (mtime_consulted_unless_createdAt_stale example_runtime example_lockPath
              DEFAULT_STALE_MS (Some fresh_payload) world_fresh_old_mtime)
    as (b & Hb & _ & _ & Hfresh).
  assert (Hfalse : b = false).
  { vm_compute in Hb. injection Hb as Hb. symmetry. exact Hb. }
  destruct (Hfresh Hfalse) as (stale & w' & Hrun & Hlog & _).
  exists stale, w'. split; [exact Hrun|exact Hlog].
Defined.

(** The claim C5 fails here: [createdAt] parses to a valid timestamp (the
    lock was taken this very millisecond), and yet the modification time of
    the file is consulted and, being old, makes the lock stale: the file is
    removed. *)
Lemma mtime_consulted_despite_valid_createdAt :
  Date_parse example_runtime (createdAt fresh_payload) = Num (clock world_fresh_old_mtime) ∧
  outcome (stale_by_createdAt example_runtime DEFAULT_STALE_MS (Some fresh_payload))
    world_fresh_old_mtime = Ok false ∧
  outcome (is_stale example_runtime example_lockPath DEFAULT_STALE_MS (Some fresh_payload))
    world_fresh_old_mtime = Ok true ∧
  log (after (is_stale example_runtime example_lockPath DEFAULT_STALE_MS (Some fresh_payload))
         world_fresh_old_mtime) = [SysStat example_lockPath] ∧
  outcome (contention example_runtime example_lockPath "linux" 50 DEFAULT_STALE_MS)
    world_fresh_old_mtime = Ok (Retry (Some fresh_payload) Reclaimed) ∧
  log (after (contention example_runtime example_lockPath "linux" 50 DEFAULT_STALE_MS)
         world_fresh_old_mtime) =
    [SysReadFile example_lockPath; SysPidAlive (Num 100); SysReadProc (Num 100) "stat";
     SysStat example_lockPath; SysRm example_lockPath].
Proof. vm_compute. repeat split. Qed.



Lemma unresponsive_owner_is_killed_witness :
  ∃ r w5,
    tryStopForegroundGateway example_runtime contender None None world_alive_stale = (r, w5) ∧
    r = Ok (mkStop stopped (Some (Num 100))) ∧
    files w5 !! example_lockPath = None.
Proof.
  destruct (unresponsive_owner_is_killed example_runtime contender None None
              world_alive_stale owner_payload
              (after (readLockPayload example_lockPath) world_alive_stale)
              alive
              (after (resolveGatewayOwnerStatus (Num 100) (Some owner_payload) "linux")
                 (after (readLockPayload example_lockPath) world_alive_stale))
              (after (process_kill (Num 100) SIGTERM)
                 (after (resolveGatewayOwnerStatus (Num 100) (Some owner_payload) "linux")
                    (after (readLockPayload example_lockPath) world_alive_stale)))
              (after (stop_wait 30 example_lockPath owner_payload 0)
                 (after (process_kill (Num 100) SIGTERM)
                    (after (resolveGatewayOwnerStatus (Num 100) (Some owner_payload) "linux")
                       (after (readLockPayload example_lockPath) world_alive_stale)))))
    as (r & w5 & Hrun & _ & _ & Hdone).
  - vm_compute. reflexivity.
  - vm_compute. reflexivity.
  - discriminate.
  - vm_compute. reflexivity.
  - vm_compute. reflexivity.
  - exists r, w5. split; [exact Hrun|]. exact Hdone.
Defined.

Lemma release_throws_only_when_rm_fails_witness :
  ∃ r w',
    release held_handle (world_held []) = (r, w') ∧
    r = Ok tt ∧
    files w' !! example_lockPath = None ∧
    ∃ w'', release held_handle w' = (Ok tt, w'') ∧ files w'' = files w' ∧ fds w'' = fds w'.
Proof.
  destruct (release_throws_only_when_rm_fails held_handle (world_held []))
    as (r & w' & Hrun & _ & Hgone & Hagain).
  destruct (Hagain eq_refl) as (Hok & w'' & Hsecond & Hfiles & Hfds & _).
  exists r, w'. split; [exact Hrun|]. split; [exact Hok|]. split; [exact (proj2 Hgone)|].
  exists w''. split; [exact Hsecond|]. split; [exact Hfiles|exact Hfds].
Defined.

(** The claim C8 fails here: the removal of the lock file fails with EACCES
    and [release] throws that error, the lock file still in place; a close
    that fails, on the contrary, is ignored. *)
Lemma release_throws_when_rm_fails :
  outcome (release held_handle) (world_held [[]; [EnvFault "EACCES"]]) =
    Throw (SystemError "EACCES") ∧
  is_Some (files (after (release held_handle) (world_held [[]; [EnvFault "EACCES"]]))
             !! example_lockPath) ∧
  outcome (release held_handle) (world_held [[EnvFault "EIO"]]) = Ok tt.
Proof. vm_compute. repeat split. by eexists. Qed.

Lemma malformed_lock_is_no_lock_witness :
  ∃ w',
    tryStopForegroundGateway example_runtime contender None None world_garbage =
      (Ok (mkStop no_lock None), w') ∧
    log w' = [SysReadFile example_lockPath] ∧
    files w' !! example_lockPath = Some (mkFile 1 (NotJson "{ pid: ") 100000).
Proof.
  apply (proj2 (proj2 (malformed_lock_is_no_lock example_runtime contender None None
                         world_garbage))).
  - vm_compute. reflexivity.
  - exact I.
Defined.


(** ** Further properties of the lock *)

Lemma signals_app l1 l2 : signals (l1 ++ l2) = (signals l1 ++ signals l2)%list.
Proof.
  induction l1 as [|c l1 IH]; [reflexivity|]. destruct c; simpl; rewrite IH; reflexivity.
Qed.

Lemma slept_app l1 l2 : slept (l1 ++ l2) = (slept l1 + slept l2)%Z.
Proof.
  induction l1 as [|c l1 IH]; [reflexivity|]. destruct c; simpl; rewrite IH; lia.
Qed.

Lemma removals_app l1 l2 : removals (l1 ++ l2) = (removals l1 ++ removals l2)%list.
Proof.
  induction l1 as [|c l1 IH]; [reflexivity|]. destruct c; simpl; rewrite IH; reflexivity.
Qed.

Lemma signals_polls target n : signals (polls target n) = [].
Proof. induction n as [|n IH]; [reflexivity|exact IH]. Qed.

Lemma removals_polls target n : removals (polls target n) = [].
Proof. induction n as [|n IH]; [reflexivity|exact IH]. Qed.

Lemma slept_polls target n : slept (polls target n) = (Z.of_nat n * pollMs)%Z.
Proof.
  induction n as [|n IH]; [reflexivity|].
  change (slept (polls target (S n))) with (pollMs + slept (polls target n))%Z.
  rewrite IH. lia.
Qed.

(** The probe only observes: an existence test and at most one read of
    /proc, no signal, no sleep, no removal. *)
Lemma resolveGatewayOwnerStatus_log target payload platform w :
  ∃ l,
    log (after (resolveGatewayOwnerStatus target payload platform) w) = (log w ++ l)%list ∧
    signals l = [] ∧ slept l = 0%Z ∧ removals l = [].
Proof.
  unfold after, resolveGatewayOwnerStatus, bind, isPidAlive, stepped.
  remember (record (SysPidAlive target) (snd (tick w))) as w1 eqn:Ew1.
  assert (Hw1 : log w1 = (log w ++ [SysPidAlive target])%list).
  { subst w1. simpl. by rewrite tick_log. }
  clear Ew1.
  destruct (bool_decide _); cbn [negb fst snd ret];
    [|exists [SysPidAlive target]; by rewrite Hw1].
  destruct (String.eqb platform "linux"); cbn [negb fst snd ret];
    [|exists [SysPidAlive target]; by rewrite Hw1].
  destruct (from_option Number_isFinite false (payload ≫= startTime)).
  - destruct (readLinuxStartTime_total target w1) as [[c|] ->]; cbn [fst snd ret];
      exists [SysPidAlive target; SysReadProc target "stat"];
      (split; [simpl; by rewrite tick_log, Hw1, <- app_assoc|done]).
  - destruct (readLinuxCmdline_total target w1) as [[a|] ->]; cbn [fst snd ret];
      exists [SysPidAlive target; SysReadProc target "cmdline"];
      (split; [simpl; by rewrite tick_log, Hw1, <- app_assoc|done]).
Qed.

Section StopOutcomes.

Context (rt : Runtime) (process : Process).
Variables (env_ : option (gmap string string)) (platform_ : option string).

(** What a run of the grace window leaves in the log, for each way it can
    end; it runs out of fuel only when the fuel does not cover the window. *)
Lemma stop_wait_log lockPath p fuel :
  ∀ waited w r w',
    stop_wait fuel lockPath p waited w = (r, w') →
    ∃ n : nat,
      (n <= fuel)%nat ∧
      match r with
      | Ok None => log w' = (log w ++ polls (pid p) n)%list
      | Ok (Some res) =>
          log w' = (log w ++ polls (pid p) n ++ [SysRm lockPath])%list ∧
          res = mkStop stopped (Some (pid p)) ∧ files w' !! lockPath = None ∧ n ≠ O
      | Throw e =>
          log w' = (log w ++ polls (pid p) n ++ [SysRm lockPath])%list ∧
          ∃ code, e = SystemError code
      | OutOfFuel => (waited + Z.of_nat fuel * pollMs < maxWaitMs)%Z
      end.
Proof.
  induction fuel as [|fuel IH]; intros waited w r w'; simpl;
    destruct (waited <? maxWaitMs)%Z eqn:Hlt.
  - intros [= <- <-]. exists O. split; [lia|]. apply Z.ltb_lt in Hlt. lia.
  - intros [= <- <-]. exists O. split; [lia|]. simpl. by rewrite app_nil_r.
  - unfold bind at 1. rewrite sleep_eq. unfold bind at 1. unfold isPidAlive, stepped.
    remember (record (SysPidAlive (pid p)) _) as w2 eqn:Ew2.
    assert (Hw2 : log w2 = (log w ++ [SysSleep pollMs; SysPidAlive (pid p)])%list).
    { subst w2. simpl. rewrite !tick_log. simpl. rewrite tick_log, <- app_assoc. reflexivity. }
    clear Ew2.
    destruct (bool_decide (is_Some (proc_of w2 (pid p)))); simpl.
    + intros Hrest. destruct (IH _ _ _ _ Hrest) as (n & Hn & Hshape).
      exists (S n). split; [lia|].
      destruct r as [[res|]|e|]; rewrite ?Hw2 in Hshape.
      * destruct Hshape as (Hlog & Hres & Hfile & _).
        rewrite Hlog, <- !app_assoc. done.
      * rewrite Hshape, <- !app_assoc. done.
      * destruct Hshape as (Hlog & Hcode). rewrite Hlog, <- !app_assoc. done.
      * unfold pollMs in *. lia.
    + unfold bind. rewrite fs_rm_force_eq.
      destruct (fst (tick w2)) as [code|]; intros [= <- <-]; exists 1%nat;
        (split; [lia|]); simpl; rewrite tick_log, Hw2, <- !app_assoc; simpl.
      * split; [reflexivity|by eexists].
      * split; [reflexivity|]. split; [reflexivity|]. split; [apply lookup_delete_eq|done].
  - intros [= <- <-]. exists O. split; [lia|]. simpl. by rewrite app_nil_r.
Qed.

Lemma term_sent_or_not target w :
  ∃ sent,
    try_catch (process_kill target SIGTERM ;; ret true) (fun _ => ret false) w =
      (Ok sent, record (SysKill target SIGTERM) (snd (tick w))).
Proof.
  unfold try_catch, bind, process_kill. rewrite syscall_eq.
  destruct (fst (tick w)); [by exists false|].
  destruct (proc_of _ target); [by exists true|by exists false].
Qed.

Lemma process_kill_log target sig w r w' :
  process_kill target sig w = (r, w') →
  log w' = (log w ++ [SysKill target sig])%list.
Proof.
  unfold process_kill. rewrite syscall_eq.
  destruct (fst (tick w)); [intros [= _ <-]; simpl; by rewrite tick_log|].
  destruct (proc_of _ target); intros [= _ <-]; simpl; by rewrite tick_log.
Qed.

(** X1.  [stop] on a lock whose owner the probe finds dead sends no signal:
    its next system call is the force-remove of the lock file, and it
    returns [not-running] with the recorded pid, the lock path free. *)
Theorem stop_cleans_up_after_dead_owner w p w1 w2 :
  readLockPayload (lock_path_of rt process env_) w = (Ok (Some p), w1) →
  resolveGatewayOwnerStatus (pid p) (Some p)
    (default (process_platform process) platform_) w1 = (Ok dead, w2) →
  ∃ r w3,
    tryStopForegroundGateway rt process env_ platform_ w = (r, w3) ∧
    log w3 = (log w2 ++ [SysRm (lock_path_of rt process env_)])%list ∧
    match fst (tick w2) with
    | None =>
        r = Ok (mkStop not_running (Some (pid p))) ∧
        files w3 !! lock_path_of rt process env_ = None
    | Some code => r = Throw (SystemError code)
    end.
Proof.
  intros Hread Hprobe.
  unfold tryStopForegroundGateway. fold (lock_path_of rt process env_).
  unfold bind at 1. rewrite Hread. unfold bind at 1. rewrite Hprobe. simpl.
  unfold bind. rewrite fs_rm_force_eq.
  destruct (fst (tick w2)); simpl; eexists _, _; (split; [reflexivity|]); simpl;
    rewrite tick_log; (split; [reflexivity|]).
  - reflexivity.
  - split; [reflexivity|]. apply lookup_delete_eq.
Qed.

(** X2.  When the SIGTERM of [stop] cannot be delivered (the owner went away
    between the probe and the signal), stop neither waits nor escalates: its
    next system call is the force-remove of the lock file, and it returns
    [not-running] with the recorded pid. *)
Theorem stop_not_running_when_signal_fails w p w1 st w2 e w3 :
  readLockPayload (lock_path_of rt process env_) w = (Ok (Some p), w1) →
  resolveGatewayOwnerStatus (pid p) (Some p)
    (default (process_platform process) platform_) w1 = (Ok st, w2) →
  st ≠ dead →
  process_kill (pid p) SIGTERM w2 = (Throw e, w3) →
  ∃ r w4,
    tryStopForegroundGateway rt process env_ platform_ w = (r, w4) ∧
    log w4 = (log w2 ++ [SysKill (pid p) SIGTERM;
                         SysRm (lock_path_of rt process env_)])%list ∧
    match fst (tick w3) with
    | None =>
        r = Ok (mkStop not_running (Some (pid p))) ∧
        files w4 !! lock_path_of rt process env_ = None
    | Some code => r = Throw (SystemError code)
    end.
Proof.
  intros Hread Hprobe Hst Hterm.
  pose proof (process_kill_log _ _ _ _ _ Hterm) as Hw3.
  unfold tryStopForegroundGateway. fold (lock_path_of rt process env_).
  unfold bind at 1. rewrite Hread. unfold bind at 1. rewrite Hprobe.
  replace (is_dead st) with false by (destruct st; done).
  set (window := stop_wait _ _ _ _).
  unfold bind at 1. unfold try_catch at 1. unfold bind at 1. rewrite Hterm.
  cbn [ret negb]. unfold bind. rewrite fs_rm_force_eq.
  destruct (fst (tick w3)); simpl; eexists _, _; (split; [reflexivity|]); simpl;
    rewrite tick_log, Hw3, <- app_assoc; (split; [reflexivity|]).
  - reflexivity.
  - split; [reflexivity|]. apply lookup_delete_eq.
Qed.

(** X3.  When the owner takes the SIGTERM and is gone at one of the tests of
    the grace window, [stop] never sends SIGKILL: after [n] rounds of sleep
    and test, with [n] between 1 and 30, it force-removes the lock file and
    returns [stopped] with the recorded pid. *)
Theorem stop_graceful_exit_needs_no_kill w p w1 st w2 w3 res w4 :
  readLockPayload (lock_path_of rt process env_) w = (Ok (Some p), w1) →
  resolveGatewayOwnerStatus (pid p) (Some p)
    (default (process_platform process) platform_) w1 = (Ok st, w2) →
  st ≠ dead →
  process_kill (pid p) SIGTERM w2 = (Ok tt, w3) →
  stop_wait 30 (lock_path_of rt process env_) p 0 w3 = (Ok (Some res), w4) →
  tryStopForegroundGateway rt process env_ platform_ w =
    (Ok (mkStop stopped (Some (pid p))), w4) ∧
  files w4 !! lock_path_of rt process env_ = None ∧
  ∃ n : nat,
    (1 <= n <= 30)%nat ∧
    log w4 = (log w2 ++ [SysKill (pid p) SIGTERM] ++ polls (pid p) n
              ++ [SysRm (lock_path_of rt process env_)])%list.
Proof.
  intros Hread Hprobe Hst Hterm Hwait.
  pose proof (process_kill_log _ _ _ _ _ Hterm) as Hw3.
  destruct (stop_wait_log _ _ _ _ _ _ _ Hwait) as (n & Hn & Hlog & -> & Hfile & Hpos).
  split; [|split; [exact Hfile|]].
  - unfold tryStopForegroundGateway. fold (lock_path_of rt process env_).
    unfold bind at 1. rewrite Hread. unfold bind at 1. rewrite Hprobe.
    replace (is_dead st) with false by (destruct st; done).
    change (Z.to_nat (maxWaitMs / pollMs)) with 30%nat.
    set (window := stop_wait 30 (lock_path_of rt process env_) p 0) in *.
    unfold bind at 1. unfold try_catch at 1. unfold bind at 1. rewrite Hterm.
    cbn [ret negb]. unfold bind. rewrite Hwait. reflexivity.
  - exists n. split; [lia|]. rewrite Hlog, Hw3, <- !app_assoc. reflexivity.
Qed.

Lemma stop_run w lp w1 :
  readLockPayload (lock_path_of rt process env_) w = (Ok lp, w1) →
  ∃ r w' l,
    tryStopForegroundGateway rt process env_ platform_ w = (r, w') ∧
    log w' = (log w ++ l)%list ∧
    r ≠ OutOfFuel ∧
    (slept l <= 3200)%Z ∧
    (removals l = [] ∨ removals l = [lock_path_of rt process env_]) ∧
    (signals l = [] ∨
     ∃ p, lp = Some p ∧
       (signals l = [(pid p, SIGTERM)] ∨
        signals l = [(pid p, SIGTERM); (pid p, SIGKILL)])).
Proof.
  unfold tryStopForegroundGateway. fold (lock_path_of rt process env_).
  set (L := lock_path_of rt process env_).
  change (Z.to_nat (maxWaitMs / pollMs)) with 30%nat.
  intros Hread.
  assert (Hw1 : log w1 = (log w ++ [SysReadFile L])%list).
  { destruct (readLockPayload_total L w) as [lp' Hread']. rewrite Hread' in Hread.
    injection Hread as _ <-. simpl. by rewrite tick_log. }
  unfold bind at 1. rewrite Hread.
  destruct lp as [p|].
  2:{ exists (Ok (mkStop no_lock None)), w1, [SysReadFile L].
      repeat split; try done; by left. }
  destruct (resolveGatewayOwnerStatus_total (pid p) (Some p)
              (default (process_platform process) platform_) w1) as (st & w2 & Hprobe).
  destruct (resolveGatewayOwnerStatus_log (pid p) (Some p)
              (default (process_platform process) platform_) w1)
    as (l2 & Hw2 & Hsig2 & Hslept2 & Hrm2).
  unfold after in Hw2. rewrite Hprobe in Hw2. cbn [snd] in Hw2. rewrite Hw1 in Hw2.
  unfold bind at 1. rewrite Hprobe.
  (* every path ends with the force-remove of the lock *)
  assert (Hend : ∀ w0 tail (res : StopResult),
            log w0 = (log w2 ++ tail)%list →
            (slept tail <= 3200)%Z → removals tail = [] →
            (signals tail = [] ∨ signals tail = [(pid p, SIGTERM)] ∨
             signals tail = [(pid p, SIGTERM); (pid p, SIGKILL)]) →
            ∃ r w' l,
              (fs_rm_force L ;; ret res) w0 = (r, w') ∧
              log w' = (log w ++ l)%list ∧ r ≠ OutOfFuel ∧ (slept l <= 3200)%Z ∧
              (removals l = [] ∨ removals l = [L]) ∧
              (signals l = [] ∨
               ∃ p0, Some p = Some p0 ∧
                 (signals l = [(pid p0, SIGTERM)] ∨
                  signals l = [(pid p0, SIGTERM); (pid p0, SIGKILL)]))).
  { intros w0 tail res Hw0 Hslept Hrm Hsig. unfold bind. rewrite fs_rm_force_eq.
    exists (fst (match fst (tick w0) with
                 | Some code => (Throw (SystemError code), record (SysRm L) (snd (tick w0)))
                 | None => (Ok res, set_files (delete L (files (snd (tick w0))))
                                      (record (SysRm L) (snd (tick w0))))
                 end)),
           (snd (match fst (tick w0) with
                 | Some code => (Throw (SystemError code), record (SysRm L) (snd (tick w0)))
                 | None => (Ok res, set_files (delete L (files (snd (tick w0))))
                                      (record (SysRm L) (snd (tick w0))))
                 end)),
           ([SysReadFile L] ++ l2 ++ tail ++ [SysRm L])%list.
    split; [destruct (fst (tick w0)); reflexivity|].
    split; [destruct (fst (tick w0)); simpl; rewrite tick_log, Hw0, Hw2, <- !app_assoc;
            reflexivity|].
    split; [destruct (fst (tick w0)); discriminate|].
    change ([SysReadFile L] ++ l2 ++ tail ++ [SysRm L])%list
      with (SysReadFile L :: (l2 ++ tail ++ [SysRm L]))%list.
    cbn [slept removals signals].
    rewrite !slept_app, !removals_app, !signals_app, Hslept2, Hrm2, Hsig2, Hrm.
    cbn [slept removals signals app]. rewrite !app_nil_r.
    split; [lia|]. split; [by right|].
    destruct Hsig as [->|[->| ->]]; [by left|right; exists p; auto|right; exists p; auto]. }
  destruct (is_dead st).
  { destruct (Hend w2 [] (mkStop not_running (Some (pid p)))) as (r & w' & l & H);
      [by rewrite app_nil_r|done|done|by left|]. by exists r, w', l. }
  destruct (term_sent_or_not (pid p) w2) as [sent Hsent].
  remember (record (SysKill (pid p) SIGTERM) (snd (tick w2))) as w3 eqn:Ew3.
  assert (Hw3 : log w3 = (log w2 ++ [SysKill (pid p) SIGTERM])%list).
  { subst w3. simpl. by rewrite tick_log. }
  clear Ew3.
  set (window := stop_wait 30 L p 0) in *.
  unfold bind at 1. rewrite Hsent. destruct sent; cbn [negb].
  2:{ destruct (Hend w3 [SysKill (pid p) SIGTERM] (mkStop not_running (Some (pid p))))
        as (r & w' & l & H); [exact Hw3|done|done|by right; left|]. by exists r, w', l. }
  subst window.
  destruct (stop_wait 30 L p 0 w3) as [rw w4] eqn:Hwait.
  destruct (stop_wait_log _ _ _ _ _ _ _ Hwait) as (n & Hn & Hshape).
  unfold bind at 1. rewrite Hwait.
  destruct rw as [[res|]|e|].
  - destruct Hshape as (Hlog & -> & _ & _).
    exists (Ok (mkStop stopped (Some (pid p)))), w4,
      ([SysReadFile L] ++ l2 ++ [SysKill (pid p) SIGTERM] ++ polls (pid p) n ++ [SysRm L])%list.
    split; [reflexivity|]. split; [by rewrite Hlog, Hw3, Hw2, <- !app_assoc|].
    split; [discriminate|].
    change ([SysReadFile L] ++ l2 ++ [SysKill (pid p) SIGTERM] ++ polls (pid p) n
            ++ [SysRm L])%list
      with (SysReadFile L :: (l2 ++ SysKill (pid p) SIGTERM :: (polls (pid p) n
            ++ [SysRm L])))%list.
    cbn [slept removals signals].
    rewrite !slept_app, !removals_app, !signals_app, Hslept2, Hrm2, Hsig2.
    cbn [slept removals signals app].
    rewrite !slept_app, !removals_app, !signals_app, slept_polls, removals_polls, signals_polls.
    cbn [slept removals signals app]. unfold pollMs.
    split; [lia|]. split; [by right|]. right. exists p. auto.
  - rewrite stop_escalate_eq. unfold after. rewrite kill_ignored_eq, sleep_eq. cbn [snd].
    remember (set_clock _ _) as w5 eqn:Ew5.
    assert (Hw5 : log w5 = (log w2 ++ [SysKill (pid p) SIGTERM] ++ polls (pid p) n
                            ++ [SysKill (pid p) SIGKILL; SysSleep 200])%list).
    { subst w5. simpl. rewrite !tick_log. simpl. rewrite tick_log, Hshape, Hw3, <- !app_assoc.
      reflexivity. }
    clear Ew5.
    destruct (Hend w5 ([SysKill (pid p) SIGTERM] ++ polls (pid p) n
                       ++ [SysKill (pid p) SIGKILL; SysSleep 200])%list
                (mkStop stopped (Some (pid p)))) as (r & w' & l & H).
    + exact Hw5.
    + cbn [app slept]. rewrite slept_app, slept_polls. cbn [slept]. unfold pollMs. lia.
    + cbn [app removals]. rewrite removals_app, removals_polls. reflexivity.
    + right; right. cbn [app signals]. rewrite signals_app, signals_polls. reflexivity.
    + by exists r, w', l.
  - destruct Hshape as (Hlog & code & ->).
    exists (Throw (SystemError code)), w4,
      ([SysReadFile L] ++ l2 ++ [SysKill (pid p) SIGTERM] ++ polls (pid p) n ++ [SysRm L])%list.
    split; [reflexivity|]. split; [by rewrite Hlog, Hw3, Hw2, <- !app_assoc|].
    split; [discriminate|].
    change ([SysReadFile L] ++ l2 ++ [SysKill (pid p) SIGTERM] ++ polls (pid p) n
            ++ [SysRm L])%list
      with (SysReadFile L :: (l2 ++ SysKill (pid p) SIGTERM :: (polls (pid p) n
            ++ [SysRm L])))%list.
    cbn [slept removals signals].
    rewrite !slept_app, !removals_app, !signals_app, Hslept2, Hrm2, Hsig2.
    cbn [slept removals signals app].
    rewrite !slept_app, !removals_app, !signals_app, slept_polls, removals_polls, signals_polls.
    cbn [slept removals signals app]. unfold pollMs.
    split; [lia|]. split; [by right|]. right. exists p. auto.
  - unfold maxWaitMs, pollMs in Hshape. lia.
Qed.

(** X4.  Whatever the host does, a run of [stop] ends (thirty rounds always
    cover its grace window), asks for at most 3200 ms of sleep, removes at
    most the lock file, once, and signals nobody but the pid it read from
    the lock: nothing at all, or SIGTERM, or SIGTERM and then SIGKILL. *)
Theorem stop_signal_discipline w :
  ∃ l,
    log (after (tryStopForegroundGateway rt process env_ platform_) w) = (log w ++ l)%list ∧
    outcome (tryStopForegroundGateway rt process env_ platform_) w ≠ OutOfFuel ∧
    (slept l <= 3200)%Z ∧
    (removals l = [] ∨ removals l = [lock_path_of rt process env_]) ∧
    (signals l = [] ∨
     ∃ p,
       outcome (readLockPayload (lock_path_of rt process env_)) w = Ok (Some p) ∧
       (signals l = [(pid p, SIGTERM)] ∨
        signals l = [(pid p, SIGTERM); (pid p, SIGKILL)])).
Proof.
  destruct (readLockPayload_total (lock_path_of rt process env_) w) as [lp Hread].
  destruct (stop_run w lp _ Hread) as (r & w' & l & Hrun & Hlog & Hfuel & Hslept & Hrm & Hsig).
  exists l. unfold after, outcome at 1. rewrite Hrun. cbn [fst snd].
  split; [exact Hlog|]. split; [exact Hfuel|]. split; [exact Hslept|]. split; [exact Hrm|].
  destruct Hsig as [Hsig|(p & -> & Hsig)]; [by left|right]. exists p.
  split; [unfold outcome; by rewrite Hread|exact Hsig].
Qed.

End StopOutcomes.

(** ** Further properties of acquire *)

Section AcquireOutcomes.

Context (rt : Runtime) (process : Process).

Lemma acquire_loop_never_null lockPath configPath_ platform timeoutMs pollIntervalMs staleMs fuel :
  ∀ startedAt lastPayload w w',
    acquire_loop rt process lockPath configPath_ platform timeoutMs pollIntervalMs staleMs
      fuel startedAt lastPayload w ≠ (Ok None, w').
Proof.
  induction fuel as [|fuel IH]; intros startedAt lastPayload w w'; simpl; [discriminate|].
  unfold bind at 1. unfold Date_now at 1.
  destruct (clock w - startedAt <? timeoutMs)%Z; [|discriminate].
  unfold bind at 1.
  destruct (attempt rt process lockPath configPath_ platform pollIntervalMs staleMs w)
    as [[[h|lp how]|e|] w1]; try discriminate.
  apply IH.
Qed.

(** X5.  acquire returns null exactly when the lock is switched off by the
    environment (OPENCLAW_ALLOW_MULTI_GATEWAY=1, or a test run without
    [allowInTests]), and then it has made no system call at all; with the
    lock switched on, a run that ends gives a handle or an error, never
    null. *)
Theorem acquire_null_iff_disabled fuel opts w w' :
  acquireGatewayLock rt process fuel opts w = (Ok None, w') ↔
  locking_disabled (default (process_env process) (opt_env opts))
    (bool_decide (opt_allowInTests opts = Some true)) = true ∧ w' = w.
Proof.
  unfold acquireGatewayLock.
  destruct (locking_disabled _ _).
  - split; [intros [= <-]; done|intros [_ ->]; reflexivity].
  - split; [|intros [? _]; discriminate].
    destruct (resolveGatewayLockPath rt _) as [lockPath configPath_].
    unfold bind at 1. unfold fs_mkdir. rewrite syscall_eq.
    destruct (fst (tick w)); [discriminate|]. cbn [ret]. unfold bind at 1. unfold Date_now at 1.
    intros H. by apply acquire_loop_never_null in H.
Qed.

(** On a host where nobody else acts, what [readLinuxStartTime] returns
    depends on the process table alone. *)
Lemma readLinuxStartTime_quiet target w1 w2 :
  script w1 = [] → script w2 = [] → procs w1 = procs w2 →
  outcome (readLinuxStartTime target) w1 = outcome (readLinuxStartTime target) w2.
Proof.
  intros Hq1 Hq2 Hprocs.
  unfold outcome, readLinuxStartTime, try_catch, bind, readFileSync_proc.
  rewrite !syscall_eq, (tick_quiet w1 Hq1), (tick_quiet w2 Hq2). cbv beta. cbn [fst snd].
  change (proc_of (record (SysReadProc target "stat") w1) target) with (proc_of w1 target).
  change (proc_of (record (SysReadProc target "stat") w2) target) with (proc_of w2 target).
  assert (Hp : proc_of w1 target = proc_of w2 target) by (unfold proc_of; by rewrite Hprocs).
  rewrite Hp. destruct (proc_of w2 target) as [info|]; [|reflexivity]. simpl.
  destruct (proc_stat info) as [text|]; [|reflexivity].
  destruct (lastIndexOf ")" (trim text) <? 0)%Z; reflexivity.
Qed.

Lemma readLinuxStartTime_finite target w n :
  outcome (readLinuxStartTime target) w = Ok (Some n) → Number_isFinite n = true.
Proof.
  unfold outcome, readLinuxStartTime, try_catch, bind, readFileSync_proc.
  rewrite syscall_eq. destruct (fst (tick w)); [discriminate|].
  destruct (proc_of _ target) as [info|]; [|discriminate]. simpl.
  destruct (proc_stat info) as [text|]; [|discriminate].
  destruct (lastIndexOf ")" (trim text) <? 0)%Z; [discriminate|].
  cbn [ret fst]. destruct (Number_isFinite _) eqn:Hfin; [|discriminate].
  intros [= <-]. exact Hfin.
Qed.

Section QuietAcquire.

Variables (lockPath configPath_ platform : string).
Variables (timeoutMs pollIntervalMs staleMs : Z).

(** The create step on a free path of a host where nobody else acts: the
    handle, the file it leaves and what else it changes. *)
Lemma try_create_free_quiet w :
  script w = [] →
  files w !! lockPath = None →
  ∃ w',
    try_create rt process lockPath configPath_ platform w =
      (Ok (mkHandle lockPath configPath_ (fresh w)), w') ∧
    script w' = [] ∧ clock w' = clock w ∧ procs w' = procs w ∧
    fresh w' = S (fresh w) ∧
    fds w' = <[fresh w := (lockPath, fresh w)]> (fds w) ∧
    files w' =
      <[lockPath :=
          mkFile (fresh w)
            (JSON_stringify (own_payload rt process configPath_ platform w)) (clock w)]>
        (files w) ∧
    log w' = (log w ++ [SysOpenWx lockPath]
              ++ (if String.eqb platform "linux"
                  then [SysReadProc (process_pid process) "stat"] else [])
              ++ [SysWriteFile (fresh w)])%list.
Proof.
  intros Hquiet Habsent.
  unfold try_create. unfold bind at 1. unfold fs_open_wx.
  rewrite syscall_eq, tick_quiet by exact Hquiet. simpl. rewrite Habsent.
  remember (set_fresh _ _) as wo eqn:Ewo.
  assert (Hwo : script wo = [] ∧ procs wo = procs w ∧ clock wo = clock w ∧
                fds wo = <[fresh w := (lockPath, fresh w)]> (fds w) ∧
                files wo = <[lockPath := mkFile (fresh w) (NotJson EmptyString) (clock w)]>
                             (files w) ∧
                fresh wo = S (fresh w) ∧
                log wo = (log w ++ [SysOpenWx lockPath])%list).
  { subst wo. simpl. done. }
  clear Ewo. destruct Hwo as (Hqo & Hpo & Hco & Hdo & Hfo & Hno & Hlo).
  assert (Hstart : ∃ w1,
    (if String.eqb platform "linux" then readLinuxStartTime (process_pid process) else ret None) wo
      = (Ok (recorded_start process platform w), w1) ∧
      script w1 = [] ∧ clock w1 = clock wo ∧ files w1 = files wo ∧
      fds w1 = fds wo ∧ procs w1 = procs wo ∧ fresh w1 = fresh wo ∧
      log w1 = (log wo ++ (if String.eqb platform "linux"
                  then [SysReadProc (process_pid process) "stat"] else []))%list).
  { unfold recorded_start. destruct (String.eqb platform "linux").
    - rewrite (readLinuxStartTime_quiet (process_pid process) w wo Hquiet Hqo (eq_sym Hpo)).
      destruct (readLinuxStartTime_total (process_pid process) wo) as [r Hr].
      rewrite tick_quiet in Hr by exact Hqo. unfold outcome. rewrite Hr. cbn [fst].
      eexists. split; [destruct r; reflexivity|]. done.
    - eexists. split; [reflexivity|]. rewrite app_nil_r. done. }
  destruct Hstart as (w1 & Hr & Hq1 & Hc1 & Hf1 & Hd1 & Hp1 & Hn1 & Hl1).
  unfold bind at 1. rewrite Hr. unfold bind at 1. unfold Date_now at 1.
  unfold bind at 1. unfold handle_writeFile.
  rewrite syscall_eq, tick_quiet by exact Hq1. simpl.
  rewrite Hd1, Hdo, Hf1, Hfo, !lookup_insert_eq. simpl.
  rewrite Nat.eqb_refl. unfold ret.
  assert (Hfin : match recorded_start process platform w with
                 | Some n => if Number_isFinite n then Some n else None
                 | None => None
                 end = recorded_start process platform w).
  { unfold recorded_start. destruct (String.eqb platform "linux"); [|reflexivity].
    destruct (outcome (readLinuxStartTime (process_pid process)) w) as [[n|]| |] eqn:Hn;
      try reflexivity.
    by rewrite (readLinuxStartTime_finite _ _ _ Hn). }
  eexists. split; [reflexivity|]. simpl.
  split; [exact Hq1|]. split; [by rewrite ?Hc1|]. split; [by rewrite ?Hp1|].
  split; [by rewrite ?Hn1|]. split; [by rewrite ?Hd1, ?Hdo|]. split.
  - rewrite ?Hf1, ?Hfo, insert_insert_eq, ?Hc1, ?Hco. unfold own_payload. rewrite Hfin.
    reflexivity.
  - rewrite ?Hl1, ?Hlo, <- !app_assoc. reflexivity.
Qed.

(** The iteration on a free path. *)
Lemma acquire_loop_free_quiet fuel startedAt lastPayload w :
  script w = [] →
  files w !! lockPath = None →
  (clock w - startedAt < timeoutMs)%Z →
  acquire_loop rt process lockPath configPath_ platform timeoutMs pollIntervalMs staleMs
    (S fuel) startedAt lastPayload w =
    (Ok (Some (mkHandle lockPath configPath_ (fresh w))),
     after (try_create rt process lockPath configPath_ platform) w).
Proof.
  intros Hquiet Hfree Htime.
  destruct (try_create_free_quiet w Hquiet Hfree) as (w' & Hcreate & _).
  cbn [acquire_loop]. unfold bind at 1. unfold Date_now at 1.
  rewrite (proj2 (Z.ltb_lt _ _) Htime).
  unfold bind at 1. unfold attempt, try_catch. unfold bind at 1. unfold after.
  rewrite Hcreate. reflexivity.
Qed.

End QuietAcquire.

Lemma recorded_start_quiet platform w w' :
  script w = [] → script w' = [] → procs w' = procs w →
  recorded_start process platform w' = recorded_start process platform w.
Proof.
  intros Hq Hq' Hp. unfold recorded_start.
  by rewrite (readLinuxStartTime_quiet (process_pid process) w' w Hq' Hq Hp).
Qed.

(** The run of acquire on a free path of a host where nobody else acts. *)
Lemma acquire_free_quiet_run fuel opts w :
  locking_enabled process opts →
  script w = [] →
  files w !! lock_path_of rt process (opt_env opts) = None →
  (0 < timeout_of opts)%Z →
  ∃ w',
    acquireGatewayLock rt process (S fuel) opts w =
      (Ok (Some (mkHandle (lock_path_of rt process (opt_env opts))
                   (config_path_of rt process (opt_env opts)) (fresh w))), w') ∧
    script w' = [] ∧ clock w' = clock w ∧ procs w' = procs w ∧
    fds w' = <[fresh w := (lock_path_of rt process (opt_env opts), fresh w)]> (fds w) ∧
    files w' =
      <[lock_path_of rt process (opt_env opts) :=
          mkFile (fresh w)
            (JSON_stringify
               (own_payload rt process (config_path_of rt process (opt_env opts))
                  (platform_of process opts) w))
            (clock w)]> (files w) ∧
    log w' =
      (log w ++ [SysMkdir (path_dirname rt (lock_path_of rt process (opt_env opts)));
                 SysOpenWx (lock_path_of rt process (opt_env opts))]
       ++ (if String.eqb (platform_of process opts) "linux"
           then [SysReadProc (process_pid process) "stat"] else [])
       ++ [SysWriteFile (fresh w)])%list.
Proof.
  intros Henabled Hquiet Hfree Htimeout.
  unfold acquireGatewayLock, locking_enabled, lock_path_of, config_path_of, timeout_of in *.
  rewrite Henabled.
  destruct (resolveGatewayLockPath rt (default (process_env process) (opt_env opts)))
    as [lockPath configPath_]. cbn [fst snd] in *.
  unfold bind at 1. unfold fs_mkdir. rewrite syscall_eq, tick_quiet by exact Hquiet.
  cbn [fst snd ret]. unfold bind at 1. unfold Date_now at 1.
  set (wm := record (SysMkdir (path_dirname rt lockPath)) w).
  rewrite acquire_loop_free_quiet; [|exact Hquiet|exact Hfree|simpl; lia].
  destruct (try_create_free_quiet lockPath configPath_ (platform_of process opts) wm
              Hquiet Hfree)
    as (w' & Hcreate & Hq' & Hclock & Hprocs & Hfresh & Hfds & Hfiles & Hlog).
  unfold after. fold (platform_of process opts). rewrite Hcreate. cbn [snd].
  assert (Hown : own_payload rt process configPath_ (platform_of process opts) wm =
                 own_payload rt process configPath_ (platform_of process opts) w).
  { unfold own_payload. f_equal. by apply recorded_start_quiet. }
  exists w'. split; [reflexivity|].
  split; [exact Hq'|]. split; [exact Hclock|]. split; [exact Hprocs|].
  split; [exact Hfds|]. split; [by rewrite Hfiles, Hown|].
  rewrite Hlog. subst wm. simpl. rewrite <- !app_assoc. reflexivity.
Qed.

(** X6.  On a host where nobody else acts, acquire on a free lock path
    succeeds in its first iteration: it never sleeps, removes nothing,
    touches no other file, and leaves its handle open on a lock file that
    [readLockPayload] reads back as its own payload (its pid, the ISO time
    of the clock, the configuration path, and on linux its own start
    time).  The pid of a process is a finite number, which [JSON.stringify]
    needs to write it as such. *)
Theorem acquire_takes_free_lock fuel opts w :
  locking_enabled process opts →
  Number_isFinite (process_pid process) = true →
  script w = [] →
  files w !! lock_path_of rt process (opt_env opts) = None →
  (0 < timeout_of opts)%Z →
  ∃ h w',
    acquireGatewayLock rt process (S fuel) opts w = (Ok (Some h), w') ∧
    h = mkHandle (lock_path_of rt process (opt_env opts))
          (config_path_of rt process (opt_env opts)) (fresh w) ∧
    clock w' = clock w ∧
    slept (log w') = slept (log w) ∧ removals (log w') = removals (log w) ∧
    fds w' !! h_fd h = Some (h_lockPath h, h_fd h) ∧
    (∀ path, path ≠ h_lockPath h → files w' !! path = files w !! path) ∧
    outcome (readLockPayload (h_lockPath h)) w' =
      Ok (Some (own_payload rt process (h_configPath h) (platform_of process opts) w)).
Proof.
  intros Henabled Hfinite Hquiet Hfree Htimeout.
  destruct (acquire_free_quiet_run fuel opts w Henabled Hquiet Hfree Htimeout)
    as (w' & Hrun & Hq' & Hclock & Hprocs & Hfds & Hfiles & Hlog).
  eexists _, w'. split; [exact Hrun|]. split; [reflexivity|]. split; [exact Hclock|].
  split; [|split; [|split; [|split]]].
  - rewrite Hlog, !slept_app.
    destruct (String.eqb (platform_of process opts) "linux"); simpl; lia.
  - rewrite Hlog, !removals_app.
    destruct (String.eqb (platform_of process opts) "linux"); simpl; by rewrite !app_nil_r.
  - simpl. rewrite Hfds. apply lookup_insert_eq.
  - intros path Hne. rewrite Hfiles. simpl. by apply lookup_insert_ne.
  - simpl. unfold outcome.
    rewrite (readLockPayload_stringify _ w'
               (mkFile (fresh w)
                  (JSON_stringify
                     (own_payload rt process (config_path_of rt process (opt_env opts))
                        (platform_of process opts) w))
                  (clock w))
               (own_payload rt process (config_path_of rt process (opt_env opts))
                  (platform_of process opts) w)).
    + reflexivity.
    + by rewrite tick_quiet.
    + rewrite tick_quiet by exact Hq'. cbn [snd]. rewrite Hfiles. apply lookup_insert_eq.
    + reflexivity.
Qed.

(** The run of [release] on a host where nobody else acts. *)
Lemma release_quiet_run h w :
  script w = [] →
  ∃ w1,
    release h w = (Ok tt, w1) ∧
    script w1 = [] ∧ clock w1 = clock w ∧ procs w1 = procs w ∧
    files w1 = delete (h_lockPath h) (files w) ∧
    fds w1 = delete (h_fd h) (fds w) ∧
    log w1 = (log w ++ [SysClose (h_fd h); SysRm (h_lockPath h)])%list.
Proof.
  intros Hquiet.
  unfold release. unfold bind at 1. rewrite close_ignored_eq, tick_quiet by exact Hquiet.
  cbn [fst snd]. rewrite fs_rm_force_eq, tick_quiet by exact Hquiet. cbn [fst snd].
  eexists. split; [reflexivity|]. simpl. rewrite <- app_assoc. done.
Qed.

(** X7.  On a host where nobody else acts, [release] followed by an acquire
    of the same lock path succeeds at once: the release closes the handle
    and frees the path, and the acquire takes the lock in its first
    iteration, without a sleep and with the clock where it was. *)
Theorem release_then_acquire_succeeds_at_once h fuel opts w :
  locking_enabled process opts →
  script w = [] →
  h_lockPath h = lock_path_of rt process (opt_env opts) →
  (0 < timeout_of opts)%Z →
  ∃ w1 h' w2,
    release h w = (Ok tt, w1) ∧
    files w1 !! h_lockPath h = None ∧ fds w1 !! h_fd h = None ∧
    acquireGatewayLock rt process (S fuel) opts w1 = (Ok (Some h'), w2) ∧
    h_lockPath h' = h_lockPath h ∧
    clock w2 = clock w ∧ slept (log w2) = slept (log w) ∧
    is_Some (files w2 !! h_lockPath h).
Proof.
  intros Henabled Hquiet Hpath Htimeout.
  destruct (release_quiet_run h w Hquiet)
    as (w1 & Hrelease & Hq1 & Hc1 & Hp1 & Hf1 & Hd1 & Hl1).
  assert (Hfree : files w1 !! lock_path_of rt process (opt_env opts) = None).
  { rewrite Hf1, <- Hpath. apply lookup_delete_eq. }
  destruct (acquire_free_quiet_run fuel opts w1 Henabled Hq1 Hfree Htimeout)
    as (w2 & Hrun & Hq2 & Hc2 & Hp2 & Hd2 & Hf2 & Hl2).
  exists w1, (mkHandle (lock_path_of rt process (opt_env opts))
                (config_path_of rt process (opt_env opts)) (fresh w1)), w2.
  split; [exact Hrelease|]. split; [by rewrite Hpath|].
  split; [rewrite Hd1; apply lookup_delete_eq|].
  split; [exact Hrun|]. split; [by rewrite Hpath|]. split; [by rewrite Hc2|]. split.
  - rewrite Hl2, Hl1, !slept_app.
    destruct (String.eqb (platform_of process opts) "linux"); simpl; lia.
  - rewrite Hf2, Hpath, lookup_insert_eq. by eexists.
Qed.

Lemma timer_delay_pos ms : (1 <= timer_delay ms)%Z.
Proof.
  unfold timer_delay. destruct (ms <? 1)%Z eqn:Hlow; simpl; [lia|].
  apply Z.ltb_ge in Hlow. destruct (2147483647 <? ms)%Z; lia.
Qed.

(** On a host where nobody else acts the probe changes nothing but the
    log. *)
Lemma resolveGatewayOwnerStatus_observes target payload platform w :
  script w = [] →
  observed w (after (resolveGatewayOwnerStatus target payload platform) w).
Proof.
  intros Hquiet.
  unfold after, resolveGatewayOwnerStatus, bind, isPidAlive, stepped.
  rewrite tick_quiet by exact Hquiet. cbn [snd].
  set (w1 := record (SysPidAlive target) w).
  assert (Hq1 : script w1 = []) by exact Hquiet.
  destruct (bool_decide _); cbn [negb ret snd]; [|by repeat split].
  destruct (String.eqb platform "linux"); cbn [negb ret snd]; [|by repeat split].
  destruct (from_option Number_isFinite false (payload ≫= startTime)).
  - destruct (readLinuxStartTime_total target w1) as [[c|] ->];
      rewrite tick_quiet by exact Hq1; by repeat split.
  - destruct (readLinuxCmdline_total target w1) as [[a|] ->];
      rewrite tick_quiet by exact Hq1; by repeat split.
Qed.

Section HeldLock.

Variables (lockPath configPath_ platform : string).
Variables (timeoutMs pollIntervalMs staleMs : Z).
Variables (f : File) (p : LockPayload).

Hypothesis Htext : content f = JSON_stringify p.
Hypothesis Htruthy : number_truthy (pid p) = true.

(** One iteration against a lock whose owner the probe finds alive: a
    sleep, and nothing else changes. *)
Lemma attempt_waits_quiet w :
  script w = [] →
  files w !! lockPath = Some f →
  outcome (resolveGatewayOwnerStatus (pid p) (Some p) platform)
    (record (SysReadFile lockPath) (record (SysOpenWx lockPath) w)) = Ok alive →
  ∃ w',
    attempt rt process lockPath configPath_ platform pollIntervalMs staleMs w =
      (Ok (Retry (Some p) Waited), w') ∧
    script w' = [] ∧ files w' = files w ∧ procs w' = procs w ∧
    clock w' = (clock w + timer_delay pollIntervalMs)%Z ∧
    removals (log w') = removals (log w).
Proof.
  intros Hquiet Hfile Halive.
  rewrite (attempt_contended rt process lockPath configPath_ platform pollIntervalMs staleMs
             _ _ _ (try_create_exists_quiet rt process lockPath configPath_ platform
                      w f Hquiet Hfile)) by reflexivity.
  set (wo := record (SysOpenWx lockPath) w) in *.
  assert (Hqo : script wo = []) by exact Hquiet.
  assert (Hread : readLockPayload lockPath wo = (Ok (Some p), record (SysReadFile lockPath) wo)).
  { rewrite (readLockPayload_stringify lockPath wo f p); rewrite ?(tick_quiet wo Hqo); done. }
  set (wr := record (SysReadFile lockPath) wo) in *.
  assert (Hqr : script wr = []) by exact Hquiet.
  pose proof (resolveGatewayOwnerStatus_observes (pid p) (Some p) platform wr Hqr)
    as (Hqp & Hfp & Hpp & _ & _ & Hcp).
  destruct (resolveGatewayOwnerStatus_log (pid p) (Some p) platform wr)
    as (l2 & Hlp & _ & _ & Hrm2).
  set (wp := after (resolveGatewayOwnerStatus (pid p) (Some p) platform) wr) in *.
  assert (Hprobe : probe_owner platform (Some p) wr = (Ok alive, wp)).
  { unfold probe_owner. rewrite Htruthy. unfold outcome in Halive. subst wp. unfold after.
    destruct (resolveGatewayOwnerStatus (pid p) (Some p) platform wr) as [r w0].
    cbn [fst snd] in *. by rewrite Halive. }
  rewrite (contention_eq rt lockPath platform pollIntervalMs staleMs _ _ _ _ _ Hread Hprobe).
  rewrite after_probe_alive. unfold bind. rewrite sleep_eq, tick_quiet by exact Hqp.
  cbn [fst snd res_map ret].
  eexists. split; [reflexivity|]. simpl.
  split; [exact Hqp|]. split; [by rewrite Hfp|]. split; [by rewrite Hpp|].
  split; [by rewrite Hcp|].
  rewrite Hlp. subst wr wo. simpl. rewrite !removals_app, Hrm2. simpl.
  by rewrite !app_nil_r.
Qed.

(** Against a lock whose owner stays alive the loop sleeps until the
    deadline and ends with the timeout error; [n] iterations are enough
    when the time left is at most [n] ms. *)
Lemma acquire_loop_waits_quiet startedAt (n : nat) :
  ∀ w lastPayload,
    script w = [] →
    files w !! lockPath = Some f →
    (∀ w', script w' = [] → procs w' = procs w →
           outcome (resolveGatewayOwnerStatus (pid p) (Some p) platform) w' = Ok alive) →
    (timeoutMs - (clock w - startedAt) <= Z.of_nat n)%Z →
    lastPayload = Some p ∨ (clock w - startedAt < timeoutMs)%Z →
    ∃ w',
      acquire_loop rt process lockPath configPath_ platform timeoutMs pollIntervalMs staleMs
        (S n) startedAt lastPayload w =
        (Throw (GatewayLockError (timeout_message timeoutMs (Some p)) None), w') ∧
      files w' = files w ∧ procs w' = procs w ∧
      (timeoutMs <= clock w' - startedAt)%Z ∧
      removals (log w') = removals (log w).
Proof.
  induction n as [|n IH]; intros w lastPayload Hquiet Hfile Halive Hleft Hlast;
    cbn [acquire_loop]; unfold bind at 1; unfold Date_now at 1;
    destruct (clock w - startedAt <? timeoutMs)%Z eqn:Htime.
  - apply Z.ltb_lt in Htime. lia.
  - apply Z.ltb_ge in Htime. destruct Hlast as [->|?]; [|lia].
    eexists. split; [reflexivity|]. repeat split; try done; lia.
  - apply Z.ltb_lt in Htime.
    destruct (attempt_waits_quiet w Hquiet Hfile) as (w1 & Hattempt & Hq1 & Hf1 & Hp1 & Hc1 & Hr1).
    { apply Halive; [exact Hquiet|reflexivity]. }
    unfold bind at 1. rewrite Hattempt.
    destruct (IH w1 (Some p)) as (w' & Hrun & Hf' & Hp' & Hc' & Hr').
    + exact Hq1.
    + by rewrite Hf1.
    + intros w0 Hq0 Hp0. apply Halive; [exact Hq0|by rewrite Hp0].
    + rewrite Hc1. pose proof (timer_delay_pos pollIntervalMs). lia.
    + by left.
    + exists w'. split; [exact Hrun|]. split; [by rewrite Hf'|]. split; [by rewrite Hp'|].
      split; [exact Hc'|]. by rewrite Hr'.
  - apply Z.ltb_ge in Htime. destruct Hlast as [->|?]; [|lia].
    eexists. split; [reflexivity|]. repeat split; try done; lia.
Qed.

End HeldLock.

(** The run of acquire against a lock whose owner stays alive, on a host
    where nobody else acts. *)
Lemma acquire_held_quiet_run fuel opts w f p :
  locking_enabled process opts →
  script w = [] →
  files w !! lock_path_of rt process (opt_env opts) = Some f →
  content f = JSON_stringify p →
  number_truthy (pid p) = true →
  (∀ w', script w' = [] → procs w' = procs w →
         outcome (resolveGatewayOwnerStatus (pid p) (Some p) (platform_of process opts)) w'
         = Ok alive) →
  (0 < timeout_of opts)%Z →
  (Z.to_nat (timeout_of opts) < fuel)%nat →
  ∃ w',
    acquireGatewayLock rt process fuel opts w =
      (Throw (GatewayLockError (timeout_message (timeout_of opts) (Some p)) None), w') ∧
    files w' = files w ∧ procs w' = procs w ∧
    (timeout_of opts <= clock w' - clock w)%Z ∧
    removals (log w') = removals (log w).
Proof.
  intros Henabled Hquiet Hfile Htext Htruthy Halive Htimeout Hfuel.
  unfold acquireGatewayLock, locking_enabled, lock_path_of, timeout_of, platform_of in *.
  rewrite Henabled.
  destruct (resolveGatewayLockPath rt (default (process_env process) (opt_env opts)))
    as [lockPath configPath_]. cbn [fst snd] in *.
  unfold bind at 1. unfold fs_mkdir. rewrite syscall_eq, tick_quiet by exact Hquiet.
  cbn [fst snd ret]. unfold bind at 1. unfold Date_now at 1.
  set (wm := record (SysMkdir (path_dirname rt lockPath)) w).
  destruct fuel as [|n]; [lia|].
  destruct (acquire_loop_waits_quiet lockPath configPath_
              (default (process_platform process) (opt_platform opts))
              (default DEFAULT_TIMEOUT_MS (opt_timeoutMs opts))
              (default DEFAULT_POLL_INTERVAL_MS (opt_pollIntervalMs opts))
              (default DEFAULT_STALE_MS (opt_staleMs opts))
              f p Htext Htruthy (clock wm) n wm None)
    as (w' & Hrun & Hf' & Hp' & Hc' & Hr').
  - exact Hquiet.
  - exact Hfile.
  - exact Halive.
  - simpl. lia.
  - right. simpl. lia.
  - exists w'. split; [exact Hrun|]. split; [exact Hf'|]. split; [exact Hp'|].
    split; [exact Hc'|]. rewrite Hr'. subst wm. simpl. rewrite removals_app. simpl.
    by rewrite app_nil_r.
Qed.

(** X8.  On a host where nobody else acts, acquire against a lock whose
    owner the probe keeps finding alive never removes the lock file: it
    sleeps from poll to poll until the timeout has gone by and ends, for
    any fuel above the timeout in milliseconds, with the timeout error,
    whose message names the owner's pid. *)
Theorem acquire_times_out_on_held_lock fuel opts w f p :
  locking_enabled process opts →
  script w = [] →
  files w !! lock_path_of rt process (opt_env opts) = Some f →
  content f = JSON_stringify p →
  number_truthy (pid p) = true →
  (∀ w', script w' = [] → procs w' = procs w →
         outcome (resolveGatewayOwnerStatus (pid p) (Some p) (platform_of process opts)) w'
         = Ok alive) →
  (0 < timeout_of opts)%Z →
  (Z.to_nat (timeout_of opts) < fuel)%nat →
  ∃ w',
    acquireGatewayLock rt process fuel opts w =
      (Throw (GatewayLockError
                ("gateway already running (pid " ++ number_toString (pid p)
                   ++ "); lock timeout after " ++ pretty (timeout_of opts) ++ "ms")
                None), w') ∧
    files w' !! lock_path_of rt process (opt_env opts) = Some f ∧
    (timeout_of opts <= clock w' - clock w)%Z ∧
    removals (log w') = removals (log w).
Proof.
  intros Henabled Hquiet Hfile Htext Htruthy Halive Htimeout Hfuel.
  destruct (acquire_held_quiet_run fuel opts w f p Henabled Hquiet Hfile Htext Htruthy
              Halive Htimeout Hfuel) as (w' & Hrun & Hf' & _ & Hc' & Hr').
  exists w'. rewrite <- (timeout_message_pid _ _ Htruthy).
  split; [exact Hrun|]. split; [by rewrite Hf'|]. split; [exact Hc'|exact Hr'].
Qed.

(** A process that is in the process table is found alive by the probe of
    the payload it wrote, as long as the process table stays as it is; on
    linux this needs the start time it recorded. *)
Lemma holder_probes_alive configPath_ platform w a info :
  script w = [] →
  process_pid process = Num (Z.pos a) →
  procs w !! a = Some info →
  (platform = "linux" → is_Some (recorded_start process platform w)) →
  ∀ w', script w' = [] → procs w' = procs w →
    outcome (resolveGatewayOwnerStatus (process_pid process)
               (Some (own_payload rt process configPath_ platform w)) platform) w'
    = Ok alive.
Proof.
  intros Hquiet Hpid Hinfo Hstart w' Hq' Hp'.
  unfold outcome, resolveGatewayOwnerStatus, bind, isPidAlive, stepped.
  rewrite tick_quiet by exact Hq'. cbn [fst snd].
  set (w1 := record (SysPidAlive (process_pid process)) w').
  assert (Hq1 : script w1 = []) by exact Hq'.
  assert (Hp1 : procs w1 = procs w) by exact Hp'.
  assert (Hex : bool_decide (is_Some (proc_of w1 (process_pid process))) = true).
  { apply bool_decide_eq_true. rewrite Hpid. simpl. rewrite Hp'. by eexists. }
  rewrite Hex. cbn [negb].
  destruct (String.eqb platform "linux") eqn:Hlinux; cbn [negb]; [|reflexivity].
  apply String.eqb_eq in Hlinux. destruct (Hstart Hlinux) as [s Hs].
  unfold own_payload. cbn [mbind option_bind startTime]. rewrite Hs.
  assert (Hout : outcome (readLinuxStartTime (process_pid process)) w = Ok (Some s)).
  { revert Hs. unfold recorded_start. rewrite Hlinux.
    change (String.eqb "linux" "linux") with true. cbv iota.
    destruct (outcome (readLinuxStartTime (process_pid process)) w) as [[n|]| |];
      try discriminate. by intros [= ->]. }
  pose proof (readLinuxStartTime_finite _ _ _ Hout) as Hfin.
  cbn [from_option]. rewrite Hfin.
  rewrite <- (readLinuxStartTime_quiet (process_pid process) w1 w Hq1 Hquiet Hp1) in Hout.
  unfold outcome in Hout.
  destruct (readLinuxStartTime (process_pid process) w1) as [r w2]. cbn [fst] in Hout.
  rewrite Hout. cbn [fst ret].
  destruct s as [z| |]; try discriminate. simpl. by rewrite Z.eqb_refl.
Qed.

End AcquireOutcomes.

(** X9.  Two instances on a host where nobody else acts, both working with
    the same platform and the same lock path: the first takes the free lock
    at once.  Provided the first is in the process table and, when the
    platform is linux, could read its own start time from /proc and so
    recorded it in the lock, the second never removes the lock file and
    ends with the timeout error naming the pid of the first, whose lock file
    is left as it wrote it.  (Without a recorded start time the probe on
    linux goes by the command line of the first instead, which this
    statement does not cover.) *)
Theorem second_instance_times_out rt holder contender fuel fuel' opts opts' w a info :
  locking_enabled holder opts →
  locking_enabled contender opts' →
  script w = [] →
  files w !! lock_path_of rt holder (opt_env opts) = None →
  process_pid holder = Num (Z.pos a) →
  procs w !! a = Some info →
  (platform_of holder opts = "linux" →
   is_Some (recorded_start holder (platform_of holder opts) w)) →
  lock_path_of rt contender (opt_env opts') = lock_path_of rt holder (opt_env opts) →
  platform_of contender opts' = platform_of holder opts →
  (0 < timeout_of opts)%Z →
  (0 < timeout_of opts')%Z →
  (Z.to_nat (timeout_of opts') < fuel')%nat →
  ∃ h w1 w2,
    acquireGatewayLock rt holder (S fuel) opts w = (Ok (Some h), w1) ∧
    acquireGatewayLock rt contender fuel' opts' w1 =
      (Throw (GatewayLockError
                ("gateway already running (pid " ++ pretty (Z.pos a)
                   ++ "); lock timeout after " ++ pretty (timeout_of opts') ++ "ms")
                None), w2) ∧
    files w2 = files w1 ∧
    removals (log w2) = removals (log w) ∧
    (timeout_of opts' <= clock w2 - clock w)%Z.
Proof.
  intros Henabled Henabled' Hquiet Hfree Hpid Hinfo Hstart Hpath Hplatform Htimeout
    Htimeout' Hfuel.
  destruct (acquire_free_quiet_run rt holder fuel opts w Henabled Hquiet Hfree Htimeout)
    as (w1 & Hrun & Hq1 & Hc1 & Hp1 & Hd1 & Hf1 & Hl1).
  set (p := own_payload rt holder (config_path_of rt holder (opt_env opts))
              (platform_of holder opts) w) in *.
  assert (Htruthy : number_truthy (pid p) = true) by (subst p; simpl; by rewrite Hpid).
  destruct (acquire_held_quiet_run rt contender fuel' opts' w1
              (mkFile (fresh w) (JSON_stringify p) (clock w)) p)
    as (w2 & Hrun' & Hf2 & Hp2 & Hc2 & Hr2).
  - exact Henabled'.
  - exact Hq1.
  - rewrite Hpath, Hf1. apply lookup_insert_eq.
  - reflexivity.
  - exact Htruthy.
  - intros w' Hq' Hp'. rewrite Hplatform. subst p.
    apply (holder_probes_alive rt holder _ _ w a info Hquiet Hpid Hinfo Hstart w' Hq').
    by rewrite Hp', Hp1.
  - exact Htimeout'.
  - exact Hfuel.
  - eexists _, w1, w2. split; [exact Hrun|].
    rewrite (timeout_message_pid _ _ Htruthy) in Hrun'.
    replace (number_toString (pid p)) with (pretty (Z.pos a)) in Hrun'
      by (subst p; simpl; by rewrite Hpid).
    split; [exact Hrun'|]. split; [exact Hf2|]. split; [|lia].
    rewrite Hr2, Hl1, !removals_app.
    destruct (String.eqb (platform_of holder opts) "linux"); simpl; by rewrite !app_nil_r.
Qed.

(** ** Facts about the string primitives *)

Lemma sapp_cons a s t : String a s ++ t = String a (s ++ t).
Proof. reflexivity. Qed.

Lemma sapp_nil_r s : s ++ EmptyString = s.
Proof. induction s as [|a s IH]; [reflexivity|]. rewrite sapp_cons. by rewrite IH. Qed.

Lemma string_rev_onto_app s acc : string_rev_onto s acc = string_rev s ++ acc.
Proof.
  unfold string_rev. revert acc.
  induction s as [|a s IH]; intros acc; [reflexivity|]. simpl.
  rewrite (IH (String a acc)), (IH (String a EmptyString)), string_app_assoc.
  reflexivity.
Qed.

Lemma string_rev_cons a s : string_rev (String a s) = string_rev s ++ String a EmptyString.
Proof. unfold string_rev at 1. simpl. apply string_rev_onto_app. Qed.

Lemma string_rev_app s t : string_rev (s ++ t) = string_rev t ++ string_rev s.
Proof.
  induction s as [|a s IH]; [by rewrite sapp_nil_r|].
  rewrite sapp_cons, !string_rev_cons, IH, string_app_assoc. reflexivity.
Qed.

Lemma string_rev_involutive s : string_rev (string_rev s) = s.
Proof.
  induction s as [|a s IH]; [reflexivity|].
  rewrite string_rev_cons, string_rev_app, IH. reflexivity.
Qed.

Lemma trimStart_app_stop pre c rest :
  is_ws c = false →
  trimStart (pre ++ String c rest) = trimStart pre ++ String c rest.
Proof.
  intros Hc. induction pre as [|a pre IH].
  - change (trimStart (String c rest) = String c rest). simpl. by rewrite Hc.
  - rewrite sapp_cons. simpl. destruct (is_ws a); [exact IH|reflexivity].
Qed.

Lemma trimStart_all_ws s :
  string_forall is_ws s = true → trimStart s = EmptyString.
Proof.
  induction s as [|a s IH]; [reflexivity|]. simpl.
  destruct (is_ws a); [exact IH|discriminate].
Qed.

Lemma string_forall_app test s t :
  string_forall test (s ++ t) = string_forall test s && string_forall test t.
Proof.
  induction s as [|a s IH]; [reflexivity|]. rewrite sapp_cons. simpl.
  rewrite IH. by rewrite andb_assoc.
Qed.

Lemma string_forall_rev test s :
  string_forall test (string_rev s) = string_forall test s.
Proof.
  induction s as [|a s IH]; [reflexivity|].
  rewrite string_rev_cons, string_forall_app, IH. simpl.
  rewrite andb_true_r. apply andb_comm.
Qed.

Lemma string_forall_impl (test test' : ascii → bool) s :
  (∀ a, test a = true → test' a = true) →
  string_forall test s = true → string_forall test' s = true.
Proof.
  intros Himpl. induction s as [|a s IH]; [reflexivity|]. simpl.
  intros [Ha Hs]%andb_true_iff. by rewrite (Himpl a Ha), (IH Hs).
Qed.

(** Trimming a solid string wrapped in white space gives the string. *)
Lemma trim_solid ws1 core ws2 :
  string_forall is_ws ws1 = true → string_forall is_ws ws2 = true → solid core →
  trim (ws1 ++ core ++ ws2) = core.
Proof.
  intros Hws1 Hws2 [(c & r & Hcore & Hc) (c' & r' & Hrev & Hc')].
  unfold trim. rewrite Hcore at 1. rewrite sapp_cons, trimStart_app_stop by exact Hc.
  rewrite (trimStart_all_ws ws1 Hws1). change (EmptyString ++ ?s) with s.
  rewrite <- sapp_cons, <- Hcore, string_rev_app, Hrev.
  rewrite trimStart_app_stop by exact Hc'.
  rewrite trimStart_all_ws by (by rewrite string_forall_rev).
  change (EmptyString ++ ?s) with s. by rewrite <- Hrev, string_rev_involutive.
Qed.



Lemma nonws_solid t :
  t ≠ EmptyString → string_forall (fun a => negb (is_ws a)) t = true → solid t.
Proof.
  intros Hne Hall. split.
  - destruct t as [|c r]; [done|]. simpl in Hall. apply andb_true_iff in Hall as [Hc _].
    exists c, r. split; [reflexivity|]. by apply negb_true_iff.
  - rewrite <- string_forall_rev in Hall.
    destruct (string_rev t) as [|c r] eqn:Hrev.
    + exfalso. apply Hne. by rewrite <- (string_rev_involutive t), Hrev.
    + simpl in Hall. apply andb_true_iff in Hall as [Hc _].
      exists c, r. split; [reflexivity|]. by apply negb_true_iff.
Qed.

Lemma solid_app s t : solid s → solid t → ∀ mid, solid (s ++ mid ++ t).
Proof.
  intros [(c & r & -> & Hc) _] [_ (c' & r' & Hrev & Hc')] mid. split.
  - exists c, (r ++ mid ++ t). by rewrite sapp_cons.
  - exists c', (r' ++ string_rev mid ++ string_rev (String c r)).
    by rewrite !string_rev_app, Hrev, string_app_assoc.
Qed.

Lemma join_cons sep x y rest : join sep (x :: y :: rest) = x ++ sep ++ join sep (y :: rest).
Proof. reflexivity. Qed.









Lemma trimStart_split s :
  ∃ ws, s = ws ++ trimStart s ∧ string_forall is_ws ws = true ∧
        (trimStart s = EmptyString ∨ ∃ c r, trimStart s = String c r ∧ is_ws c = false).
Proof.
  induction s as [|a s (ws & Hs & Hws & Hhead)].
  - exists EmptyString. repeat split. by left.
  - simpl. destruct (is_ws a) eqn:Ha.
    + exists (String a ws). rewrite sapp_cons, <- Hs. simpl. rewrite Ha. done.
    + exists EmptyString. repeat split. right. by exists a, s.
Qed.





(** ** The start time of the owner *)



Lemma split_char_go_token sep t : ∀ rest cur,
  string_forall (fun a => negb (Ascii.eqb a sep)) t = true →
  split_char_go sep (t ++ String sep rest) cur =
    string_rev (string_rev_onto t cur) :: split_char_go sep rest EmptyString.
Proof.
  induction t as [|a t IH]; intros rest cur.
  - intros _. change (EmptyString ++ String sep rest) with (String sep rest). simpl.
    by rewrite Ascii.eqb_refl.
  - simpl. intros [Ha Ht]%andb_true_iff. apply negb_true_iff in Ha.
    rewrite ?sapp_cons. simpl. rewrite Ha. by apply IH.
Qed.

Lemma trim_plain a : solid a → trim a = a.
Proof.
  intros Ha. rewrite <- (sapp_nil_r a) at 1.
  change (trim (EmptyString ++ a ++ EmptyString) = a). by apply trim_solid.
Qed.

Lemma parseProcCmdline_cmdline_text args :
  Forall plain_arg args → parseProcCmdline (cmdline_text args) = args.
Proof.
  unfold parseProcCmdline, split_char. intros Hall.
  induction Hall as [|a rest (_ & Hsolid & Hnul) Hrest IH]; [reflexivity|].
  change (cmdline_text (a :: rest)) with (a ++ String "000" (cmdline_text rest)).
  rewrite split_char_go_token by exact Hnul.
  change (string_rev (string_rev_onto a EmptyString)) with (string_rev (string_rev a)).
  rewrite string_rev_involutive. simpl. rewrite (trim_plain a Hsolid), IH.
  destruct Hsolid as [(c & r & -> & _) _]. reflexivity.
Qed.

(** X11.  [readLinuxCmdline] gives back the argument vector of the process:
    for /proc/<pid>/cmdline holding ASCII arguments, each followed by a
    NUL, it returns exactly these arguments, in order, provided none of them
    is empty, starts or ends with white space, or holds a NUL; an empty
    cmdline gives the empty vector. *)
Theorem readLinuxCmdline_returns_the_arguments target w info args :
  fst (tick w) = None →
  proc_of (snd (tick w)) target = Some info →
  proc_cmdline info = Some (cmdline_text args) →
  Forall plain_arg args →
  outcome (readLinuxCmdline target) w = Ok (Some args).
Proof.
  intros Hfault Hproc Hcmd Hall.
  unfold outcome, readLinuxCmdline, try_catch, bind, readFileSync_proc.
  rewrite syscall_eq, Hfault. cbv beta.
  change (proc_of (record (SysReadProc target "cmdline") (snd (tick w))) target)
    with (proc_of (snd (tick w)) target).
  rewrite Hproc. change (String.eqb "cmdline" "stat") with false. cbv iota. rewrite Hcmd.
  cbn [fst ret]. by rewrite parseProcCmdline_cmdline_text.
Qed.

Lemma string_map_app fn s t : string_map fn (s ++ t) = string_map fn s ++ string_map fn t.
Proof. induction s as [|a s IH]; [reflexivity|]. rewrite ?sapp_cons. simpl. by rewrite IH. Qed.

Lemma normalizeProcArg_app s t :
  normalizeProcArg (s ++ t) = normalizeProcArg s ++ normalizeProcArg t.
Proof. unfold normalizeProcArg, toLowerCase. by rewrite !string_map_app. Qed.

Lemma prefix_app s t : String.prefix s (s ++ t) = true.
Proof.
  induction s as [|a s IH]; [by destruct t|]. rewrite ?sapp_cons. simpl.
  destruct (ascii_dec a a); [exact IH|done].
Qed.

Lemma endsWith_app s t : endsWith (s ++ t) t = true.
Proof. unfold endsWith. rewrite string_rev_app. apply prefix_app. Qed.

(** X12.  [isGatewayArgv] recognises every argument vector that has an
    argument reading [gateway] and an argument ending in one of the entry
    points, whatever the letter case and whether the path is written with
    slashes or backslashes. *)
Theorem gateway_argv_is_recognised args g arg pre tail :
  In g args → normalizeProcArg g = "gateway" →
  In arg args → arg = pre ++ tail →
  In (normalizeProcArg tail) entryCandidates →
  isGatewayArgv args = true.
Proof.
  intros Hg Hgw Harg -> Htail. unfold isGatewayArgv.
  assert (Hin : includes "gateway" (map normalizeProcArg args) = true).
  { unfold includes. apply existsb_exists. exists (normalizeProcArg g).
    split; [by apply in_map|]. rewrite Hgw. reflexivity. }
  rewrite Hin. cbn [negb].
  assert (Hentry : existsb (fun a => existsb (fun entry => endsWith a entry) entryCandidates)
                     (map normalizeProcArg args) = true).
  { apply existsb_exists. exists (normalizeProcArg (pre ++ tail)).
    split; [by apply in_map|]. apply existsb_exists. exists (normalizeProcArg tail).
    split; [exact Htail|]. rewrite normalizeProcArg_app. apply endsWith_app. }
  by rewrite Hentry.
Qed.

(** ** A lock that cannot be parsed *)

(** X13.  A lock file whose payload cannot be read (absent fields, not JSON,
    caught between its creation and the write of its payload) is judged by
    the file alone: there is no probe, the call after the read of the
    payload is the stat of the lock file, and the file is force-removed when
    its modification time is more than [staleMs] old and also when the stat
    fails (the call itself, or the file gone meanwhile); only a stat that
    succeeds with a younger modification time makes acquire sleep one poll
    interval and leave the file alone. *)
Theorem unparsable_lock_is_judged_by_its_mtime
    rt lockPath platform pollIntervalMs staleMs w w1 :
  readLockPayload lockPath w = (Ok None, w1) →
  let w2 := record (SysStat lockPath) (snd (tick w1)) in
  ∃ r w3,
    contention rt lockPath platform pollIntervalMs staleMs w =
      (res_map (Retry None) r, w3) ∧
    match fst (tick w1), files (snd (tick w1)) !! lockPath with
    | None, Some f =>
        if (staleMs <? clock w2 - mtimeMs f)%Z
        then reclaims lockPath w2 r w3
        else waits pollIntervalMs w2 r w3
    | _, _ => reclaims lockPath w2 r w3
    end.
Proof.
  intros Hread w2.
  assert (Hprobe : probe_owner platform None w1 = (Ok unknown, w1)) by reflexivity.
  assert (Hstale : is_stale rt lockPath staleMs None w1 =
                     (Ok match fst (tick w1), files (snd (tick w1)) !! lockPath with
                         | None, Some f => (staleMs <? clock w2 - mtimeMs f)%Z
                         | _, _ => true
                         end, w2)).
  { unfold is_stale, bind. simpl. apply stale_by_mtime_eq. }
  rewrite (contention_eq rt lockPath platform pollIntervalMs staleMs _ _ _ _ _ Hread Hprobe).
  rewrite (after_probe_unknown rt lockPath pollIntervalMs staleMs _ _ _ _ Hstale).
  destruct (fst (tick w1)) as [code|].
  { eexists _, _. split; [reflexivity|]. apply rm_then_continue_reclaims. }
  destruct (files (snd (tick w1)) !! lockPath) as [f|].
  2:{ eexists _, _. split; [reflexivity|]. apply rm_then_continue_reclaims. }
  destruct (staleMs <? clock w2 - mtimeMs f)%Z; eexists _, _; (split; [reflexivity|]).
  - apply rm_then_continue_reclaims.
  - apply sleep_then_waited_waits.
Qed.

(** ** The identity file *)

Lemma trim_decompose s :
  ∃ ws1 ws2, s = ws1 ++ trim s ++ ws2 ∧
    string_forall is_ws ws1 = true ∧ string_forall is_ws ws2 = true ∧
    (trim s = EmptyString ∨ solid (trim s)).
Proof.
  destruct (trimStart_split s) as (ws & Hs & Hws & Hhead).
  destruct (trimStart_split (string_rev (trimStart s))) as (ws' & Hr & Hws' & Hhead').
  assert (Hu : trimStart s = trim s ++ string_rev ws').
  { unfold trim. rewrite <- string_rev_app, <- Hr. by rewrite string_rev_involutive. }
  exists ws, (string_rev ws'). split; [by rewrite <- Hu|].
  split; [done|]. split; [by rewrite string_forall_rev|].
  destruct Hhead' as [Hempty|(c' & r' & Hv & Hc')].
  - left. unfold trim. by rewrite Hempty.
  - right. split.
    + destruct Hhead as [Hempty|(c & r & Hcr & Hc)].
      * exfalso. rewrite Hempty in Hv. discriminate.
      * rewrite Hcr in Hu. unfold trim in *. rewrite Hv in *.
        rewrite string_rev_cons in *.
        destruct (string_rev r') as [|x y]; simpl in Hu; injection Hu as -> _;
          eexists _, _; (split; [reflexivity|done]).
    + exists c', r'. unfold trim. by rewrite string_rev_involutive.
Qed.

Lemma trim_all_ws s : string_forall is_ws s = true → trim s = EmptyString.
Proof. intros Hs. unfold trim. by rewrite (trimStart_all_ws s Hs). Qed.

Lemma trim_empty_all_ws s : trim s = EmptyString → string_forall is_ws s = true.
Proof.
  intros He. destruct (trim_decompose s) as (ws1 & ws2 & Hs & H1 & H2 & _).
  rewrite Hs, He, !string_forall_app, H1, H2. reflexivity.
Qed.

Lemma trim_idempotent s : trim (trim s) = trim s.
Proof.
  destruct (trim_decompose s) as (_ & _ & _ & _ & _ & [->|Hsolid]); [reflexivity|].
  by apply trim_plain.
Qed.

Lemma trim_app_ws s ws :
  string_forall is_ws ws = true → trim (s ++ ws) = trim s.
Proof.
  intros Hws. destruct (trim_decompose s) as (ws1 & ws2 & Hs & H1 & H2 & [He|Hsolid]).
  - rewrite He. apply trim_all_ws. rewrite string_forall_app, Hws, andb_true_r.
    by apply trim_empty_all_ws.
  - rewrite Hs at 1. rewrite !string_app_assoc.
    apply trim_solid; [done| |done]. by rewrite string_forall_app, H2, Hws.
Qed.

(** [assign] lays at most one field, holding the value, over the identity. *)
Lemma assign_cases label value :
  ∃ set, (∀ identity, assign identity label value = overlay identity set) ∧
         Forall (λ f, f = None ∨ f = Some value) (identity_fields set).
Proof.
  destruct (String.eqb label "name") eqn:E1.
  { apply String.eqb_eq in E1 as ->. exists (mkIdentity (Some value) None None None None None).
    split; [by intros []|]. repeat constructor; by auto. }
  destruct (String.eqb label "emoji") eqn:E2.
  { apply String.eqb_eq in E2 as ->. exists (mkIdentity None (Some value) None None None None).
    split; [by intros []|]. repeat constructor; by auto. }
  destruct (String.eqb label "creature") eqn:E3.
  { apply String.eqb_eq in E3 as ->. exists (mkIdentity None None None (Some value) None None).
    split; [by intros []|]. repeat constructor; by auto. }
  destruct (String.eqb label "vibe") eqn:E4.
  { apply String.eqb_eq in E4 as ->. exists (mkIdentity None None None None (Some value) None).
    split; [by intros []|]. repeat constructor; by auto. }
  destruct (String.eqb label "theme") eqn:E5.
  { apply String.eqb_eq in E5 as ->. exists (mkIdentity None None (Some value) None None None).
    split; [by intros []|]. repeat constructor; by auto. }
  destruct (String.eqb label "avatar") eqn:E6.
  { apply String.eqb_eq in E6 as ->. exists (mkIdentity None None None None None (Some value)).
    split; [by intros []|]. repeat constructor; by auto. }
  exists no_identity. split; [|repeat constructor; by auto].
  intros []. cbv delta [assign] beta. rewrite E1, E2, E3, E4, E5, E6. reflexivity.
Qed.

Lemma overlay_keeps (good : string → bool) earlier later :
  forallb (from_option good true) (identity_fields earlier) = true →
  forallb (from_option good true) (identity_fields later) = true →
  forallb (from_option good true) (identity_fields (overlay earlier later)) = true.
Proof.
  destruct earlier as [n e t c v a], later as [n' e' t' c' v' a'].
  unfold overlay, identity_fields.
  cbn [forallb id_name id_emoji id_theme id_creature id_vibe id_avatar].
  rewrite !andb_true_r, !andb_true_iff.
  intros (Hn & He & Ht & Hc & Hv & Ha) (Hn' & He' & Ht' & Hc' & Hv' & Ha').
  repeat split.
  - destruct n'; assumption.
  - destruct e'; assumption.
  - destruct t'; assumption.
  - destruct c'; assumption.
  - destruct v'; assumption.
  - destruct a'; assumption.
Qed.

Lemma assign_well_formed identity label value :
  well_formed identity = true → real_value value = true →
  well_formed (assign identity label value) = true.
Proof.
  intros Hid Hval. destruct (assign_cases label value) as (set & -> & Hset).
  apply overlay_keeps; [exact Hid|]. apply forallb_forall. intros f Hf.
  apply (proj1 (List.Forall_forall _ _) Hset) in Hf as [->| ->]; [reflexivity|exact Hval].
Qed.

Lemma parse_line_well_formed identity line :
  well_formed identity = true → well_formed (parse_line identity line) = true.
Proof.
  intros Hid. unfold parse_line.
  destruct (cut_at_colon _) as [[before rest]|]; [|exact Hid].
  destruct (String.eqb (trim (strip_marks rest)) EmptyString) eqn:Hempty; [exact Hid|].
  destruct (isIdentityPlaceholder _) eqn:Hplace; [exact Hid|].
  apply assign_well_formed; [exact Hid|]. unfold real_value.
  rewrite Hempty, Hplace, trim_idempotent, String.eqb_refl. reflexivity.
Qed.

Lemma parse_lines_well_formed lines : ∀ identity,
  well_formed identity = true → well_formed (parse_lines lines identity) = true.
Proof.
  induction lines as [|line lines IH]; intros identity Hid; [exact Hid|].
  apply IH. apply parse_line_well_formed. exact Hid.
Qed.

Lemma fields_without_values (good : string → bool) identity :
  (∀ v, good v = true → v ≠ EmptyString) →
  forallb (from_option good true) (identity_fields identity) = true →
  identityHasValues identity = false →
  identity = no_identity.
Proof.
  intros Hgood. destruct identity as [n e t c v a]. unfold identityHasValues.
  cbn [forallb identity_fields id_name id_emoji id_theme id_creature id_vibe id_avatar].
  rewrite !andb_true_r, !andb_true_iff, !orb_false_iff.
  intros (Hn & He & Ht & Hc & Hv & Ha) (((((Hn' & He') & Ht') & Hc') & Hv') & Ha').
  assert (Hfield : ∀ f, from_option good true f = true →
                        truthy_field f = false → f = None).
  { intros [x|]; [|reflexivity]. cbn [from_option truthy_field].
    intros Hx Hempty. apply negb_false_iff, String.eqb_eq in Hempty.
    by destruct (Hgood x Hx). }
  by rewrite (Hfield n), (Hfield e), (Hfield t), (Hfield c), (Hfield v), (Hfield a).
Qed.

Lemma well_formed_without_values identity :
  well_formed identity = true → identityHasValues identity = false →
  identity = no_identity.
Proof.
  apply fields_without_values. intros v. unfold real_value.
  intros [[Hne _]%andb_true_iff _]%andb_true_iff ->. discriminate.
Qed.

(** X14.  Whatever the content, every field [parseIdentityMarkdown] sets holds
    a value that is not empty, has no white space around it and is not one of
    the template's placeholders; so [identityHasValues] is false of the result
    exactly when no field was set at all. *)
Theorem parsed_fields_hold_real_values content :
  well_formed (parseIdentityMarkdown content) = true ∧
  (identityHasValues (parseIdentityMarkdown content) = false ↔
   parseIdentityMarkdown content = no_identity).
Proof.
  assert (Hwf : well_formed (parseIdentityMarkdown content) = true).
  { apply parse_lines_well_formed. reflexivity. }
  split; [exact Hwf|]. split.
  - apply well_formed_without_values. exact Hwf.
  - intros ->. reflexivity.
Qed.

Lemma overlay_assoc a b c : overlay a (overlay b c) = overlay (overlay a b) c.
Proof.
  destruct a as [n e t cr v av], b as [n' e' t' cr' v' av'],
    c as [n'' e'' t'' cr'' v'' av''].
  unfold overlay. cbn [id_name id_emoji id_theme id_creature id_vibe id_avatar].
  f_equal; by repeat case_match.
Qed.

Lemma overlay_nothing a : overlay a no_identity = a.
Proof. by destruct a. Qed.

Lemma overlay_onto_nothing a : overlay no_identity a = a.
Proof. destruct a as [n e t cr v av]. unfold overlay. simpl. f_equal; by case_match. Qed.

Lemma parse_line_overlay identity line :
  parse_line identity line = overlay identity (parse_line no_identity line).
Proof.
  unfold parse_line. destruct (cut_at_colon _) as [[before rest]|];
    [|by rewrite overlay_nothing].
  destruct (String.eqb _ EmptyString); [by rewrite overlay_nothing|].
  destruct (isIdentityPlaceholder _); [by rewrite overlay_nothing|].
  destruct (assign_cases (toLowerCase (trim (remove_marks before)))
              (trim (strip_marks rest))) as (set & Hset & _).
  by rewrite (Hset identity), (Hset no_identity), overlay_onto_nothing.
Qed.

Lemma parse_lines_overlay lines : ∀ identity,
  parse_lines lines identity = overlay identity (parse_lines lines no_identity).
Proof.
  induction lines as [|line lines IH]; intros identity.
  - by rewrite overlay_nothing.
  - unfold parse_lines in *. cbn [fold_left].
    rewrite (IH (parse_line identity line)), (IH (parse_line no_identity line)).
    by rewrite (parse_line_overlay identity), overlay_assoc.
Qed.

Lemma parse_lines_app lines1 lines2 :
  parse_lines (lines1 ++ lines2) no_identity =
  overlay (parse_lines lines1 no_identity) (parse_lines lines2 no_identity).
Proof.
  unfold parse_lines at 1. rewrite fold_left_app.
  apply (parse_lines_overlay lines2).
Qed.

Lemma parse_line_app_ws identity line ws :
  string_forall is_ws ws = true →
  parse_line identity (line ++ ws) = parse_line identity line.
Proof. intros Hws. unfold parse_line. by rewrite trim_app_ws. Qed.

(** The lines of [c1 ++ LF ++ c2] are the lines of [c1], then the lines of
    [c2]; only a carriage return that ended [c1] is gone from its last line,
    taken as part of the line break. *)
Lemma split_lines_go_app c2 (n : nat) : ∀ c1 cur,
  (String.length c1 <= n)%nat →
  ∃ pre l l',
    split_lines_go c1 cur = (pre ++ [l])%list ∧
    split_lines_go (c1 ++ LF ++ c2) cur = (pre ++ [l'] ++ split_lines c2)%list ∧
    (l = l' ∨ l = l' ++ String "013" EmptyString).
Proof.
  induction n as [|n IH]; intros c1 cur Hlen.
  - destruct c1; [|simpl in Hlen; lia].
    exists [], (string_rev cur), (string_rev cur). repeat split. by left.
  - destruct c1 as [|a rest].
    { exists [], (string_rev cur), (string_rev cur). repeat split. by left. }
    simpl in Hlen. rewrite sapp_cons. cbn [split_lines_go].
    destruct (Ascii.eqb a "010") eqn:Ha.
    { destruct (IH rest EmptyString ltac:(lia)) as (pre & l & l' & H1 & H2 & H3).
      exists (string_rev cur :: pre), l, l'. rewrite H1, H2. by repeat split. }
    destruct rest as [|b rest'].
    { change (EmptyString ++ LF ++ c2) with (String "010" c2).
      destruct (Ascii.eqb a "013") eqn:Hcr.
      - apply Ascii.eqb_eq in Hcr as ->. cbn [andb Ascii.eqb Bool.eqb].
        exists [], (string_rev (String "013" cur)), (string_rev cur).
        repeat split. right. apply string_rev_cons.
      - cbn [andb split_lines_go]. change (Ascii.eqb "010" "010") with true. cbv iota.
        exists [], (string_rev (String a cur)), (string_rev (String a cur)).
        repeat split. by left. }
    rewrite sapp_cons. destruct (Ascii.eqb a "013" && Ascii.eqb b "010").
    + simpl in Hlen.
      destruct (IH rest' EmptyString ltac:(lia)) as (pre & l & l' & H1 & H2 & H3).
      exists (string_rev cur :: pre), l, l'. rewrite H1, H2. by repeat split.
    + rewrite <- sapp_cons. apply IH. lia.
Qed.

(** X15.  Content read after a line break is laid over what was read before
    it: for all contents [c1] and [c2], parsing [c1], a line feed and [c2]
    gives the fields [c2] sets, and the fields of [c1] where [c2] sets
    none.  A later line thus overrides an earlier one with the same label,
    and never clears a field. *)
Theorem later_content_is_laid_over_earlier c1 c2 :
  parseIdentityMarkdown (c1 ++ LF ++ c2) =
  overlay (parseIdentityMarkdown c1) (parseIdentityMarkdown c2).
Proof.
  destruct (split_lines_go_app c2 (String.length c1) c1 EmptyString (le_n _))
    as (pre & l & l' & H1 & H2 & H3).
  unfold parseIdentityMarkdown, split_lines at 1 2. rewrite H1, H2.
  rewrite (app_assoc pre [l'] (split_lines c2)), parse_lines_app. f_equal.
  unfold parse_lines. rewrite !fold_left_app. cbn [fold_left].
  destruct H3 as [->| ->]; [reflexivity|]. by rewrite parse_line_app_ws.
Qed.

Lemma split_char_go_line sep t : ∀ cur,
  string_forall (fun a => negb (Ascii.eqb a sep)) t = true →
  split_char_go sep t cur = [string_rev (string_rev_onto t cur)].
Proof.
  induction t as [|a t IH]; intros cur; [reflexivity|]. simpl.
  intros [Ha Ht]%andb_true_iff. apply negb_true_iff in Ha. rewrite Ha. by apply IH.
Qed.

Lemma split_char_go_app sep b t : ∀ cur,
  split_char_go sep (b ++ String sep t) cur =
  (split_char_go sep b cur ++ split_char_go sep t EmptyString)%list.
Proof.
  induction b as [|a b IH]; intros cur.
  - change (EmptyString ++ String sep t) with (String sep t). simpl.
    by rewrite Ascii.eqb_refl.
  - rewrite sapp_cons. simpl. destruct (Ascii.eqb a sep); [|by apply IH].
    by rewrite IH.
Qed.

Lemma join_split_char_go sep s : ∀ cur,
  join (String sep EmptyString) (split_char_go sep s cur) = string_rev cur ++ s.
Proof.
  induction s as [|a s IH]; intros cur.
  - simpl. by rewrite sapp_nil_r.
  - simpl. destruct (Ascii.eqb a sep) eqn:Ha.
    + apply Ascii.eqb_eq in Ha as ->. specialize (IH EmptyString).
      destruct (split_char_go sep s EmptyString) as [|y r] eqn:Hgo.
      { destruct s; simpl in Hgo; [done|by destruct (Ascii.eqb _ _)]. }
      rewrite join_cons, IH. reflexivity.
    + rewrite IH, string_rev_cons, string_app_assoc. reflexivity.
Qed.

(** Splitting at line feeds and joining with line feeds gives the text back. *)
Lemma join_split_char sep s :
  join (String sep EmptyString) (split_char sep s) = s.
Proof. apply join_split_char_go. Qed.

Lemma trimEnd_keeps s t :
  t ≠ EmptyString → string_forall (fun a => negb (is_ws a)) t = true →
  trimEnd (s ++ t) = s ++ t.
Proof.
  intros Hne Hall. destruct (nonws_solid t Hne Hall) as [_ (c & r & Hrev & Hc)].
  unfold trimEnd. rewrite string_rev_app, Hrev, sapp_cons. simpl. rewrite Hc.
  by rewrite <- sapp_cons, <- Hrev, <- string_rev_app, string_rev_involutive.
Qed.

(** What the code makes of [body], a line feed and a status line without
    white space. *)
Lemma read_curl_output_eq body status :
  status ≠ EmptyString → string_forall (fun a => negb (is_ws a)) status = true →
  read_curl_output (body ++ LF ++ status) =
    if number_eqb (Number_parseInt status) (Num 200) &&
       negb (String.eqb (trim body) EmptyString)
    then Some body else None.
Proof.
  intros Hne Hall. unfold read_curl_output.
  rewrite <- string_app_assoc, trimEnd_keeps by done.
  rewrite string_app_assoc. change (LF ++ status) with (String "010" status).
  unfold split_char. rewrite split_char_go_app, (split_char_go_line "010" status).
  2:{ revert Hall. apply string_forall_impl. intros a Ha.
      destruct (Ascii.eqb a "010") eqn:E; [|done].
      apply Ascii.eqb_eq in E as ->. done. }
  unfold pop. rewrite last_last, removelast_last.
  change (string_rev (string_rev_onto status EmptyString)) with (string_rev (string_rev status)).
  rewrite string_rev_involutive.
  destruct (String.eqb status EmptyString) eqn:E.
  { apply String.eqb_eq in E. done. }
  change LF with (String "010" EmptyString).
  by rewrite (join_split_char_go "010" body EmptyString).
Qed.

(** X16.  For ASCII output of [curl], [syncVaultRead] hands back the body
    [curl] printed, byte for byte, exactly when the status line after it
    reads as 200 and the body is not blank; it returns null for every other
    status and for a blank body. *)
Theorem vault_read_returns_the_body_on_200 h filename body status :
  isVaultAvailable h = true →
  ascii_text body = true → ascii_text status = true →
  status ≠ EmptyString → string_forall (fun a => negb (is_ws a)) status = true →
  vault_curl h (vault_url h filename) = Some (body ++ LF ++ status) →
  syncVaultRead h filename =
    inr (if number_eqb (Number_parseInt status) (Num 200) &&
            negb (String.eqb (trim body) EmptyString)
         then Some body else None).
Proof.
  unfold isVaultAvailable. intros [Hf Hb]%andb_true_iff _ _ Hne Hall Hcurl.
  unfold syncVaultRead. rewrite Hf, Hb, Hcurl. cbn [negb].
  by rewrite read_curl_output_eq.
Qed.






(** X18.  [loadIdentityFromFile] never passes a failure on: without the
    vault it returns null; when [curl] fails, [syncVaultRead] throws and the
    loader catches that and returns null.  What it does return has at least
    one field set. *)
Theorem vault_failure_gives_no_identity h identityPath :
  (isVaultAvailable h = false → loadIdentityFromFile h identityPath = None) ∧
  (isVaultAvailable h = true →
   vault_curl h (vault_url h (path_basename h identityPath)) = None →
   syncVaultRead h (path_basename h identityPath) =
     inl ("Vault identity read failed for " ++ path_basename h identityPath) ∧
   loadIdentityFromFile h identityPath = None) ∧
  (∀ identity, loadIdentityFromFile h identityPath = Some identity →
     identityHasValues identity = true).
Proof.
  unfold loadIdentityFromFile, syncVaultRead, isVaultAvailable.
  split; [by intros ->|]. split.
  - intros Havail Hcurl. rewrite Havail, Hcurl.
    apply andb_true_iff in Havail as [-> ->]. done.
  - intros identity. destruct (vault_factory h && baseUrl_truthy h); [|done].
    destruct (if negb _ then _ else _) as [|[content|]]; [done| |done].
    destruct (String.eqb content EmptyString); [done|].
    destruct (identityHasValues _) eqn:Hvalues; [|done]. cbn [negb].
    by intros [= <-].
Qed.

Lemma is_mark_not_ws a : is_mark a = true → is_ws a = false.
Proof.
  unfold is_mark. intros [E|E]%orb_true_iff; apply Ascii.eqb_eq in E; by subst.
Qed.

Lemma drop_while_all test s :
  string_forall test s = true → drop_while test s = EmptyString.
Proof.
  induction s as [|a s IH]; [reflexivity|]. simpl.
  destruct (test a); [exact IH|discriminate].
Qed.

Lemma drop_while_app_stop test pre c rest :
  test c = false →
  drop_while test (pre ++ String c rest) = drop_while test pre ++ String c rest.
Proof.
  intros Hc. induction pre as [|a pre IH].
  - change (drop_while test (String c rest) = String c rest). simpl. by rewrite Hc.
  - rewrite sapp_cons. simpl. destruct (test a); [exact IH|reflexivity].
Qed.

(** Stripping the marks around a core that neither starts nor ends with a
    mark gives the core. *)
Lemma strip_marks_core m1 core m2 :
  string_forall is_mark m1 = true → string_forall is_mark m2 = true →
  firm is_mark core →
  strip_marks (m1 ++ core ++ m2) = core.
Proof.
  intros Hm1 Hm2 [(c & r & Hcore & Hc) (c' & r' & Hrev & Hc')].
  unfold strip_marks. rewrite Hcore at 1.
  rewrite sapp_cons, drop_while_app_stop by exact Hc.
  rewrite (drop_while_all _ m1 Hm1). change (EmptyString ++ ?s) with s.
  rewrite <- sapp_cons, <- Hcore, string_rev_app, Hrev.
  rewrite drop_while_app_stop by exact Hc'.
  rewrite drop_while_all by (by rewrite string_forall_rev).
  change (EmptyString ++ ?s) with s. by rewrite <- Hrev, string_rev_involutive.
Qed.

Lemma parenthesised_firm (test : ascii → bool) text :
  test "("%char = false → test ")"%char = false → firm test ("(" ++ text ++ ")").
Proof.
  intros Hopen Hclose. split.
  - by exists "("%char, (text ++ ")").
  - exists ")"%char, (string_rev text ++ "("). split; [|done].
    change ("(" ++ text ++ ")") with (String "(" EmptyString ++ text ++ ")").
    by rewrite !string_rev_app.
Qed.

(** Marks around a core that white space does not touch are not touched by
    [trim] either. *)
Lemma marked_solid m1 core m2 :
  string_forall is_mark m1 = true → string_forall is_mark m2 = true →
  solid core → solid (m1 ++ core ++ m2).
Proof.
  intros Hm1 Hm2 [(c & r & Hcore & Hc) (c' & r' & Hrev & Hc')]. split.
  - destruct m1 as [|x m1]; [by exists c, (r ++ m2); rewrite Hcore|].
    exists x, (m1 ++ core ++ m2). split; [reflexivity|].
    simpl in Hm1. apply andb_true_iff in Hm1 as [Hx _]. by apply is_mark_not_ws.
  - rewrite !string_rev_app, string_app_assoc.
    rewrite <- string_forall_rev in Hm2.
    destruct (string_rev m2) as [|x m2'].
    + exists c', (r' ++ string_rev m1). by rewrite Hrev.
    + exists x, (m2' ++ string_rev core ++ string_rev m1). split; [reflexivity|].
      simpl in Hm2. apply andb_true_iff in Hm2 as [Hx _]. by apply is_mark_not_ws.
Qed.

(** X19.  [normalizeIdentityValue] sees through the way the template wraps
    its placeholders, for ASCII text: white space around emphasis marks
    around parentheses are all removed, and what is left inside the
    parentheses is trimmed, has its white space normalised and is put in
    lower case.  So a wrapped ASCII text is a placeholder exactly when that
    normal form is one. *)
Theorem placeholder_wrapping_is_ignored ws1 m1 text m2 ws2 :
  ascii_text text = true →
  string_forall is_ws ws1 = true → string_forall is_ws ws2 = true →
  string_forall is_mark m1 = true → string_forall is_mark m2 = true →
  let wrapped := ws1 ++ m1 ++ "(" ++ text ++ ")" ++ m2 ++ ws2 in
  let normal := toLowerCase (collapse_ws (replace_dashes (trim text))) in
  normalizeIdentityValue wrapped = normal ∧
  isIdentityPlaceholder wrapped =
    bool_decide (normal ∈ IDENTITY_PLACEHOLDER_VALUES).
Proof.
  intros _ Hws1 Hws2 Hm1 Hm2 wrapped normal.
  assert (Hnorm : normalizeIdentityValue wrapped = normal).
  { unfold normalizeIdentityValue, wrapped, normal.
    assert (Hsolid : solid ("(" ++ text ++ ")")) by by apply parenthesised_firm.
    replace (ws1 ++ m1 ++ "(" ++ text ++ ")" ++ m2 ++ ws2)
      with (ws1 ++ (m1 ++ ("(" ++ text ++ ")") ++ m2) ++ ws2)
      by (by rewrite !string_app_assoc).
    rewrite trim_solid by (try done; by apply marked_solid).
    rewrite strip_marks_core by (try done; by apply parenthesised_firm).
    rewrite trim_plain by done.
    replace (startsWith ("(" ++ text ++ ")") "(") with true
      by (symmetry; apply prefix_app).
    replace (endsWith ("(" ++ text ++ ")") ")") with true
      by (symmetry; rewrite <- string_app_assoc; apply endsWith_app).
    cbn [andb]. f_equal. f_equal. f_equal. f_equal.
    unfold slice_inner. change (slice 1 ("(" ++ text ++ ")")) with (text ++ ")").
    rewrite string_rev_app. change (string_rev ")") with ")".
    change (slice 1 (")" ++ string_rev text)) with (string_rev text).
    apply string_rev_involutive. }
  split; [exact Hnorm|]. unfold isIdentityPlaceholder. rewrite Hnorm.
  generalize normal. intros x. unfold IDENTITY_PLACEHOLDER_VALUES.
  cbn [existsb]. rewrite orb_false_r.
  apply eq_true_iff_eq. rewrite bool_decide_eq_true, !orb_true_iff, !String.eqb_eq.
  rewrite !elem_of_cons, elem_of_nil. tauto.
Qed.

Lemma trimStart_app_ws ws s :
  string_forall is_ws ws = true → trimStart (ws ++ s) = trimStart s.
Proof.
  induction ws as [|a ws IH]; [reflexivity|]. simpl.
  intros [Ha Hws]%andb_true_iff. rewrite Ha. by apply IH.
Qed.

Lemma trimStart_head c r : is_ws c = false → trimStart (String c r) = String c r.
Proof. intros Hc. simpl. by rewrite Hc. Qed.

Lemma cut_at_colon_app pre rest :
  string_forall (fun a => negb (Ascii.eqb a ":")) pre = true →
  cut_at_colon (pre ++ String ":" rest) = Some (pre, rest).
Proof.
  induction pre as [|a pre IH]; [reflexivity|]. rewrite sapp_cons. simpl.
  intros [Ha Hpre]%andb_true_iff. apply negb_true_iff in Ha. by rewrite Ha, IH.
Qed.

Lemma remove_marks_app s t : remove_marks (s ++ t) = remove_marks s ++ remove_marks t.
Proof.
  induction s as [|a s IH]; [reflexivity|]. rewrite sapp_cons. simpl.
  destruct (is_mark a); [exact IH|]. by rewrite IH.
Qed.

Lemma remove_marks_all m : string_forall is_mark m = true → remove_marks m = EmptyString.
Proof.
  induction m as [|a m IH]; [reflexivity|]. simpl.
  intros [Ha Hm]%andb_true_iff. rewrite Ha. by apply IH.
Qed.

Lemma remove_marks_none s :
  string_forall (fun a => negb (is_mark a)) s = true → remove_marks s = s.
Proof.
  induction s as [|a s IH]; [reflexivity|]. simpl.
  intros [Ha Hs]%andb_true_iff. apply negb_true_iff in Ha. by rewrite Ha, IH.
Qed.

Lemma is_mark_not_colon a : is_mark a = true → negb (Ascii.eqb a ":") = true.
Proof.
  unfold is_mark. intros [E|E]%orb_true_iff; apply Ascii.eqb_eq in E; by subst.
Qed.

(** X20.  An ASCII line of the form the template uses sets its field: an
    indented bullet, a label that may be wrapped in emphasis marks, a colon,
    again marks, white space and a value.  The label is matched in lower
    case with its marks removed, and the value is kept as written; a
    placeholder for a value leaves the identity as it was. *)
Theorem template_line_sets_its_field identity ws0 ws1 m1 label m2 m3 ws2 value ws3 :
  ascii_text label = true → ascii_text value = true →
  string_forall is_ws ws0 = true → string_forall is_ws ws1 = true →
  string_forall is_ws ws2 = true → string_forall is_ws ws3 = true →
  string_forall is_mark m1 = true → string_forall is_mark m2 = true →
  string_forall is_mark m3 = true →
  solid label →
  string_forall (fun a => negb (is_mark a) && negb (Ascii.eqb a ":")) label = true →
  solid value → firm is_mark value →
  parse_line identity
    (ws0 ++ "-" ++ ws1 ++ m1 ++ label ++ m2 ++ ":" ++ m3 ++ ws2 ++ value ++ ws3) =
  if isIdentityPlaceholder value then identity
  else assign identity (toLowerCase label) value.
Proof.
  intros _ _ Hws0 Hws1 Hws2 Hws3 Hm1 Hm2 Hm3 Hlabel Hchars Hvalue Hfirm.
  unfold parse_line.
  set (mid := ws1 ++ m1 ++ label ++ m2 ++ ":" ++ m3 ++ ws2).
  replace (ws0 ++ "-" ++ ws1 ++ m1 ++ label ++ m2 ++ ":" ++ m3 ++ ws2 ++ value ++ ws3)
    with (ws0 ++ ("-" ++ mid ++ value) ++ ws3)
    by (unfold mid; by rewrite !string_app_assoc).
  rewrite trim_solid; [|done|done|].
  2:{ apply solid_app; [|done]. split; by exists "-"%char, EmptyString. }
  unfold strip_bullet. change ("-" ++ mid ++ value) with (String "-" (mid ++ value)).
  rewrite trimStart_head by reflexivity. change (Ascii.eqb "-" "-") with true. cbv iota.
  unfold mid. rewrite !string_app_assoc, trimStart_app_ws by done.
  assert (Hhead : ∀ tail, trimStart (m1 ++ label ++ tail) = m1 ++ label ++ tail).
  { intros tail. destruct Hlabel as [(c & r & -> & Hc) _].
    destruct m1 as [|x m1]; [by apply trimStart_head|].
    simpl in Hm1. apply andb_true_iff in Hm1 as [Hx _].
    rewrite sapp_cons. apply trimStart_head. by apply is_mark_not_ws. }
  rewrite Hhead.
  replace (m1 ++ label ++ m2 ++ ":" ++ m3 ++ ws2 ++ value)
    with ((m1 ++ label ++ m2) ++ String ":" (m3 ++ ws2 ++ value))
    by (by rewrite !string_app_assoc).
  rewrite cut_at_colon_app.
  2:{ rewrite !string_forall_app. apply andb_true_iff. split; [|apply andb_true_iff; split].
      - revert Hm1. apply string_forall_impl, is_mark_not_colon.
      - revert Hchars. apply string_forall_impl. intros a. rewrite andb_true_iff. tauto.
      - revert Hm2. apply string_forall_impl, is_mark_not_colon. }
  rewrite !remove_marks_app, (remove_marks_all m1 Hm1), (remove_marks_all m2 Hm2).
  rewrite remove_marks_none.
  2:{ revert Hchars. apply string_forall_impl. intros a. rewrite andb_true_iff. tauto. }
  change (EmptyString ++ label ++ EmptyString) with (label ++ EmptyString).
  rewrite sapp_nil_r, (trim_plain label Hlabel).
  assert (Hcore : firm is_mark (ws2 ++ value)).
  { destruct Hfirm as [(c & r & Hv & Hc) (c' & r' & Hrev & Hc')]. split.
    - destruct ws2 as [|x ws2]; [by exists c, r|].
      exists x, (ws2 ++ value). split; [reflexivity|].
      simpl in Hws2. apply andb_true_iff in Hws2 as [Hx _].
      destruct (is_mark x) eqn:Hmark; [|reflexivity].
      apply is_mark_not_ws in Hmark. congruence.
    - exists c', (r' ++ string_rev ws2). by rewrite string_rev_app, Hrev. }
  rewrite <- (sapp_nil_r (m3 ++ ws2 ++ value)), string_app_assoc.
  rewrite (strip_marks_core m3 (ws2 ++ value) EmptyString Hm3 eq_refl Hcore).
  rewrite <- (sapp_nil_r (ws2 ++ value)), string_app_assoc.
  rewrite (trim_solid ws2 value EmptyString Hws2 eq_refl Hvalue).
  destruct Hvalue as [(c & r & -> & _) _]. reflexivity.
Qed.

Lemma template_line_sets_its_field_witness :
  parse_line no_identity "  - **Name:** Samantha " =
  mkIdentity (Some "Samantha") None None None None None.
Proof.
  apply (template_line_sets_its_field no_identity "  " " " "**" "Name" EmptyString "**"
           " " "Samantha" " ");
    try reflexivity;
    split; eexists _, _; (split; [vm_compute; reflexivity|reflexivity]).
Defined.

(** ** Further examples *)

Lemma stop_cleans_up_after_dead_owner_witness :
  ∃ r w3,
    tryStopForegroundGateway example_runtime contender None None world_owner_dead = (r, w3) ∧
    r = Ok (mkStop not_running (Some (Num 100))) ∧
    files w3 !! example_lockPath = None.
Proof.
  destruct (stop_cleans_up_after_dead_owner example_runtime contender None None
              world_owner_dead owner_payload
              (after (readLockPayload example_lockPath) world_owner_dead)
              (after (resolveGatewayOwnerStatus (Num 100) (Some owner_payload) "linux")
                 (after (readLockPayload example_lockPath) world_owner_dead)))
    as (r & w3 & Hrun & _ & Hdone).
  - vm_compute. reflexivity.
  - vm_compute. reflexivity.
  - exists r, w3. split; [exact Hrun|]. exact Hdone.
Defined.

Lemma stop_not_running_when_signal_fails_witness :
  ∃ r w4,
    tryStopForegroundGateway example_runtime contender None None
      world_exits_before_signal = (r, w4) ∧
    r = Ok (mkStop not_running (Some (Num 100))) ∧
    files w4 !! example_lockPath = None.
Proof.
  destruct (stop_not_running_when_signal_fails example_runtime contender None None
              world_exits_before_signal owner_payload
              (after (readLockPayload example_lockPath) world_exits_before_signal)
              alive
              (after (resolveGatewayOwnerStatus (Num 100) (Some owner_payload) "linux")
                 (after (readLockPayload example_lockPath) world_exits_before_signal))
              (SystemError "ESRCH")
              (after (process_kill (Num 100) SIGTERM)
                 (after (resolveGatewayOwnerStatus (Num 100) (Some owner_payload) "linux")
                    (after (readLockPayload example_lockPath) world_exits_before_signal))))
    as (r & w4 & Hrun & _ & Hdone).
  - vm_compute. reflexivity.
  - vm_compute. reflexivity.
  - discriminate.
  - vm_compute. reflexivity.
  - exists r, w4. split; [exact Hrun|]. exact Hdone.
Defined.

Lemma stop_graceful_exit_needs_no_kill_witness :
  ∃ w4,
    tryStopForegroundGateway example_runtime contender None None world_exits_in_window =
      (Ok (mkStop stopped (Some (Num 100))), w4) ∧
    files w4 !! example_lockPath = None ∧
    signals (log w4) = [(Num 100, SIGTERM)].
Proof.
  pose proof (stop_graceful_exit_needs_no_kill example_runtime contender None None
              world_exits_in_window owner_payload
              (after (readLockPayload example_lockPath) world_exits_in_window)
              alive
              (after (resolveGatewayOwnerStatus (Num 100) (Some owner_payload) "linux")
                 (after (readLockPayload example_lockPath) world_exits_in_window))
              (after (process_kill (Num 100) SIGTERM)
                 (after (resolveGatewayOwnerStatus (Num 100) (Some owner_payload) "linux")
                    (after (readLockPayload example_lockPath) world_exits_in_window)))
              (mkStop stopped (Some (Num 100)))
              (after (stop_wait 30 example_lockPath owner_payload 0)
                 (after (process_kill (Num 100) SIGTERM)
                    (after (resolveGatewayOwnerStatus (Num 100) (Some owner_payload) "linux")
                       (after (readLockPayload example_lockPath) world_exits_in_window))))
              ltac:(vm_compute; reflexivity) ltac:(vm_compute; reflexivity)
              ltac:(discriminate) ltac:(vm_compute; reflexivity)
              ltac:(vm_compute; reflexivity)) as (Hrun & Hfree & _).
  eexists. split; [exact Hrun|]. split; [exact Hfree|]. vm_compute. reflexivity.
Defined.

Lemma acquire_takes_free_lock_witness :
  ∃ w',
    acquireGatewayLock example_runtime contender 1 example_options (host None ∅ []) =
      (Ok (Some (mkHandle example_lockPath example_configPath 3)), w') ∧
    clock w' = 100000 ∧
    outcome (readLockPayload example_lockPath) w' =
      Ok (Some (mkPayload (Num 300) epoch_plus_100s example_configPath None)).
Proof.
  destruct (acquire_takes_free_lock example_runtime contender 0 example_options
              (host None ∅ []))
    as (h & w' & Hrun & -> & Hclock & _ & _ & _ & _ & Hread).
  - vm_compute. reflexivity.
  - reflexivity.
  - reflexivity.
  - vm_compute. reflexivity.
  - vm_compute. reflexivity.
  - exists w'. split; [exact Hrun|]. split; [exact Hclock|]. exact Hread.
Defined.

Lemma release_then_acquire_succeeds_at_once_witness :
  ∃ w1 h' w2,
    release held_handle (world_held []) = (Ok tt, w1) ∧
    files w1 !! example_lockPath = None ∧
    acquireGatewayLock example_runtime contender 1 example_options w1 =
      (Ok (Some h'), w2) ∧
    h_lockPath h' = example_lockPath ∧ clock w2 = 100000.
Proof.
  destruct (release_then_acquire_succeeds_at_once example_runtime contender held_handle 0
              example_options (world_held []))
    as (w1 & h' & w2 & Hrelease & Hfree & _ & Hrun & Hpath & Hclock & _).
  - vm_compute. reflexivity.
  - reflexivity.
  - vm_compute. reflexivity.
  - vm_compute. reflexivity.
  - exists w1, h', w2. split; [exact Hrelease|]. split; [exact Hfree|].
    split; [exact Hrun|]. split; [exact Hpath|exact Hclock].
Defined.

Lemma acquire_times_out_on_held_lock_witness :
  ∃ w',
    acquireGatewayLock example_runtime contender 201 example_options world_held_fresh =
      (Throw (GatewayLockError
                "gateway already running (pid 100); lock timeout after 200ms" None), w') ∧
    files w' !! example_lockPath = files world_held_fresh !! example_lockPath ∧
    (200 <= clock w' - 100000)%Z.
Proof.
  destruct (acquire_times_out_on_held_lock example_runtime contender 201 example_options
              world_held_fresh (mkFile 1 (JSON_stringify fresh_payload) 100000)
              fresh_payload)
    as (w' & Hrun & Hfile & Hclock & _).
  - vm_compute. reflexivity.
  - reflexivity.
  - vm_compute. reflexivity.
  - reflexivity.
  - reflexivity.
  - intros w' Hquiet Hprocs.
    exact (holder_probes_alive example_runtime holder example_configPath "linux"
             world_running 100%positive owner_proc eq_refl eq_refl eq_refl
             (fun _ => ex_intro _ (Num 5000) eq_refl) w' Hquiet Hprocs).
  - vm_compute. reflexivity.
  - vm_compute. lia.
  - exists w'. split; [exact Hrun|]. split; [exact Hfile|exact Hclock].
Defined.

Lemma second_instance_times_out_witness :
  ∃ h w1 w2,
    acquireGatewayLock example_runtime holder 1 example_options world_running =
      (Ok (Some h), w1) ∧
    acquireGatewayLock example_runtime contender 201 example_options w1 =
      (Throw (GatewayLockError
                "gateway already running (pid 100); lock timeout after 200ms" None), w2) ∧
    files w2 = files w1.
Proof.
  destruct (second_instance_times_out example_runtime holder contender 0 201
              example_options example_options world_running 100%positive owner_proc)
    as (h & w1 & w2 & Hfirst & Hsecond & Hfiles & _).
  - vm_compute. reflexivity.
  - vm_compute. reflexivity.
  - reflexivity.
  - vm_compute. reflexivity.
  - reflexivity.
  - vm_compute. reflexivity.
  - intros _. exists (Num 5000). vm_compute. reflexivity.
  - reflexivity.
  - reflexivity.
  - vm_compute. reflexivity.
  - vm_compute. reflexivity.
  - vm_compute. lia.
  - exists h, w1, w2. split; [exact Hfirst|]. split; [exact Hsecond|exact Hfiles].
Defined.


Lemma readLinuxCmdline_returns_the_arguments_witness :
  outcome (readLinuxCmdline (Num 4242)) world_odd_name = Ok (Some example_argv).
Proof.
  apply (readLinuxCmdline_returns_the_arguments (Num 4242) world_odd_name odd_proc
           example_argv).
  - reflexivity.
  - vm_compute. reflexivity.
  - reflexivity.
  - repeat (constructor;
      [split; [reflexivity|];
       split; [split; eexists _, _; (split; [vm_compute; reflexivity|reflexivity])
              |reflexivity]|]).
    constructor.
Defined.

Lemma gateway_argv_is_recognised_witness :
  isGatewayArgv ["node.exe"; "C:\Apps\OpenClaw\Dist\Index.JS"; "Gateway"] = true.
Proof.
  apply (gateway_argv_is_recognised
           ["node.exe"; "C:\Apps\OpenClaw\Dist\Index.JS"; "Gateway"]
           "Gateway" "C:\Apps\OpenClaw\Dist\Index.JS" "C:\Apps\OpenClaw\" "Dist\Index.JS").
  - simpl. auto.
  - reflexivity.
  - simpl. auto.
  - reflexivity.
  - vm_compute. auto.
Defined.

Lemma unparsable_lock_is_judged_by_its_mtime_witness :
  ∃ r w3,
    contention example_runtime example_lockPath "linux" 50 30000 world_half_written =
      (res_map (Retry None) r, w3) ∧
    r = Ok Waited ∧
    files w3 = files world_half_written.
Proof.
  destruct (unparsable_lock_is_judged_by_its_mtime example_runtime example_lockPath
              "linux" 50 30000 world_half_written
              (after (readLockPayload example_lockPath) world_half_written))
    as (r & w3 & Hrun & Hstep).
  - vm_compute. reflexivity.
  - exists r, w3. split; [exact Hrun|].
    destruct Hstep as (Hr & _ & Hfiles & _). split; [exact Hr|exact Hfiles].
Defined.

Lemma vault_read_returns_the_body_on_200_witness :
  syncVaultRead (vault_host (Some ("- Name: VaultBot" ++ LF ++ LF ++ "200"))) "IDENTITY.md"
  = inr (Some ("- Name: VaultBot" ++ LF)).
Proof.
  apply (vault_read_returns_the_body_on_200
           (vault_host (Some ("- Name: VaultBot" ++ LF ++ LF ++ "200")))
           "IDENTITY.md" ("- Name: VaultBot" ++ LF) "200").
  - reflexivity.
  - reflexivity.
  - reflexivity.
  - discriminate.
  - reflexivity.
  - reflexivity.
Defined.


Lemma placeholder_wrapping_is_ignored_witness :
  isIdentityPlaceholder "  _(Your signature -  pick one that feels right)_ " = true.
Proof.
  apply (placeholder_wrapping_is_ignored "  " "_"
           "Your signature -  pick one that feels right" "_" " ");
    reflexivity.
Defined.
